(** * beautifultable: the row/column data model, the width allocator and the
    border composer of [beautifultable/beautifultable.py], embedded in Rocq.

    Python integers are [Z]; a Python [str] is the list of its code points;
    a Python list is a [list] addressed with Python's index rules (negative
    indices count from the end, [insert] clamps, [pop] and item access raise
    [IndexError]).  A method that mutates the table is a function from the
    table to an [outcome]: the value returned or the exception raised,
    together with the table as the call leaves it. *)

From Stdlib Require Import String Ascii.
From Stdlib Require Import DecimalString.
From Stdlib Require Import ZArith NArith List Bool Lia.
Import ListNotations.
Local Open Scope Z_scope.

(* ================================================================== *)
(** ** Python values, exceptions and results *)

Inductive exn : Type :=
| TypeError | IndexError | ValueError | KeyError | ZeroDivisionError.

(** Result of a computation that touches no table. *)
Inductive res (A : Type) : Type :=
| Ok (a : A)
| Err (e : exn).
Arguments Ok {A} a.
Arguments Err {A} e.

Definition res_bind {A B} (m : res A) (f : A -> res B) : res B :=
  match m with Ok a => f a | Err e => Err e end.

Declare Scope res_scope.
Delimit Scope res_scope with res.
Notation "x <- m ;; k" := (res_bind m (fun x => k))
  (at level 100, m at next level, right associativity) : res_scope.
Notation "' p <- m ;; k" := (res_bind m (fun p => k))
  (at level 100, p pattern, m at next level, right associativity) : res_scope.

(** A [str] is the sequence of its code points. *)
Definition pystr : Type := list N.

Definition str (s : string) : pystr := map N_of_ascii (list_ascii_of_string s).

Definition pystr_eqb (a b : pystr) : bool :=
  if list_eq_dec N.eq_dec a b then true else false.

(** Cell values: [None], integers and strings.  Floats and nested tables are
    not part of the model. *)
Inductive value : Type :=
| VNone
| VInt (z : Z)
| VStr (s : pystr).

(** A subscript: an [int], a [str], a [slice(start, stop, step)], or an
    object of any other type. *)
Inductive key : Type :=
| KInt (i : Z)
| KStr (s : pystr)
| KSlice (start stop step : option Z)
| KOther.

Inductive Alignment : Type := ALIGN_LEFT | ALIGN_CENTER | ALIGN_RIGHT.
Inductive WidthExceedPolicy : Type := WEP_WRAP | WEP_STRIP | WEP_ELLIPSIS.
Inductive SignMode : Type := SM_PLUS | SM_MINUS | SM_SPACE.

(* ================================================================== *)
(** ** Python lists *)

Module PyList.
Section Ops.
Context {A : Type}.

Definition len (l : list A) : Z := Z.of_nat (List.length l).

(** An index as item access and [pop] read it: negative indices count from
  the end; out of range is [None]. *)
Definition norm_index (n i : Z) : option nat :=
let j := if i <? 0 then i + n else i in
if (0 <=? j) && (j <? n) then Some (Z.to_nat j) else None.

(** [l[i]] *)
Definition get (l : list A) (i : Z) : res A :=
match norm_index (len l) i with
| Some j => match nth_error l j with Some x => Ok x | None => Err IndexError end
| None => Err IndexError
end.

(** [l[i] = x] *)
Definition set (l : list A) (i : Z) (x : A) : res (list A) :=
match norm_index (len l) i with
| Some j => Ok (firstn j l ++ x :: skipn (S j) l)
| None => Err IndexError
end.

(** [l.insert(i, x)]: the position is clamped into [0 .. len l]. *)
Definition insert (l : list A) (i : Z) (x : A) : list A :=
let n := len l in
let j := if i <? 0 then Z.max 0 (i + n) else Z.min i n in
firstn (Z.to_nat j) l ++ x :: skipn (Z.to_nat j) l.

(** [l.pop(i)]: the element and the remaining list. *)
Definition pop (l : list A) (i : Z) : res (A * list A) :=
match norm_index (len l) i with
| Some j =>
    match nth_error l j with
    | Some x => Ok (x, firstn j l ++ skipn (S j) l)
    | None => Err IndexError
    end
| None => Err IndexError
end.

(** [l[:n]] *)
Definition slice_to (l : list A) (n : Z) : list A :=
if n <? 0 then firstn (Z.to_nat (len l + n)) l else firstn (Z.to_nat n) l.

(** [[x] * n] and [s * n] *)
Definition repeat_list (l : list A) (n : Z) : list A :=
concat (repeat l (Z.to_nat n)).

(** [enumerate(l)] *)
Fixpoint enumerate_from (i : Z) (l : list A) : list (Z * A) :=
match l with
| [] => []
| x :: r => (i, x) :: enumerate_from (i + 1) r
end.
Definition enumerate (l : list A) : list (Z * A) := enumerate_from 0 l.

(** [zip( *rows )]: the columns of a list of rows, as long as the shortest
  row; no rows give no columns. *)
Fixpoint zip_star (rows : list (list A)) : list (list A) :=
match rows with
| [] => []
| [r] => map (fun x => [x]) r
| r :: rs => map (fun p => fst p :: snd p) (combine r (zip_star rs))
end.
End Ops.

(** [range(start, stop, step)] for a non-zero step. *)
Definition range3 (start stop step : Z) : list Z :=
let n :=
  if 0 <? step then
    if start <? stop then (stop - start - 1) / step + 1 else 0
  else
    if stop <? start then (start - stop - 1) / (- step) + 1 else 0 in
map (fun k => start + Z.of_nat k * step) (seq 0 (Z.to_nat n)).

Definition range (n : Z) : list Z := range3 0 n 1.

(** [slice(start, stop, step).indices(n)], then the indices it selects. *)
Definition slice_indices (start stop step : option Z) (n : Z) : res (list Z) :=
let st := match step with Some s => s | None => 1 end in
if st =? 0 then Err ValueError else
let lower := if st <? 0 then -1 else 0 in
let upper := if st <? 0 then n - 1 else n in
let clamp (v : Z) :=
  if v <? 0 then Z.max (v + n) lower else Z.min v upper in
let a := match start with
         | Some v => clamp v
         | None => if st <? 0 then upper else lower
         end in
let b := match stop with
         | Some v => clamp v
         | None => if st <? 0 then lower else upper
         end in
Ok (range3 a b st).

(** [del l[start:stop:step]] *)
Definition del_slice {A} (l : list A) (start stop step : option Z)
: res (list A) :=
match slice_indices start stop step (len l) with
| Ok idx =>
    Ok (map snd
          (filter (fun p => negb (existsb (Z.eqb (fst p)) idx))
                  (enumerate l)))
| Err e => Err e
end.

Definition zsum (l : list Z) : Z := fold_right Z.add 0 l.
End PyList.
Import PyList.

(* ================================================================== *)
(** ** Python strings, dictionaries and arithmetic *)

Module PyStr.
(** [s.split(sep)] for a one-character separator. *)
Fixpoint split (sep : N) (s : pystr) : list pystr :=
  match s with
  | [] => [[]]
  | c :: r =>
      if N.eqb c sep then [] :: split sep r
      else match split sep r with
           | l :: ls => (c :: l) :: ls
           | [] => [[c]]
           end
  end.

(** [sep.join(parts)] *)
Fixpoint join (sep : pystr) (parts : list pystr) : pystr :=
  match parts with
  | [] => []
  | [p] => p
  | p :: r => p ++ sep ++ join sep r
  end.

(** The code points for which [str.isspace] holds. *)
Definition is_whitespace (c : N) : bool :=
  ((9 <=? c) && (c <=? 13) || (28 <=? c) && (c <=? 32)
   || (c =? 133) || (c =? 160) || (c =? 5760)
   || (8192 <=? c) && (c <=? 8202)
   || (c =? 8232) || (c =? 8233) || (c =? 8239) || (c =? 8287)
   || (c =? 12288))%N.

(** [s.isspace()]: at least one character, and all of them whitespace. *)
Definition isspace (s : pystr) : bool :=
  match s with
  | [] => false
  | _ => forallb is_whitespace s
  end.

Fixpoint lstrip (s : pystr) : pystr :=
  match s with
  | c :: r => if is_whitespace c then lstrip r else s
  | [] => []
  end.

(** [s.strip()] *)
Definition strip (s : pystr) : pystr := rev (lstrip (rev (lstrip s))).

Definition newline : N := 10%N.
Definition space : N := 32%N.
End PyStr.

(** A [dict] with integer keys: the entries in insertion order; assigning to
    a key that is present replaces its value in place. *)
Module PyDict.
Definition t : Type := list (Z * Z).

Fixpoint setitem (k v : Z) (d : t) : t :=
  match d with
  | [] => [(k, v)]
  | (k', v') :: r =>
      if k' =? k then (k, v) :: r else (k', v') :: setitem k v r
  end.

Fixpoint getitem (d : t) (k : Z) : res Z :=
  match d with
  | [] => Err KeyError
  | (k', v') :: r => if k' =? k then Ok v' else getitem r k
  end.

Definition keys (d : t) : list Z := map fst d.

Fixpoint insert_sorted (x : Z) (l : list Z) : list Z :=
  match l with
  | [] => [x]
  | y :: r => if x <=? y then x :: l else y :: insert_sorted x r
  end.

(** [sorted(d)]: the keys in ascending order. *)
Definition sorted (d : t) : list Z := fold_right insert_sorted [] (keys d).
End PyDict.

(** [int(a / b)] under [from __future__ import division]: the true quotient
    truncated toward zero, [ZeroDivisionError] for a zero divisor.  The
    quotient is taken exactly; Python goes through a float, which agrees
    with it as long as the operands stay below 2^53. *)
Definition int_truediv (a b : Z) : res Z :=
  if b =? 0 then Err ZeroDivisionError else Ok (Z.quot a b).

(* ================================================================== *)
(** ** The table *)

Definition row : Type := list value.

(** A header entry is [None] or a [str]. *)
Definition header_t : Type := option pystr.

(** The border and intersection strings a style template holds and
    [set_style] copies into the table one by one. *)
Record Style : Type := mkStyle {
  left_border_char : pystr;
  right_border_char : pystr;
  top_border_char : pystr;
  bottom_border_char : pystr;
  header_separator_char : pystr;
  column_separator_char : pystr;
  row_separator_char : pystr;
  intersect_top_left : pystr;
  intersect_top_mid : pystr;
  intersect_top_right : pystr;
  intersect_header_left : pystr;
  intersect_header_mid : pystr;
  intersect_header_right : pystr;
  intersect_row_left : pystr;
  intersect_row_mid : pystr;
  intersect_row_right : pystr;
  intersect_bottom_left : pystr;
  intersect_bottom_mid : pystr;
  intersect_bottom_right : pystr
}.

(** The [BTColumns] object: the per-column metadata lists and the column
    defaults.  [header_alignment] is [BTColumnHeader.alignment]. *)
Module Columns.
Record t : Type := mk {
  header : list header_t;
  header_alignment : option (list Alignment);
  alignment : list Alignment;
  width : list Z;
  padding_left : list Z;
  padding_right : list Z;
  width_exceed_policy : WidthExceedPolicy;
  _pad_character : pystr;
  default_alignment : Alignment;
  default_padding : Z
}.

Definition with_header (h : list header_t) (c : t) : t :=
  mk h (header_alignment c) (alignment c) (width c) (padding_left c)
     (padding_right c) (width_exceed_policy c) (_pad_character c)
     (default_alignment c) (default_padding c).
Definition with_header_alignment (a : option (list Alignment)) (c : t)
  : t :=
  mk (header c) a (alignment c) (width c) (padding_left c)
     (padding_right c) (width_exceed_policy c) (_pad_character c)
     (default_alignment c) (default_padding c).
Definition with_alignment (a : list Alignment) (c : t) : t :=
  mk (header c) (header_alignment c) a (width c) (padding_left c)
     (padding_right c) (width_exceed_policy c) (_pad_character c)
     (default_alignment c) (default_padding c).
Definition with_width (w : list Z) (c : t) : t :=
  mk (header c) (header_alignment c) (alignment c) w (padding_left c)
     (padding_right c) (width_exceed_policy c) (_pad_character c)
     (default_alignment c) (default_padding c).
Definition with_padding_left (p : list Z) (c : t) : t :=
  mk (header c) (header_alignment c) (alignment c) (width c) p
     (padding_right c) (width_exceed_policy c) (_pad_character c)
     (default_alignment c) (default_padding c).
Definition with_padding_right (p : list Z) (c : t) : t :=
  mk (header c) (header_alignment c) (alignment c) (width c)
     (padding_left c) p (width_exceed_policy c) (_pad_character c)
     (default_alignment c) (default_padding c).
End Columns.

(** The [BeautifulTable] object.  [rows_header] is [rows.header]. *)
Record BeautifulTable : Type := mkTable {
  _ncol : Z;
  _data : list row;
  rows_header : list header_t;
  columns : Columns.t;
  _maxwidth : Z;
  style : Style;
  numeric_precision : Z;
  serialno : bool;
  serialno_header : pystr;
  detect_numerics : bool;
  sign_mode : SignMode
}.

Definition with_ncol (n : Z) (t : BeautifulTable) : BeautifulTable :=
  mkTable n (_data t) (rows_header t) (columns t) (_maxwidth t) (style t)
          (numeric_precision t) (serialno t) (serialno_header t)
          (detect_numerics t) (sign_mode t).
Definition with_data (d : list row) (t : BeautifulTable) : BeautifulTable :=
  mkTable (_ncol t) d (rows_header t) (columns t) (_maxwidth t) (style t)
          (numeric_precision t) (serialno t) (serialno_header t)
          (detect_numerics t) (sign_mode t).
Definition with_rows_header (h : list header_t) (t : BeautifulTable)
  : BeautifulTable :=
  mkTable (_ncol t) (_data t) h (columns t) (_maxwidth t) (style t)
          (numeric_precision t) (serialno t) (serialno_header t)
          (detect_numerics t) (sign_mode t).
Definition with_columns (c : Columns.t) (t : BeautifulTable) : BeautifulTable :=
  mkTable (_ncol t) (_data t) (rows_header t) c (_maxwidth t) (style t)
          (numeric_precision t) (serialno t) (serialno_header t)
          (detect_numerics t) (sign_mode t).
Definition with_maxwidth (m : Z) (t : BeautifulTable) : BeautifulTable :=
  mkTable (_ncol t) (_data t) (rows_header t) (columns t) m (style t)
          (numeric_precision t) (serialno t) (serialno_header t)
          (detect_numerics t) (sign_mode t).

(** [len(table.rows)] and [len(table.columns)] *)
Definition rows_len (t : BeautifulTable) : Z := len (_data t).
Definition columns_len (t : BeautifulTable) : Z := _ncol t.

(* ------------------------------------------------------------------ *)
(** *** Methods: the outcome of a call and the table it leaves *)

Inductive outcome (A : Type) : Type :=
| Return (a : A) (t : BeautifulTable)
| Raise (e : exn) (t : BeautifulTable).
Arguments Return {A} a t.
Arguments Raise {A} e t.

Definition M (A : Type) : Type := BeautifulTable -> outcome A.

Definition ret {A} (a : A) : M A := fun t => Return a t.
Definition raise {A} (e : exn) : M A := fun t => Raise e t.
Definition bind {A B} (m : M A) (f : A -> M B) : M B :=
  fun t => match m t with
           | Return a t' => f a t'
           | Raise e t' => Raise e t'
           end.
Definition lift {A} (r : res A) : M A :=
  fun t => match r with Ok a => Return a t | Err e => Raise e t end.
Definition gets {A} (f : BeautifulTable -> A) : M A := fun t => Return (f t) t.
Definition modify (f : BeautifulTable -> BeautifulTable) : M unit :=
  fun t => Return tt (f t).

Declare Scope meth_scope.
Delimit Scope meth_scope with meth.
Notation "x <- m ;; k" := (bind m (fun x => k))
  (at level 100, m at next level, right associativity) : meth_scope.
Notation "m ;; k" := (bind m (fun _ => k))
  (at level 100, right associativity) : meth_scope.

(** The table a call leaves behind, however it ends. *)
Definition final_table {A} (o : outcome A) : BeautifulTable :=
  match o with Return _ t => t | Raise _ t => t end.

(** [for x in xs: body(x)], stopping at the first exception. *)
Fixpoint for_each {A} (body : A -> M unit) (xs : list A) : M unit :=
  match xs with
  | [] => ret tt
  | x :: r => bind (body x) (fun _ => for_each body r)
  end.

(* ================================================================== *)
(** ** The list classes of base.py *)

(** Modelled from the spec: [base.py] (classes [BTBaseList], [BTBaseRow],
    [BTBaseColumn]) is not among the sources.  [header.index(key)] follows
    "string lookup resolves to the first matching header occurrence" and
    fails with a key error (the spec's HeaderNotFound) when the header is
    absent. *)
Fixpoint header_index_from (i : Z) (h : list header_t) (s : pystr) : res Z :=
  match h with
  | [] => Err KeyError
  | x :: r =>
      match x with
      | Some s' => if pystr_eqb s' s then Ok i else header_index_from (i + 1) r s
      | None => header_index_from (i + 1) r s
      end
  end.
Definition header_index (h : list header_t) (s : pystr) : res Z :=
  header_index_from 0 h s.

(** [BTRows._canonical_key] and [BTColumns._canonical_key]; [h] is the
    header list the collection resolves strings against. *)
Definition _canonical_key (h : list header_t) (k : key) : res key :=
  match k with
  | KInt _ | KSlice _ _ _ => Ok k
  | KStr s => res_bind (header_index h s) (fun i => Ok (KInt i))
  | KOther => Err TypeError
  end.

(** [del l[key]] on a plain Python list. *)
Definition list_delitem {A} (l : list A) (k : key) : res (list A) :=
  match k with
  | KInt i => res_bind (pop l i) (fun p => Ok (snd p))
  | KSlice a b c => del_slice l a b c
  | _ => Err TypeError
  end.

(** Modelled from the spec: [BTBaseList.__delitem__], [_pop], [_insert] and
    [__getitem__] of the missing [base.py].  The key is normalised once
    through the canonical-key function ("an input key of kind {integer
    index, string header, range/slice} is normalized to an index or
    index-range"), then Python's list rules apply: an integer beyond the
    bounds is the spec's IndexOutOfRange, [_insert] is [list.insert]. *)
Definition base_delitem {A} (h : list header_t) (l : list A) (k : key)
  : res (list A) :=
  res_bind (_canonical_key h k) (list_delitem l).

Definition base_pop {A} (h : list header_t) (l : list A) (k : key)
  : res (A * list A) :=
  res_bind (_canonical_key h k)
    (fun ck => match ck with KInt i => pop l i | _ => Err TypeError end).

Definition base_getitem {A} (h : list header_t) (l : list A) (k : key)
  : res A :=
  res_bind (_canonical_key h k)
    (fun ck => match ck with KInt i => get l i | _ => Err TypeError end).

Definition base_insert {A} (l : list A) (i : Z) (x : A) : list A :=
  insert l i x.

(** Modelled from the spec: [NonNegativeIntegerMetaData.__setitem__] of the
    missing [meta.py]: a width or padding entry is a non-negative integer,
    anything else is refused with a value error; the index follows the list
    rules. *)
Definition meta_setitem (l : list Z) (i : Z) (v : Z) : res (list Z) :=
  if v <? 0 then Err ValueError else set l i v.

(* ================================================================== *)
(** ** The text measurer and wrapper of the spec, and example tables *)

Module Ansi.
(** Modelled from the spec: [ansi.py] (class [ANSIMultiByteString]) is not
    among the sources.  "displayWidth(s): visible terminal-column count of
    s, excluding embedded ANSI escape sequences from the count, and
    counting wide (e.g., East-Asian) glyphs as 2."  The wide glyphs are
    the East-Asian wide and full-width blocks; an escape sequence is ESC
    followed by one character, or ESC, an opening bracket, parameters and
    a final character in the range @ to ~. *)
Definition wide (c : N) : bool :=
  ((4352 <=? c) && (c <=? 4447)
   || (11904 <=? c) && (c <=? 42191)
   || (44032 <=? c) && (c <=? 55203)
   || (63744 <=? c) && (c <=? 64255)
   || (65072 <=? c) && (c <=? 65103)
   || (65280 <=? c) && (c <=? 65376)
   || (65504 <=? c) && (c <=? 65510)
   || (127744 <=? c) && (c <=? 128591)
   || (131072 <=? c) && (c <=? 262141))%N.

Definition wcwidth (c : N) : Z := if wide c then 2 else 1.

Inductive scan : Type := Text | AfterEsc | InCsi.

Definition scan_next (st : scan) (c : N) : scan :=
  match st with
  | Text => if (c =? 27)%N then AfterEsc else Text
  | AfterEsc => if (c =? 91)%N then InCsi else Text
  | InCsi => if ((64 <=? c) && (c <=? 126))%N then Text else InCsi
  end.

(** The columns a character adds when read in state [st]. *)
Definition visible (st : scan) (c : N) : Z :=
  match st with
  | Text => if (c =? 27)%N then 0 else wcwidth c
  | _ => 0
  end.

Fixpoint termwidth_from (st : scan) (s : pystr) : Z :=
  match s with
  | [] => 0
  | c :: r => visible st c + termwidth_from (scan_next st c) r
  end.

Definition termwidth (s : pystr) : Z := termwidth_from Text s.

(** A unit is what a line break may not split: a glyph, or a whole escape
    sequence (the characters collected since ESC). *)
Fixpoint units_from (st : scan) (cur : pystr) (s : pystr) : list pystr :=
  match s with
  | [] => match cur with [] => [] | _ => [cur] end
  | c :: r =>
      match st, scan_next st c with
      | Text, Text => [c] :: units_from Text [] r
      | _, Text => (cur ++ [c]) :: units_from Text [] r
      | _, st' => units_from st' (cur ++ [c]) r
      end
  end.

Definition units (s : pystr) : list pystr := units_from Text [] s.

Definition is_blank (u : pystr) : bool :=
  match u with [c] => PyStr.is_whitespace c | _ => false end.

(** The longest prefix of the units that fits in [width] columns, and the
    rest. *)
Fixpoint fit (width : Z) (us : list pystr) : list pystr * list pystr :=
  match us with
  | [] => ([], [])
  | u :: r =>
      if termwidth u <=? width then
        let '(a, b) := fit (width - termwidth u) r in (u :: a, b)
      else ([], us)
  end.

(** The units before the last blank of a line, and those after it. *)
Fixpoint split_last_blank (us : list pystr)
  : option (list pystr * list pystr) :=
  match us with
  | [] => None
  | u :: r =>
      match split_last_blank r with
      | Some (a, b) => Some (u :: a, b)
      | None => if is_blank u then Some ([], r) else None
      end
  end.

(** One line and what is left for the next ones.  "breaks preferentially
    at whitespace boundaries, falling back to a hard break mid-token when
    a single token exceeds width"; "for width <= 0, degrades to
    one-character (or empty) lines". *)
Definition take_line (width : Z) (us : list pystr)
  : list pystr * list pystr :=
  match fit width us with
  | ([], u :: r) => ([u], r)
  | (a, []) => (a, [])
  | (a, u :: r) =>
      if is_blank u then (a, r)
      else match split_last_blank a with
           | Some (x :: xs, after) => (x :: xs, after ++ u :: r)
           | _ => (a, u :: r)
           end
  end.

Fixpoint wrap_units (fuel : nat) (width : Z) (us : list pystr)
  : list pystr :=
  match fuel, us with
  | _, [] => []
  | O, _ => [List.concat us]
  | S k, _ =>
      let '(line, rest) := take_line width us in
      List.concat line :: wrap_units k width rest
  end.

(** Modelled from the spec: "wrap(s, width) -> ordered sequence of lines
    ... returns a single empty line for empty input"; "every returned line
    satisfies displayWidth(line) <= width (for width > 0)"; "for
    width <= 0, degrades to one-character (or empty) lines".  When not even
    the first unit fits the width, the first line is left empty; the lines
    after it take one unit at least. *)
Definition wrap (s : pystr) (width : Z) : list pystr :=
  match units s with
  | [] => [[]]
  | u :: r =>
      let lines := wrap_units (List.length (u :: r)) width (u :: r) in
      if termwidth u <=? width then lines else [] :: lines
  end.

(** The state of the scanner after [s], read from the state [st]. *)
Definition scan_end (st : scan) (s : pystr) : scan :=
  fold_left scan_next s st.

(** A unit after which the scanner reads plain text again. *)
Definition closed (u : pystr) : Prop := scan_end Text u = Text.

(** Text without escape sequences, wide glyphs and whitespace. *)
Definition plain (s : pystr) : bool :=
  forallb (fun c => negb (c =? 27)%N && negb (wide c)
                    && negb (PyStr.is_whitespace c)) s.
End Ansi.

Module Example.
(** Modelled from the spec: the row constructor of the missing [base.py];
    "Row: ordered sequence of cell values, length always equal to column
    count", a length that disagrees being the spec's LengthMismatch. *)
Definition BTRowData (t : BeautifulTable) (r : row) : res row :=
  if len r =? _ncol t then Ok r else Err ValueError.

Definition digits (z : Z) : pystr :=
  str (NilZero.string_of_uint (N.to_uint (Z.to_N (Z.abs z)))).

(** An instance of the formatting step of [utils.pre_process]: a string
    stays as it is, an integer is written in decimal with the sign the
    sign mode asks for. *)
Definition format_value (_ : bool) (_ : Z) (sign : SignMode) (v : value)
  : pystr :=
  match v with
  | VNone => str "None"
  | VStr s => s
  | VInt z =>
      (if z <? 0 then str "-"
       else match sign with
            | SM_PLUS => str "+"
            | SM_MINUS => []
            | SM_SPACE => str " "
            end) ++ digits z
  end.

(** The default style, as the rendering in the module's docstring shows
    it. *)
Definition STYLE_DEFAULT : Style :=
  mkStyle (str "|") (str "|") (str "-") (str "-") (str "-") (str "|")
          (str "-")
          (str "+") (str "+") (str "+") (str "+") (str "+") (str "+")
          (str "+") (str "+") (str "+") (str "+") (str "+") (str "+").

(** A table in the default configuration with the given rows, headers and
    widths; alignment centre and padding 1 in every column. *)
Definition table_of (maxwidth : Z) (header : list header_t)
           (widths : list Z) (data : list row) : BeautifulTable :=
  let n := List.length header in
  mkTable (len header) data (repeat None (List.length data))
          (Columns.mk header None (repeat ALIGN_CENTER n) widths
                      (repeat 1 n) (repeat 1 n) WEP_WRAP (str " ")
                      ALIGN_CENTER 1)
          maxwidth STYLE_DEFAULT 3 false (str "SN") true SM_MINUS.

Definition with_policy (p : WidthExceedPolicy) (t : BeautifulTable)
  : BeautifulTable :=
  let c := columns t in
  with_columns
    (Columns.mk (Columns.header c) (Columns.header_alignment c)
                (Columns.alignment c) (Columns.width c)
                (Columns.padding_left c) (Columns.padding_right c)
                p (Columns._pad_character c)
                (Columns.default_alignment c) (Columns.default_padding c))
    t.
End Example.

Module Concrete.
Import Example.

(** No rows and no columns: the table [BeautifulTable()] starts as. *)
Definition empty : BeautifulTable := table_of 80 [] [] [].

(** One column headed "a" and the two rows [[1]] and [[2]]. *)
Definition one_column : BeautifulTable :=
  table_of 80 [Some (str "a")] [0] [[VInt 1]; [VInt 2]].

(** Three columns without headers and one row whose cells are 3, 7 and 4
    characters wide; the budget of 18 leaves 8 columns for the text. *)
Definition three_columns : BeautifulTable :=
  table_of 18 [None; None; None] [0; 0; 0]
           [[VStr (str "aaa"); VStr (str "bbbbbbb"); VStr (str "cccc")]].

(** One column of width 3 between the borders of the default style. *)
Definition narrow : BeautifulTable :=
  table_of 80 [None] [3] [[VStr (str "x")]].

(** One column of width 7, so 5 printable columns, under the ellipsis
    policy. *)
Definition ellipsis_5 : BeautifulTable :=
  with_policy WEP_ELLIPSIS
              (table_of 80 [None] [7] [[VStr (str "HelloWorld")]]).

(** One column of width 8, so 6 printable columns, under the ellipsis
    policy, and a cell of four wide glyphs. *)
Definition ellipsis_6 : BeautifulTable :=
  with_policy WEP_ELLIPSIS (table_of 80 [None] [8] []).
Definition wide_cell : pystr := [20320; 22909; 20320; 22909]%N.
End Concrete.

Module Samples.
Import Example Concrete.

(** [one_column] with its two rows headed "x" and "y". *)
Definition headed_rows : BeautifulTable :=
  with_rows_header [Some (str "x"); Some (str "y")] one_column.

(** The full-width hyphen-minus U+FF0D: one character, two columns, not
    a blank. *)
Definition fullwidth_dash : pystr := [65293%N].

(** [table.top_border_char = c] *)
Definition with_top_border (c : pystr) (t : BeautifulTable) : BeautifulTable :=
  let s := style t in
  mkTable (_ncol t) (_data t) (rows_header t) (columns t) (_maxwidth t)
          (mkStyle (left_border_char s) (right_border_char s) c
                   (bottom_border_char s) (header_separator_char s)
                   (column_separator_char s) (row_separator_char s)
                   (intersect_top_left s) (intersect_top_mid s)
                   (intersect_top_right s) (intersect_header_left s)
                   (intersect_header_mid s) (intersect_header_right s)
                   (intersect_row_left s) (intersect_row_mid s)
                   (intersect_row_right s) (intersect_bottom_left s)
                   (intersect_bottom_mid s) (intersect_bottom_right s))
          (numeric_precision t) (serialno t) (serialno_header t)
          (detect_numerics t) (sign_mode t).

(** [one_column] with serial numbers switched on. *)
Definition numbered : BeautifulTable :=
  mkTable (_ncol one_column) (_data one_column) (rows_header one_column)
          (columns one_column) (_maxwidth one_column) (style one_column)
          (numeric_precision one_column) true (serialno_header one_column)
          (detect_numerics one_column) (sign_mode one_column).
End Samples.

Section Program.

(** The constructor [BTRowData(table, row)] belongs to the missing
    [base.py]: it stores the cells of [row] or raises, and does not touch
    the table.  Which rows it refuses is left open. *)
Variable BTRowData : BeautifulTable -> row -> res row.

(** [ansi.py] is not among the sources.  Its two entry points, reached
    through [utils.termwidth] and [utils.textwrap], are parameters: the
    display width of a string and the lines a string wraps into. *)
Variable termwidth : pystr -> Z.
Variable textwrap : pystr -> Z -> list pystr.

(** The part of [utils.pre_process] after its [None] test: numeric
    detection, rounding and sign formatting of a value that is not [None],
    given [detect_numerics], [precision] and the sign mode. *)
Variable format_value : bool -> Z -> SignMode -> value -> pystr.

(* ---------------------------------------------------------------- *)
(** ** BTRows *)

Local Open Scope meth_scope.

(** [BTRows.__delitem__] *)
Definition rows_delitem (k : key) : M unit :=
  match k with
  | KOther => raise TypeError
  | _ =>
      t <- gets id ;;
      d <- lift (base_delitem (rows_header t) (_data t) k) ;;
      modify (with_data d) ;;
      (* BTRowHeader.__delitem__: del self._value[key] *)
      h <- lift (list_delitem (rows_header t) k) ;;
      modify (with_rows_header h)
  end.

(** [BTRows.pop] *)
Definition rows_pop (index : key) : M row :=
  match index with
  | KInt _ | KStr _ =>
      t <- gets id ;;
      if len (_data t) =? 0 then raise IndexError
      else
        p <- lift (base_pop (rows_header t) (_data t) index) ;;
        modify (with_data (snd p)) ;;
        q <- lift (base_pop (rows_header t) (rows_header t) index) ;;
        modify (with_rows_header (snd q)) ;;
        ret (fst p)
  | _ => raise TypeError
  end.

(** [BTColumns._reset_state].  The rows are rebuilt as [len(_data)] rows of
    [ncol] cells [None]. *)
Definition columns_reset_state (ncol : Z) : M unit :=
  modify (fun t =>
    let c := columns t in
    let dp := Columns.default_padding c in
    let c' :=
      Columns.mk (repeat_list [None] ncol) None
                 (repeat_list [Columns.default_alignment c] ncol)
                 (repeat_list [0] ncol)
                 (repeat_list [dp] ncol) (repeat_list [dp] ncol)
                 (Columns.width_exceed_policy c) (Columns._pad_character c)
                 (Columns.default_alignment c) dp in
    with_data (repeat_list [repeat_list [VNone] ncol] (len (_data t)))
              (with_columns c' (with_ncol ncol t))).

(** [BTRows.insert] *)
Definition rows_insert (index : Z) (r : row) (header : header_t) : M unit :=
  t <- gets id ;;
  (if _ncol t =? 0 then columns_reset_state (len r) else ret tt) ;;
  modify (fun t => with_rows_header
                     (base_insert (rows_header t) index header) t) ;;
  t <- gets id ;;
  r' <- lift (BTRowData t r) ;;
  modify (fun t => with_data (base_insert (_data t) index r') t).

(** [BTRows.append]: the [header] argument is accepted and not used. *)
Definition rows_append (r : row) (header : header_t) : M unit :=
  t <- gets id ;;
  rows_insert (rows_len t) r None.

(* ---------------------------------------------------------------- *)
(** ** BTColumns *)

(** One metadata list or row, changed in place by [f]. *)
Definition update_columns (f : Columns.t -> res Columns.t) : M unit :=
  t <- gets id ;;
  c <- lift (f (columns t)) ;;
  modify (with_columns c).

(** [table.rows[j]] changed in place by [f], which may return a value. *)
Definition update_row {B} (j : Z) (f : Columns.t -> row -> res (B * row))
  : M B :=
  t <- gets id ;;
  r <- lift (base_getitem (rows_header t) (_data t) (KInt j)) ;;
  p <- lift (f (columns t) r) ;;
  d <- lift (set (_data t) j (snd p)) ;;
  modify (with_data d) ;;
  ret (fst p).

(** [for row in self._table.rows: body(row)], with the values the body
    returns collected in order. *)
Fixpoint for_rows {B} (f : Columns.t -> row -> res (B * row))
         (js : list Z) : M (list B) :=
  match js with
  | [] => ret []
  | j :: r =>
      b <- update_row j f ;;
      bs <- for_rows f r ;;
      ret (b :: bs)
  end.

Definition del_in (k : key) {A} (c : Columns.t) (l : list A)
  : res (list A) :=
  base_delitem (Columns.header c) l k.

Definition pop_in (k : key) {A} (c : Columns.t) (l : list A)
  : res (A * list A) :=
  base_pop (Columns.header c) l k.

(** The tail shared by [__delitem__] and [pop]:
    [self._table._ncol = len(self.header)], then
    [del self._table.rows[:]] if no column is left. *)
Definition columns_sync_ncol : M unit :=
  modify (fun t => with_ncol (len (Columns.header (columns t))) t) ;;
  t <- gets id ;;
  if _ncol t =? 0 then rows_delitem (KSlice None None None) else ret tt.

(** [BTColumns.__delitem__] *)
Definition columns_delitem (k : key) : M unit :=
  match k with
  | KOther => raise TypeError
  | _ =>
      update_columns (fun c =>
        res_bind (del_in k c (Columns.alignment c))
                 (fun l => Ok (Columns.with_alignment l c))) ;;
      update_columns (fun c =>
        res_bind (del_in k c (Columns.width c))
                 (fun l => Ok (Columns.with_width l c))) ;;
      update_columns (fun c =>
        res_bind (del_in k c (Columns.padding_left c))
                 (fun l => Ok (Columns.with_padding_left l c))) ;;
      update_columns (fun c =>
        res_bind (del_in k c (Columns.padding_right c))
                 (fun l => Ok (Columns.with_padding_right l c))) ;;
      t <- gets id ;;
      for_rows (fun c r => res_bind (del_in k c r) (fun r' => Ok (tt, r')))
               (range (rows_len t)) ;;
      update_columns (fun c =>
        res_bind (del_in k c (Columns.header c))
                 (fun l => Ok (Columns.with_header l c))) ;;
      columns_sync_ncol
  end.

(** [BTColumns.pop] *)
Definition columns_pop (index : key) : M (list value) :=
  match index with
  | KInt _ | KStr _ =>
      t <- gets id ;;
      if _ncol t =? 0 then raise IndexError
      else
        res <- for_rows (fun c r => pop_in index c r) (range (rows_len t)) ;;
        update_columns (fun c =>
          res_bind (pop_in index c (Columns.alignment c))
                   (fun p => Ok (Columns.with_alignment (snd p) c))) ;;
        update_columns (fun c =>
          res_bind (pop_in index c (Columns.width c))
                   (fun p => Ok (Columns.with_width (snd p) c))) ;;
        update_columns (fun c =>
          res_bind (pop_in index c (Columns.padding_left c))
                   (fun p => Ok (Columns.with_padding_left (snd p) c))) ;;
        update_columns (fun c =>
          res_bind (pop_in index c (Columns.padding_right c))
                   (fun p => Ok (Columns.with_padding_right (snd p) c))) ;;
        update_columns (fun c =>
          res_bind (pop_in index c (Columns.header c))
                   (fun p => Ok (Columns.with_header (snd p) c))) ;;
        columns_sync_ncol ;;
        ret res
  | _ => raise TypeError
  end.

(** The loop [for row, new_item in zip(self._table.rows, column)] of
    [BTColumns.insert]: the rows with the new cells inserted, and
    [column_length]. *)
Fixpoint insert_items (index : Z) (rows : list row) (column : list value)
  : list row * Z :=
  match rows, column with
  | r :: rs, x :: xs =>
      let '(rs', n) := insert_items index rs xs in
      (base_insert r index x :: rs', n + 1)
  | _, _ => (rows, 0)
  end.

(** [[BTRowData(self._table, [i]) for i in column]] *)
Fixpoint rows_of_column (t : BeautifulTable) (column : list value)
  : res (list row) :=
  match column with
  | [] => Ok []
  | i :: r =>
      res_bind (BTRowData t [i]) (fun x =>
      res_bind (rows_of_column t r) (fun xs => Ok (x :: xs)))
  end.

(** [BTColumns.insert].  [header] is [None] or a string. *)
Definition columns_insert (index : Z) (column : list value)
           (header : header_t) : M unit :=
  t <- gets id ;;
  if _ncol t =? 0 then
    modify (fun t => with_columns
              (Columns.with_header_alignment None
                 (Columns.with_header [header] (columns t))) t) ;;
    t <- gets id ;;
    d <- lift (rows_of_column t column) ;;
    modify (with_data d)
  else
    match header with
    | None => raise TypeError
    | Some _ =>
        let '(d, column_length) := insert_items index (_data t) column in
        modify (with_data d) ;;
        if column_length =? rows_len t then
          modify (fun t => with_ncol (_ncol t + 1) t) ;;
          modify (fun t =>
            let c := columns t in
            with_columns
              (Columns.with_padding_right
                 (base_insert (Columns.padding_right c) index
                              (Columns.default_padding c))
              (Columns.with_padding_left
                 (base_insert (Columns.padding_left c) index
                              (Columns.default_padding c))
              (Columns.with_alignment
                 (base_insert (Columns.alignment c) index
                              (Columns.default_alignment c))
              (Columns.with_width
                 (base_insert (Columns.width c) index 0)
              (Columns.with_header
                 (base_insert (Columns.header c) index header) c))))) t)
        else
          (* Roll back changes so that table remains in consistent state *)
          for_rows (fun c r => pop_in (KInt index) c r)
                   (range3 column_length (-1) (-1)) ;;
          raise ValueError
    end.

(** [BTColumns.append] *)
Definition columns_append (column : list value) (header : header_t)
  : M unit :=
  t <- gets id ;;
  columns_insert (_ncol t) column header.

(* ---------------------------------------------------------------- *)
(** ** BeautifulTable: the widths *)

(** [utils.pre_process] *)
Definition pre_process (item : value) (detect_numerics : bool)
           (precision : Z) (sign_value : SignMode) : pystr :=
  match item with
  | VNone => []
  | _ => format_value detect_numerics precision sign_value item
  end.

(** [pre_process(item, self.detect_numerics, self.numeric_precision,
    self.sign_mode.value)] *)
Definition pre_process_in (t : BeautifulTable) (item : value) : pystr :=
  pre_process item (detect_numerics t) (numeric_precision t) (sign_mode t).

Definition header_value (h : header_t) : value :=
  match h with None => VNone | Some s => VStr s end.

(** [BeautifulTable.width] *)
Definition width (t : BeautifulTable) : Z :=
  if columns_len t =? 0 then 0
  else zsum (Columns.width (columns t))
       + (columns_len t - 1) * termwidth (column_separator_char (style t))
       + termwidth (left_border_char (style t))
       + termwidth (right_border_char (style t)).

(** The getter of [BeautifulTable.maxwidth], which also raises
    [_maxwidth] to the least width the columns need. *)
Definition maxwidth : M Z :=
  t <- gets id ;;
  let offset :=
    (columns_len t - 1) * termwidth (column_separator_char (style t))
    + termwidth (left_border_char (style t))
    + termwidth (right_border_char (style t)) in
  modify (with_maxwidth (Z.max (_maxwidth t) (offset + columns_len t))) ;;
  gets _maxwidth.

Definition set_widths (ws : list Z) (t : BeautifulTable) : BeautifulTable :=
  with_columns (Columns.with_width ws (columns t)) t.

(** [self.columns.width[i]] and [self.columns.width[i] = v] *)
Definition get_width (i : Z) : M Z :=
  t <- gets id ;; lift (get (Columns.width (columns t)) i).
Definition set_width (i v : Z) : M unit :=
  t <- gets id ;;
  ws <- lift (meta_setitem (Columns.width (columns t)) i v) ;;
  modify (set_widths ws).

(** A loop that carries local variables [S] through its iterations. *)
Fixpoint for_fold {A S} (body : S -> A -> M S) (xs : list A) (s : S) : M S :=
  match xs with
  | [] => ret s
  | x :: r => s' <- body s x ;; for_fold body r s'
  end.

(** The inner loops of [_calculate_width] over the lines of one item:
    [max_length = max(max_length, termwidth(output_str))]. *)
Definition max_line_width (t : BeautifulTable) (max_length : Z)
           (item : value) : Z :=
  fold_left
    (fun m line => Z.max m (termwidth (pre_process_in t (VStr line))))
    (PyStr.split PyStr.newline (pre_process_in t item))
    max_length.

Local Open Scope res_scope.

(** [[(lpw[i] + rpw[i]) for i in range(len(self.columns))]] *)
Fixpoint pad_widths_of (lpw rpw : list Z) (js : list Z) : res (list Z) :=
  match js with
  | [] => Ok []
  | i :: r =>
      a <- get lpw i ;;
      b <- get rpw i ;;
      rest <- pad_widths_of lpw rpw r ;;
      Ok (a + b :: rest)
  end.

(** [for index, header in enumerate(self.columns.header)] *)
Definition header_maxwidths (t : BeautifulTable) (maxwidths : list Z)
  : res (list Z) :=
  fold_left
    (fun acc ih =>
       mw <- acc ;;
       old <- get mw (fst ih) ;;
       set mw (fst ih) (old + max_line_width t 0 (header_value (snd ih))))
    (enumerate (Columns.header (columns t))) (Ok maxwidths).

(** [for index, column in enumerate(zip( *self._data ))] *)
Definition data_maxwidths (t : BeautifulTable) (maxwidths : list Z)
  : res (list Z) :=
  fold_left
    (fun acc ic =>
       mw <- acc ;;
       max_length <- get mw (fst ic) ;;
       set mw (fst ic) (fold_left (max_line_width t) (snd ic) max_length))
    (enumerate (zip_star (_data t))) (Ok maxwidths).

(** "Set flag for columns who are within their fair share": the loop that
    computes [temp_sum] and [flag]. *)
Definition flag_step (desired_sum ncol : Z) (acc : res (Z * list Z))
           (iw : Z * Z) : res (Z * list Z) :=
  st <- acc ;;
  fair <- int_truediv desired_sum ncol ;;
  if snd iw <=? fair then
    flag <- set (snd st) (fst iw) 1 ;;
    Ok (fst st + snd iw, flag)
  else
    (* Allocate atleast 1 character width to the column *)
    Ok (fst st + 1, snd st).

Definition fair_share_flags (desired_sum ncol : Z) (maxwidths : list Z)
  : res (Z * list Z) :=
  fold_left (flag_step desired_sum ncol) (enumerate maxwidths)
            (Ok (0, repeat_list [0] (len maxwidths))).

Local Close Scope res_scope.

(** "Columns which exceed their fair share should be shrinked based on how
    much space is left for the table": one iteration; the local variable
    carried along is [shrinked_columns]. *)
Definition shrink_step (flag : list Z) (avail_space actual_space : Z)
           (shrinked_columns : PyDict.t) (iw : Z * Z) : M PyDict.t :=
  let '(i, w) := iw in
  set_width i w ;;
  fl <- lift (get flag i) ;;
  if fl =? 0 then
    q <- lift (int_truediv ((w - 1) * avail_space) actual_space) ;;
    let new_width := 1 + q in
    if new_width <? w then
      set_width i new_width ;;
      ret (PyDict.setitem new_width i shrinked_columns)
    else ret shrinked_columns
  else ret shrinked_columns.

(** "Divide any remaining space among shrinked columns": one iteration.
    The share goes to [self.columns.width[i]], [i] being the position in
    the sorted keys; the rest of the space goes to
    [self.columns.width[index]] in the last iteration. *)
Definition redistribute_step (shrinked_columns : PyDict.t)
           (offset extra actual_space : Z) (_ : unit) (iw : Z * Z)
  : M unit :=
  let '(i, w) := iw in
  index <- lift (PyDict.getitem shrinked_columns w) ;;
  extra_width <- lift (int_truediv (w * extra) actual_space) ;;
  old <- get_width i ;;
  set_width i (old + extra_width) ;;
  if i =? len shrinked_columns - 1 then
    t <- gets id ;;
    let extra' := _maxwidth t - offset - zsum (Columns.width (columns t)) in
    old' <- get_width index ;;
    set_width index (old' + extra')
  else ret tt.

(** The loop over [enumerate(maxwidths)] that shrinks the columns. *)
Definition shrink_columns (flag : list Z) (avail_space actual_space : Z)
           (maxwidths : list Z) : M PyDict.t :=
  for_fold (shrink_step flag avail_space actual_space)
           (enumerate maxwidths) [].

(** The block under [if shrinked_columns:]. *)
Definition redistribute (offset : Z) (shrinked_columns : PyDict.t)
  : M unit :=
  t <- gets id ;;
  match shrinked_columns with
  | [] => ret tt
  | _ =>
      let extra :=
        _maxwidth t - offset - zsum (Columns.width (columns t)) in
      let actual_space := zsum (PyDict.keys shrinked_columns) in
      if 0 <? extra then
        for_fold (redistribute_step shrinked_columns offset extra
                                    actual_space)
                 (enumerate (PyDict.sorted shrinked_columns)) tt
      else ret tt
  end.

(** [for i in range(len(self.columns)):
      self.columns.width[i] += pad_widths[i]] *)
Definition add_padding (pad_widths : list Z) (ncol : Z) : M unit :=
  for_each (fun i =>
              old <- get_width i ;;
              p <- lift (get pad_widths i) ;;
              set_width i (old + p))
           (range ncol).

(** [BeautifulTable._calculate_width] *)
Definition _calculate_width : M unit :=
  t <- gets id ;;
  let table_width := width t in
  let ncol := columns_len t in
  pad_widths <- lift (pad_widths_of (Columns.padding_left (columns t))
                                    (Columns.padding_right (columns t))
                                    (range ncol)) ;;
  let maxwidths := repeat_list [0] ncol in
  let offset :=
    table_width - zsum (Columns.width (columns t)) + zsum pad_widths in
  modify (with_maxwidth (Z.max (_maxwidth t) (offset + ncol))) ;;
  maxwidths <- lift (header_maxwidths t maxwidths) ;;
  maxwidths <- lift (data_maxwidths t maxwidths) ;;
  let sum_ := zsum maxwidths in
  t <- gets id ;;
  let desired_sum := _maxwidth t - offset in
  tf <- lift (fair_share_flags desired_sum ncol maxwidths) ;;
  let temp_sum := fst tf in
  let flag := snd tf in
  let avail_space := desired_sum - temp_sum in
  let actual_space := sum_ - temp_sum in
  shrinked_columns <-
    shrink_columns flag avail_space actual_space maxwidths ;;
  redistribute offset shrinked_columns ;;
  add_padding pad_widths ncol.

(* ---------------------------------------------------------------- *)
(** ** BTRowData: clamping and the text of a row *)

Local Open Scope res_scope.

(** [self._table.columns.width[index] - lpw[index] - rpw[index]] *)
Definition printable_width (t : BeautifulTable) (index : Z) : res Z :=
  w <- get (Columns.width (columns t)) index ;;
  l <- get (Columns.padding_left (columns t)) index ;;
  r <- get (Columns.padding_right (columns t)) index ;;
  Ok (w - l - r).

(** [BTRowData._clamp_string] *)
Definition _clamp_string (t : BeautifulTable) (row_item : pystr)
           (index : Z) (delimiter : pystr) : res pystr :=
  w <- printable_width t index ;;
  if termwidth row_item <=? w then Ok row_item
  else if 0 <=? w - len delimiter then
    first <- get (textwrap row_item (w - len delimiter)) 0 ;;
    Ok (first ++ delimiter)
  else Ok (slice_to delimiter w).

(** [left_pad + item + right_pad] for the column [index]. *)
Definition pad_item (t : BeautifulTable) (index : Z) (item : pystr)
  : res pystr :=
  l <- get (Columns.padding_left (columns t)) index ;;
  r <- get (Columns.padding_right (columns t)) index ;;
  let pc := Columns._pad_character (columns t) in
  Ok (repeat_list pc l ++ item ++ repeat_list pc r).

(** A [for ... in enumerate(xs)] loop that appends one result per item. *)
Fixpoint map_res {A B} (f : A -> res B) (xs : list A) : res (list B) :=
  match xs with
  | [] => Ok []
  | x :: r => y <- f x ;; ys <- map_res f r ;; Ok (y :: ys)
  end.

(** [zip_longest( *lists, fillvalue=fill )] *)
Definition zip_longest_star {A} (fill : A) (lists : list (list A))
  : list (list A) :=
  let n := fold_right Nat.max 0%nat (map (@List.length A) lists) in
  map (fun k => map (fun l => nth k l fill) lists) (seq 0 n).

(** [BTRowData._clamp_row] *)
Definition _clamp_row (t : BeautifulTable) (r : list pystr)
  : res (list (list pystr)) :=
  result <-
    match Columns.width_exceed_policy (columns t) with
    | WEP_WRAP =>
        string_partition <-
          map_res (fun ix =>
                     w <- printable_width t (fst ix) ;;
                     Ok (textwrap (snd ix) w))
                  (enumerate r) ;;
        map_res (fun row_items =>
                   map_res (fun ix => pad_item t (fst ix) (snd ix))
                           (enumerate row_items))
                (zip_longest_star [] string_partition)
    | wep =>
        let delimiter :=
          match wep with WEP_STRIP => [] | _ => str "..." end in
        row_item_list <-
          map_res (fun ix =>
                     c <- _clamp_string t (snd ix) (fst ix) delimiter ;;
                     pad_item t (fst ix) c)
                  (enumerate r) ;;
        Ok [row_item_list]
    end ;;
  Ok (if len result =? 0
      then [repeat_list [[]] (columns_len t)]
      else result).

(** The alignment of one cell inside its column. *)
Definition align_item (t : BeautifulTable) (align : list Alignment)
           (row_ : list pystr) (i : Z) : res pystr :=
  w <- get (Columns.width (columns t)) i ;;
  item <- get row_ i ;;
  let pad_len := w - termwidth item in
  a <- get align i ;;
  Ok (match a with
      | ALIGN_LEFT => item ++ repeat_list [PyStr.space] pad_len
      | ALIGN_RIGHT => repeat_list [PyStr.space] pad_len ++ item
      | ALIGN_CENTER =>
          repeat_list [PyStr.space] (pad_len / 2) ++ item
          ++ repeat_list [PyStr.space] (pad_len - pad_len / 2)
      end).

(** [BTRowData.__str__] for the cells [cells], aligned by [align]. *)
Definition row_str (t : BeautifulTable) (align : list Alignment)
           (cells : row) : res pystr :=
  let rows :=
    map (fun item => PyStr.split PyStr.newline (pre_process_in t item))
        cells in
  strings <-
    map_res (fun r =>
               let r' := map (fun x => pre_process_in t (VStr x)) r in
               clamped <- _clamp_row t r' ;;
               map_res (fun row_ =>
                          aligned <- map_res (align_item t align row_)
                                             (range (columns_len t)) ;;
                          Ok (left_border_char (style t)
                              ++ PyStr.join (column_separator_char (style t))
                                            aligned
                              ++ right_border_char (style t)))
                       clamped)
            (zip_longest_star [] rows) ;;
  Ok (PyStr.join [PyStr.newline] (List.concat strings)).

(** [to_unicode(row)] for a row of the table. *)
Definition data_row_str (t : BeautifulTable) (cells : row) : res pystr :=
  row_str t (Columns.alignment (columns t)) cells.

(** [to_unicode(self.columns.header)]: [BTColumnHeader._get_props] puts
    the header's own alignment first when it is set. *)
Definition header_str (t : BeautifulTable) : res pystr :=
  let align :=
    match Columns.header_alignment (columns t) with
    | Some a => a
    | None => Columns.alignment (columns t)
    end in
  row_str t align (map header_value (Columns.header (columns t))).

(* ---------------------------------------------------------------- *)
(** ** BeautifulTable: horizontal lines *)

(** [for i in range(length): line[pos i] = glyph[src i]] *)
Definition overwrite (pos src : Z -> Z) (glyph : pystr) (length : Z)
           (line : pystr) : res pystr :=
  fold_left (fun acc i =>
               l <- acc ;;
               c <- get glyph (src i) ;;
               set l (pos i) c)
            (range length) (Ok line).

(** [BeautifulTable._get_horizontal_line] *)
Definition _get_horizontal_line (t : BeautifulTable)
           (char intersect_left intersect_mid intersect_right : pystr)
  : res pystr :=
  let st := style t in
  let w := width t in
  let line :=
    match int_truediv w (termwidth char) with
    | Ok q => slice_to (repeat_list char (q + 1)) w
    | Err _ => repeat_list [PyStr.space] w
    end in
  if len line =? 0 then Ok []
  else if negb (PyStr.isspace char) then
    (* If left border is enabled and it is visible *)
    let visible_junc := negb (PyStr.isspace intersect_left) in
    line <-
      (if (0 <? termwidth (left_border_char st))
          && negb (PyStr.isspace (left_border_char st) && visible_junc)
       then overwrite (fun i => i) (fun i => i) intersect_left
              (Z.min (termwidth (left_border_char st))
                     (termwidth intersect_left)) line
       else Ok line) ;;
    let visible_junc := negb (PyStr.isspace intersect_right) in
    (* If right border is enabled and it is visible *)
    line <-
      (if (0 <? termwidth (right_border_char st))
          && negb (PyStr.isspace (right_border_char st) && visible_junc)
       then overwrite (fun i => - i - 1) (fun i => - i - 1) intersect_right
              (Z.min (termwidth (right_border_char st))
                     (termwidth intersect_right)) line
       else Ok line) ;;
    let visible_junc := negb (PyStr.isspace intersect_mid) in
    (* If column separator is enabled and it is visible *)
    if negb (termwidth (column_separator_char st) =? 0)
       && negb (PyStr.isspace (column_separator_char st) && visible_junc)
    then
      p <- fold_left
             (fun acc i =>
                st' <- acc ;;
                wi <- get (Columns.width (columns t)) i ;;
                let index := fst st' + wi in
                l <- overwrite (fun j => index + j) (fun j => j)
                       intersect_mid
                       (Z.min (termwidth (column_separator_char st))
                              (termwidth intersect_mid))
                       (snd st') ;;
                Ok (index + termwidth (column_separator_char st), l))
             (range (columns_len t - 1))
             (Ok (termwidth (left_border_char st), line)) ;;
      Ok (snd p)
    else Ok line
  else Ok line.

Definition _get_top_border (t : BeautifulTable) : res pystr :=
  _get_horizontal_line t (top_border_char (style t))
    (intersect_top_left (style t)) (intersect_top_mid (style t))
    (intersect_top_right (style t)).

Definition _get_header_separator (t : BeautifulTable) : res pystr :=
  _get_horizontal_line t (header_separator_char (style t))
    (intersect_header_left (style t)) (intersect_header_mid (style t))
    (intersect_header_right (style t)).

Definition _get_row_separator (t : BeautifulTable) : res pystr :=
  _get_horizontal_line t (row_separator_char (style t))
    (intersect_row_left (style t)) (intersect_row_mid (style t))
    (intersect_row_right (style t)).

Definition _get_bottom_border (t : BeautifulTable) : res pystr :=
  _get_horizontal_line t (bottom_border_char (style t))
    (intersect_bottom_left (style t)) (intersect_bottom_mid (style t))
    (intersect_bottom_right (style t)).

Local Close Scope res_scope.

(* ---------------------------------------------------------------- *)
(** ** BeautifulTable: the text of the table *)

(** The truth value of a string: it is not empty. *)
Definition truthy (s : pystr) : bool := negb (len s =? 0).

(** [if cond: yield line] *)
Definition yield_if (cond : bool) (line : BeautifulTable -> res pystr)
  : M (list pystr) :=
  if cond then t <- gets id ;; l <- lift (line t) ;; ret [l] else ret [].

(** [if first_row_encountered and self.row_separator_char:
      yield self._get_row_separator()] *)
Definition yield_row_separator (first_row_encountered : bool)
  : M (list pystr) :=
  t <- gets id ;;
  yield_if (first_row_encountered && truthy (row_separator_char (style t)))
           _get_row_separator.

(** [BeautifulTable._get_string], run to the end: the lines it yields, in
    order.  The local variables of the two row loops are
    [first_row_encountered] and the lines yielded so far. *)
Definition _get_string (rows : list row) (append recalculate_width : bool)
  : M (list pystr) :=
  t <- gets id ;;
  (if serialno t && (0 <? columns_len t)
   then columns_insert 0 (map VInt (range3 1 (rows_len t + 1) 1))
                       (Some (serialno_header t))
   else ret tt) ;;
  t <- gets id ;;
  (if recalculate_width || (zsum (Columns.width (columns t)) =? 0)
   then _calculate_width else ret tt) ;;
  t <- gets id ;;
  (if serialno t && (0 <? columns_len t)
   then w0 <- get_width 0 ;;
        if w0 =? 0
        then set_width 0 (Z.max 4 (len (serialno_header t))
                          + 2 * Columns.default_padding (columns t))
        else ret tt
   else ret tt) ;;
  t <- gets id ;;
  top <- yield_if (truthy (top_border_char (style t))) _get_top_border ;;
  (* Print headers if not empty or only spaces *)
  head <-
    (if truthy
          (PyStr.strip
             (List.concat
                (map (fun x => match x with Some s => s | None => [] end)
                     (Columns.header (columns t)))))
     then h <- lift (header_str t) ;;
          sep <- yield_if (truthy (header_separator_char (style t)))
                          _get_header_separator ;;
          ret (h :: sep)
     else ret []) ;;
  (* Printing rows *)
  st <- for_fold
          (fun (st : bool * list pystr) (r : row) =>
             sep <- yield_row_separator (fst st) ;;
             t <- gets id ;;
             content <- lift (data_row_str t r) ;;
             ret (true, snd st ++ sep ++ [content]))
          (_data t) (false, []) ;;
  t <- gets id ;;
  let prev_length := rows_len t in
  st <- for_fold
          (fun (st : bool * list pystr) (ir : Z * row) =>
             sep <- yield_row_separator (fst st) ;;
             t <- gets id ;;
             let r := if serialno t
                      then insert (snd ir) 0 (VInt (prev_length + fst ir))
                      else snd ir in
             rows_append r None ;;
             t <- gets id ;;
             last <- lift (base_getitem (rows_header t) (_data t)
                                        (KInt (-1))) ;;
             content <- lift (data_row_str t last) ;;
             (if append then ret tt
              else rows_pop (KInt (-1)) ;; ret tt) ;;
             ret (true, snd st ++ sep ++ [content]))
          (enumerate_from 1 rows) st ;;
  (* Rendering the bottom border *)
  t <- gets id ;;
  bottom <- yield_if (truthy (bottom_border_char (style t)))
                     _get_bottom_border ;;
  t <- gets id ;;
  (if serialno t && (0 <? columns_len t)
   then columns_pop (KInt 0) ;; ret tt
   else ret tt) ;;
  ret (top ++ head ++ snd st ++ bottom).

(** [BeautifulTable.get_string] *)
Definition get_string (recalculate_width : bool) : M pystr :=
  t <- gets id ;;
  if rows_len t =? 0 then ret []
  else
    string_ <- _get_string [] false recalculate_width ;;
    ret (PyStr.join [PyStr.newline] string_).

(* ================================================================ *)
(** ** The invariant of the data model *)

(** Every metadata list has one entry per column, every row one cell per
    column, and every row has a header entry. *)
Definition well_formed (t : BeautifulTable) : Prop :=
  0 <= _ncol t
  /\ len (Columns.header (columns t)) = _ncol t
  /\ len (Columns.alignment (columns t)) = _ncol t
  /\ len (Columns.width (columns t)) = _ncol t
  /\ len (Columns.padding_left (columns t)) = _ncol t
  /\ len (Columns.padding_right (columns t)) = _ncol t
  /\ Forall (fun r => len r = _ncol t) (_data t)
  /\ len (rows_header t) = len (_data t).

(** Paddings are non-negative integers. *)
Definition paddings_ok (t : BeautifulTable) : Prop :=
  Forall (Z.le 0) (Columns.padding_left (columns t))
  /\ Forall (Z.le 0) (Columns.padding_right (columns t)).

(** The documented type of the [index] of [pop]: an [int] or a [str]. *)
Definition int_or_str (k : key) : bool :=
  match k with KInt _ | KStr _ => true | _ => false end.

(* ---------------------------------------------------------------- *)
(** *** Definitions the properties below are stated with *)

(** The rows from position [k] on are [tl]. *)
Definition rows_from (k : nat) (tl : list row) (t : BeautifulTable) : Prop :=
exists pre, _data t = pre ++ tl /\ List.length pre = k.

(** What a column counts for in [temp_sum], and its flag. *)
Definition fair_base (fair W : Z) : Z := if W <=? fair then W else 1.
Definition fair_flag (fair W : Z) : Z := if W <=? fair then 1 else 0.

(** The width the shrink loop leaves in a column of natural width [W] and
    flag [fl]. *)
Definition shrunk_width (avail_space actual_space W fl : Z) : Z :=
if fl =? 0 then
  let new_width := 1 + Z.quot ((W - 1) * avail_space) actual_space in
  if new_width <? W then new_width else W
else W.

(** The dictionary [shrinked_columns] the shrink loop builds from the
    column [i] on. *)
Fixpoint shrunk_dict (avail_space actual_space i : Z) (mw fl : list Z)
       (sh : PyDict.t) : PyDict.t :=
match mw, fl with
| W :: mw', f :: fl' =>
    let new_width := 1 + Z.quot ((W - 1) * avail_space) actual_space in
    shrunk_dict avail_space actual_space (i + 1) mw' fl'
      (if (f =? 0) && (new_width <? W)
       then PyDict.setitem new_width i sh else sh)
| _, _ => sh
end.

(** Every key is a width of at least 1 and every value a column index. *)
Definition dict_ok (n : Z) (sh : PyDict.t) : Prop :=
Forall (fun kv => 1 <= fst kv /\ 0 <= snd kv < n) sh.

(** What a column gives up when it is counted for 1 instead of its natural
    width. *)
Definition excess (fair W : Z) : Z := W - fair_base fair W.

(** The separators and borders around the columns. *)
Definition borders (t : BeautifulTable) : Z :=
(columns_len t - 1) * termwidth (column_separator_char (style t))
+ termwidth (left_border_char (style t))
+ termwidth (right_border_char (style t)).

(** The least width that gives every column one printable character and
    its own padding. *)
Definition min_feasible_width (t : BeautifulTable) : Z :=
columns_len t
+ zsum (Columns.padding_left (columns t))
+ zsum (Columns.padding_right (columns t))
+ borders t.

(** [_calculate_width] from [sum_ = sum(maxwidths)] on: the part that works
    on the natural widths [maxwidths], given [pad_widths] and [offset]. *)
Definition allocate (ncol offset : Z) (pad_widths maxwidths : list Z)
  : M unit :=
let sum_ := zsum maxwidths in
t <- gets id ;;
let desired_sum := _maxwidth t - offset in
tf <- lift (fair_share_flags desired_sum ncol maxwidths) ;;
let temp_sum := fst tf in
let flag := snd tf in
let avail_space := desired_sum - temp_sum in
let actual_space := sum_ - temp_sum in
shrinked_columns <-
  shrink_columns flag avail_space actual_space maxwidths ;;
redistribute offset shrinked_columns ;;
add_padding pad_widths ncol.

(** [t'] is [t] with other column widths, as many as [t] has, and another
    stored maximal width: the cells, the headers, the alignments, the
    paddings, the style and the options are those of [t]. *)
Definition widths_only (t t' : BeautifulTable) : Prop :=
exists ws m,
  len ws = len (Columns.width (columns t))
  /\ t' = with_maxwidth m (set_widths ws t).

(** A method that, run on [t0] or on a table that differs from it in the
    widths only, leaves such a table, however it ends. *)
Definition keeps_content (t0 : BeautifulTable) {A} (m : M A) : Prop :=
forall t, widths_only t0 t -> widths_only t0 (final_table (m t)).

(** [l] without the item at position [i], for [0 <= i]. *)
Definition without {A} (i : Z) (l : list A) : list A :=
firstn (Z.to_nat i) l ++ skipn (S (Z.to_nat i)) l.

(** The columns object without the metadata of the column [i]. *)
Definition columns_without (i : Z) (c : Columns.t) : Columns.t :=
Columns.mk (without i (Columns.header c)) (Columns.header_alignment c)
           (without i (Columns.alignment c)) (without i (Columns.width c))
           (without i (Columns.padding_left c))
           (without i (Columns.padding_right c))
           (Columns.width_exceed_policy c) (Columns._pad_character c)
           (Columns.default_alignment c) (Columns.default_padding c).

(** The columns object with the metadata of a new column at [index]: the
    header given, the width 0, the default alignment and paddings. *)
Definition columns_with_new (index : Z) (header : header_t) (c : Columns.t)
  : Columns.t :=
Columns.mk (insert (Columns.header c) index header)
           (Columns.header_alignment c)
           (insert (Columns.alignment c) index (Columns.default_alignment c))
           (insert (Columns.width c) index 0)
           (insert (Columns.padding_left c) index (Columns.default_padding c))
           (insert (Columns.padding_right c) index
                   (Columns.default_padding c))
           (Columns.width_exceed_policy c) (Columns._pad_character c)
           (Columns.default_alignment c) (Columns.default_padding c).

(** [natural_widths]: the list [maxwidths] that [_calculate_width] computes
    from the headers and the cells before it allocates anything. *)
Definition natural_widths (t : BeautifulTable) : res (list Z) :=
res_bind (header_maxwidths t (repeat_list [0] (columns_len t)))
         (data_maxwidths t).

(** Position by position, the sum of two lists. *)
Definition sum_lists (a b : list Z) : list Z :=
map (fun p => fst p + snd p) (combine a b).

(** Every line of the text of [item] is at most [w] columns wide. *)
Definition lines_fit (t : BeautifulTable) (w : Z) (item : value) : Prop :=
forall line,
  In line (PyStr.split PyStr.newline (pre_process_in t item)) ->
  termwidth (pre_process_in t (VStr line)) <= w.

(** A string that takes at most one column per character: it has no wide
    glyph. *)
Definition single_width (s : pystr) : Prop := 0 <= termwidth s <= len s.

(* ---------------------------------------------------------------- *)
(** *** Item access by index or header *)

(** An [int] or [str] subscript: the keys that address one row or one
    column.  (A slice builds a new table; that branch is not modelled.) *)
Inductive item_key : Type :=
| ByIndex (i : Z)
| ByHeader (s : pystr).

Definition key_of (k : item_key) : key :=
match k with ByIndex i => KInt i | ByHeader s => KStr s end.

(** Modelled from the spec: [BTBaseList.__setitem__] of the missing
    [base.py] for a key that addresses one item ("operations supported, by
    index, header, or slice: get, set, ..."): the key is normalised through
    the canonical-key function, then the item is assigned by Python's list
    rules, an integer beyond the bounds being the spec's IndexOutOfRange. *)
Definition base_setitem {A} (h : list header_t) (l : list A) (k : item_key)
           (x : A) : res (list A) :=
res_bind (_canonical_key h (key_of k))
  (fun ck => match ck with KInt i => set l i x | _ => Err TypeError end).

(** [BTRows.__getitem__] for an [int] or [str] key. *)
Definition rows_getitem (k : item_key) : M row :=
t <- gets id ;;
lift (base_getitem (rows_header t) (_data t) (key_of k)).

(** [BTRows.__setitem__] for an [int] or [str] key; [BTRows.update] is the
    same call. *)
Definition rows_setitem (k : item_key) (value : row) : M unit :=
t <- gets id ;;
r <- lift (BTRowData t value) ;;
d <- lift (base_setitem (rows_header t) (_data t) k r) ;;
modify (with_data d).

(** [BTColumns.__getitem__] for an [int] or [str] key, with the generator
    it returns consumed to its end. *)
Definition columns_getitem (k : item_key) : M (list value) :=
t <- gets id ;;
i <- match k with
     | ByIndex i => ret i
     | ByHeader s => lift (header_index (Columns.header (columns t)) s)
     end ;;
lift (map_res (fun r => base_getitem (Columns.header (columns t)) r (KInt i))
              (_data t)).

(** [BTColumns.__setitem__] for an [int] or [str] key; [BTColumns.update]
    is the same call.  [zip] stops at the shorter of the rows and the
    items. *)
Definition columns_setitem (k : item_key) (items : list value) : M unit :=
t <- gets id ;;
for_each (fun jx : Z * value =>
            update_row (fst jx)
              (fun c r =>
                 res_bind (base_setitem (Columns.header c) r k (snd jx))
                          (fun r' => Ok (tt, r'))))
         (combine (range (rows_len t)) items).

(** The rows with the cell [i] of the first rows replaced by the [items],
    as far as both lists go. *)
Fixpoint column_replaced (i : Z) (rows : list row) (items : list value)
  : list row :=
match rows, items with
| r :: rs, x :: xs =>
    (firstn (Z.to_nat i) r ++ x :: skipn (S (Z.to_nat i)) r)
    :: column_replaced i rs xs
| _, _ => rows
end.

(** A method that, whenever it returns from [t0] or from a table that
    differs from it in the widths only, has left such a table. *)
Definition keeps_on_return (t0 : BeautifulTable) {A} (m : M A) : Prop :=
forall t a t', widths_only t0 t -> m t = Return a t' -> widths_only t0 t'.

(** [t0] with the rows [new] appended at the end, each under the header
    [None]. *)
Definition with_rows_appended (new : list row) (t0 : BeautifulTable)
  : BeautifulTable :=
with_rows_header (rows_header t0 ++ repeat None (List.length new))
                 (with_data (_data t0 ++ new) t0).

(** A method that, whenever it returns from a table that differs from [t0]
    in the widths only, has left a table that satisfies [Q]. *)
Definition returns_into (t0 : BeautifulTable) (Q : BeautifulTable -> Prop)
    {A} (m : M A) : Prop :=
forall t a t', widths_only t0 t -> m t = Return a t' -> Q t'.

(** [l] without the items at the positions [idx]. *)
Definition without_positions {A} (idx : list Z) (l : list A) : list A :=
map snd (filter (fun p => negb (existsb (Z.eqb (fst p)) idx)) (enumerate l)).

(** The bound a slice leaves open stands for the end it is next to. *)
Definition bound_or (d : Z) (b : option Z) : Z :=
match b with Some v => v | None => d end.

(* ================================================================ *)
(** ** Properties of the row and column collections *)

(** C7: on a table without rows, [rows.pop] raises [IndexError], and on a
    table without columns, [columns.pop] raises [IndexError]; in both
    cases the table is left exactly as it was.  The index is of the
    documented type, an [int] or a [str]. *)
Theorem pop_from_empty_table (t : BeautifulTable) (index : key) :
  int_or_str index = true ->
  (rows_len t = 0 -> rows_pop index t = Raise IndexError t)
  /\ (columns_len t = 0 -> columns_pop index t = Raise IndexError t).
Proof.
  intros Hk. split; intros H0.
  - unfold rows_pop, rows_len in *.
    destruct index; try discriminate;
      unfold bind, gets, id; rewrite H0; reflexivity.
  - unfold columns_pop, columns_len in *.
    destruct index; try discriminate;
      unfold bind, gets, id; rewrite H0; reflexivity.
Qed.

(** Case analysis on the integer comparisons of the goal. *)
Ltac zcases :=
  repeat match goal with
    | |- context [Z.ltb ?a ?b] => destruct (Z.ltb_spec a b)
    | |- context [Z.leb ?a ?b] => destruct (Z.leb_spec a b)
    | |- context [Z.eqb ?a ?b] => destruct (Z.eqb_spec a b)
    end;
  simpl; try (exfalso; lia).

Lemma len_app {A} (a b : list A) : len (a ++ b) = len a + len b.
Proof. unfold len. rewrite length_app. lia. Qed.

Lemma len_cons {A} (x : A) (l : list A) : len (x :: l) = len l + 1.
Proof. unfold len. simpl. lia. Qed.

Lemma len_nonneg {A} (l : list A) : 0 <= len l.
Proof. unfold len. lia. Qed.

Lemma len_nil {A} : len (@nil A) = 0.
Proof. reflexivity. Qed.

Lemma len_zero_nil {A} (l : list A) : len l = 0 -> l = [].
Proof. destruct l; [reflexivity|]. rewrite len_cons. pose proof (len_nonneg l). lia. Qed.

Lemma repeat_list_single_length {A} (x : A) (n : Z) :
  List.length (repeat_list [x] n) = Z.to_nat n.
Proof.
  unfold repeat_list. induction (Z.to_nat n); simpl; congruence.
Qed.

Lemma len_repeat_list_single {A} (x : A) (n : Z) :
  0 <= n -> len (repeat_list [x] n) = n.
Proof. intros. unfold len. rewrite repeat_list_single_length. lia. Qed.

(** [l.insert(len(l), x)] appends. *)
Lemma insert_at_len {A} (l : list A) (x : A) :
  insert l (len l) x = l ++ [x].
Proof.
  unfold insert. pose proof (len_nonneg l). zcases.
  rewrite Z.min_id. unfold len. rewrite Nat2Z.id.
  rewrite firstn_all, skipn_all. reflexivity.
Qed.

Lemma insert_at_end {A} (l : list A) (n : Z) (x : A) :
  len l = n -> insert l n x = l ++ [x].
Proof. intros <-. apply insert_at_len. Qed.

(** The index [len pre] addresses the element that follows [pre]. *)
Lemma norm_index_mid {A} (pre post : list A) (x : A) :
  norm_index (len (pre ++ x :: post)) (len pre) = Some (List.length pre).
Proof.
  unfold norm_index, len. rewrite length_app. simpl List.length.
  zcases. rewrite Nat2Z.id. reflexivity.
Qed.

Lemma get_mid {A} (pre post : list A) (x : A) :
  get (pre ++ x :: post) (len pre) = Ok x.
Proof.
  unfold get. rewrite norm_index_mid.
  rewrite nth_error_app2 by lia. rewrite Nat.sub_diag. reflexivity.
Qed.

Lemma set_mid {A} (pre post : list A) (x y : A) :
  set (pre ++ x :: post) (len pre) y = Ok (pre ++ y :: post).
Proof.
  unfold set. rewrite norm_index_mid.
  rewrite firstn_app, Nat.sub_diag, firstn_all. simpl firstn.
  rewrite app_nil_r.
  replace (S (List.length pre)) with (List.length pre + 1)%nat by lia.
  rewrite skipn_app, skipn_all2 by lia.
  replace (List.length pre + 1 - List.length pre)%nat with 1%nat by lia.
  reflexivity.
Qed.

Lemma get_last_app {A} (l : list A) (x : A) :
  get (l ++ [x]) (len l) = Ok x.
Proof. apply get_mid. Qed.

(** C9: whatever [header] is passed, [rows.append(row, header)] stores
    [None] as the header of the appended row: the call is the call with
    [header=None], the header list grows by one [None] at its end, and
    when the call returns the new row is the last one and its header is
    [None]. *)
Theorem rows_append_ignores_header (t : BeautifulTable) (r : row)
        (header : header_t) :
  len (rows_header t) = rows_len t ->
  rows_append r header t = rows_append r None t
  /\ rows_header (final_table (rows_append r header t))
     = rows_header t ++ [None]
  /\ (forall t', rows_append r header t = Return tt t' ->
        rows_len t' = rows_len t + 1
        /\ get (rows_header t') (rows_len t' - 1) = Ok None).
Proof.
  intros Hlen. split; [reflexivity|].
  unfold rows_append, rows_insert, rows_len in *.
  unfold bind, gets, modify, ret, id, lift, columns_reset_state.
  assert (Hrep : forall n, len (repeat_list [repeat_list [VNone] n]
                                            (len (_data t)))
                           = len (_data t))
    by (intros; apply len_repeat_list_single, len_nonneg).
  destruct (_ncol t =? 0) eqn:En; simpl;
    match goal with
    | |- context [BTRowData ?x r] => destruct (BTRowData x r) eqn:Eb
    end; simpl; unfold base_insert;
    rewrite (insert_at_end (rows_header t)) by exact Hlen;
    (split; [reflexivity|]); intros t' Ht'; try discriminate;
    injection Ht' as <-; simpl.
  - rewrite insert_at_end by apply Hrep.
    rewrite !len_app, len_cons, len_nil, Hrep. split; [lia|].
    replace (len (_data t) + (0 + 1) - 1) with (len (rows_header t)) by lia.
    apply get_last_app.
  - rewrite insert_at_len, !len_app, len_cons, len_nil. split; [lia|].
    replace (len (_data t) + (0 + 1) - 1) with (len (rows_header t)) by lia.
    apply get_last_app.
Qed.

(** C10: on a table without rows [get_string] returns the empty string,
    whatever the borders, headers, style and column metadata are, and
    leaves the table as it was: no width is calculated. *)
Theorem get_string_without_rows (t : BeautifulTable)
        (recalculate_width : bool) :
  rows_len t = 0 ->
  get_string recalculate_width t = Return [] t.
Proof.
  intros H0. unfold get_string, bind, gets, id. rewrite H0. reflexivity.
Qed.

(* ---------------------------------------------------------------- *)
(** *** Lists addressed by position *)

Lemma zsum_app (a b : list Z) : zsum (a ++ b) = zsum a + zsum b.
Proof. induction a as [|x a IH]; simpl; lia. Qed.

Lemma zsum_cons (x : Z) (l : list Z) : zsum (x :: l) = x + zsum l.
Proof. reflexivity. Qed.

Lemma repeat_list_single {A} (x : A) (n : Z) :
repeat_list [x] n = repeat x (Z.to_nat n).
Proof.
unfold repeat_list. induction (Z.to_nat n) as [|k IH]; simpl; congruence.
Qed.

(** A position inside a list splits it around the element it addresses. *)
Lemma split_at {A} (l : list A) (i : Z) :
0 <= i < len l ->
exists pre x post, l = pre ++ x :: post /\ len pre = i.
Proof.
intros Hi. unfold len in *.
destruct (nth_error l (Z.to_nat i)) as [x|] eqn:E.
- apply nth_error_split in E. destruct E as (pre & post & -> & Hlen).
  exists pre, x, post. split; [reflexivity|]. lia.
- apply nth_error_None in E. lia.
Qed.

Lemma meta_setitem_mid (pre post : list Z) (x y : Z) :
0 <= y ->
meta_setitem (pre ++ x :: post) (len pre) y = Ok (pre ++ y :: post).
Proof.
intros Hy. unfold meta_setitem.
destruct (Z.ltb_spec y 0); [lia|]. apply set_mid.
Qed.

(** [range(n)] counts from 0. *)
Lemma range_seq (n : Z) : range n = map Z.of_nat (seq 0 (Z.to_nat n)).
Proof.
unfold range, range3. change (0 <? 1) with true. cbv iota zeta.
destruct (Z.ltb_spec 0 n).
- rewrite Z.div_1_r. replace (n - 0 - 1 + 1) with n by lia.
  apply map_ext. intros k. lia.
- replace (Z.to_nat n) with 0%nat by lia. reflexivity.
Qed.

Lemma range_len {A} (l : list A) :
range (len l) = map Z.of_nat (seq 0 (List.length l)).
Proof. rewrite range_seq. unfold len. rewrite Nat2Z.id. reflexivity. Qed.

Lemma seq_shift_cons (s k : nat) :
map Z.of_nat (seq s (S k))
= Z.of_nat s :: map Z.of_nat (seq (S s) k).
Proof. reflexivity. Qed.

Lemma len_snoc {A} (l : list A) (x : A) : len (l ++ [x]) = len l + 1.
Proof. rewrite len_app, len_cons, len_nil. lia. Qed.

Lemma app_snoc {A} (pre : list A) (x : A) (post : list A) :
pre ++ x :: post = (pre ++ [x]) ++ post.
Proof. rewrite <- app_assoc. reflexivity. Qed.

Lemma Forall_mid {A} (P : A -> Prop) (pre post : list A) (x y : A) :
Forall P (pre ++ x :: post) -> P y -> Forall P (pre ++ y :: post).
Proof.
intros H Hy. apply Forall_app in H. destruct H as [H1 H2].
apply Forall_app. split; [exact H1|].
inversion H2; subst. constructor; assumption.
Qed.

(* ---------------------------------------------------------------- *)
(** *** Deleting the last column *)

Lemma bind_inv {A B} (m : M A) (f : A -> M B) t b t' :
  bind m f t = Return b t' ->
  exists a t1, m t = Return a t1 /\ f a t1 = Return b t'.
Proof.
  unfold bind. destruct (m t) as [a t1|e t1]; [|discriminate].
  intros H. exists a, t1. split; [reflexivity|exact H].
Qed.

(** Splits a hypothesis [bind m f t = Return b t'] into its two steps. *)
Ltac bind_inv_in H :=
  let a := fresh "a" in
  let t1 := fresh "t" in
  let H1 := fresh "Hstep" in
  apply bind_inv in H; destruct H as (a & t1 & H1 & H); cbv beta in H.

Lemma enumerate_from_bounds {A} (l : list A) (s i : Z) (x : A) :
  In (i, x) (enumerate_from s l) -> s <= i < s + len l.
Proof.
  revert s. induction l as [|y l IH]; simpl; intros s H; [contradiction|].
  rewrite len_cons. pose proof (len_nonneg l).
  destruct H as [H|H].
  - injection H as <- _. lia.
  - apply IH in H. lia.
Qed.

Lemma range_mem (n i : Z) :
  0 <= i < n -> existsb (Z.eqb i) (range3 0 n 1) = true.
Proof.
  intros Hi. apply existsb_exists. exists i. split; [|apply Z.eqb_refl].
  unfold range3. change (0 <? 1) with true. cbv iota zeta.
  destruct (Z.ltb_spec 0 n) as [_|]; [|lia].
  apply in_map_iff. exists (Z.to_nat i). split; [lia|].
  apply in_seq. rewrite Z.div_1_r. lia.
Qed.

(** [del l[:]] empties a list. *)
Lemma del_slice_all {A} (l : list A) :
  del_slice l None None None = Ok [].
Proof.
  unfold del_slice, slice_indices. simpl.
  f_equal.
  assert (H : forall p, In p (enumerate l) ->
              negb (existsb (Z.eqb (fst p)) (range3 0 (len l) 1)) = false).
  { intros [i x] Hin. apply enumerate_from_bounds in Hin. simpl.
    rewrite range_mem by lia. reflexivity. }
  induction (enumerate l) as [|p ps IH]; [reflexivity|].
  simpl. rewrite H by (left; reflexivity).
  apply IH. intros q Hq. apply H. right. exact Hq.
Qed.

(** [del self._table.rows[:]] *)
Lemma rows_delitem_all t :
  rows_delitem (KSlice None None None) t
  = Return tt (with_rows_header [] (with_data [] t)).
Proof.
  unfold rows_delitem, bind, gets, lift, modify, id.
  unfold base_delitem, _canonical_key, res_bind, list_delitem.
  rewrite !del_slice_all. reflexivity.
Qed.

Lemma columns_sync_ncol_clears t t' :
  columns_sync_ncol t = Return tt t' ->
  columns_len t' = 0 ->
  rows_len t' = 0 /\ rows_header t' = [].
Proof.
  unfold columns_sync_ncol, bind, modify, gets, id, columns_len, rows_len.
  destruct (_ncol (with_ncol _ t) =? 0) eqn:E.
  - rewrite rows_delitem_all. intros H _. injection H as <-.
    split; reflexivity.
  - unfold ret. intros H Hn. injection H as <-.
    apply Z.eqb_neq in E. contradiction.
Qed.

(** C6: a column delete, or a column pop, that returns with no column
    left has also cleared all rows: the row count is 0 (and the row
    headers are gone) in the table the same call leaves. *)
Theorem column_removal_clears_rows (t t' : BeautifulTable) (k : key) :
  (columns_delitem k t = Return tt t'
   \/ exists res, columns_pop k t = Return res t') ->
  columns_len t' = 0 ->
  rows_len t' = 0 /\ rows_header t' = [].
Proof.
  intros [H|[res H]] Hn.
  - unfold columns_delitem in H.
    destruct k; try discriminate;
      repeat match type of H with
             | columns_sync_ncol _ = _ => fail 1
             | _ => bind_inv_in H
             end;
      eapply columns_sync_ncol_clears; eassumption.
  - unfold columns_pop in H.
    destruct k; try discriminate;
      bind_inv_in H;
      (destruct (_ncol _ =? 0); [discriminate|]);
      do 7 bind_inv_in H;
      unfold ret in H; injection H as _ <-;
      match goal with
      | Hs : columns_sync_ncol _ = Return ?u _ |- _ =>
          destruct u; eapply columns_sync_ncol_clears; eassumption
      end.
Qed.


(* ---------------------------------------------------------------- *)
(** *** Inserting a column that is too short *)

Lemma firstn_mid {A} (a b : list A) (y : A) :
firstn (List.length a) (a ++ y :: b) = a.
Proof. induction a as [|x a IH]; simpl; congruence. Qed.

Lemma skipn_S_mid {A} (a b : list A) (y : A) :
skipn (S (List.length a)) (a ++ y :: b) = b.
Proof. induction a as [|x a IH]; simpl in *; congruence. Qed.

Lemma app_same_length {A} (a b x y : list A) :
List.length a = List.length b -> a ++ x = b ++ y -> x = y.
Proof.
revert b. induction a as [|u a IH]; intros [|v b] Hl H; try discriminate.
- exact H.
- injection H as _ H. apply (IH b); [simpl in Hl; lia|exact H].
Qed.

Lemma pop_error {A} (l : list A) (i : Z) (e : exn) :
pop l i = Err e -> e = IndexError.
Proof.
unfold pop. destruct (norm_index (len l) i) as [j|]; [|congruence].
destruct (nth_error l j); congruence.
Qed.

Lemma pop_length {A} (l l' : list A) (i : Z) (x : A) :
pop l i = Ok (x, l') -> List.length l = S (List.length l').
Proof.
unfold pop. destruct (norm_index (len l) i) as [j|]; [|discriminate].
destruct (nth_error l j) as [y|] eqn:E; [|discriminate].
intros H. injection H as _ <-.
apply nth_error_split in E. destruct E as (a & b & -> & <-).
rewrite firstn_mid.
change (match a ++ y :: b with
        | [] => []
        | _ :: l => skipn (List.length a) l
        end) with (skipn (S (List.length a)) (a ++ y :: b)).
rewrite skipn_S_mid, !length_app. simpl. lia.
Qed.

(** The rows beyond the end of a short column keep their cells. *)
Lemma insert_items_short (index : Z) (rows : list row) (column : list value) :
(List.length column < List.length rows)%nat ->
exists pre r post,
  rows = firstn (List.length column) rows ++ r :: post
  /\ insert_items index rows column = (pre ++ r :: post, len column)
  /\ List.length pre = List.length column.
Proof.
revert rows. induction column as [|x column IH]; intros rows Hlen.
- destruct rows as [|r rows]; [simpl in Hlen; lia|].
  exists [], r, rows. repeat split.
- destruct rows as [|r0 rows]; [simpl in Hlen; lia|].
  destruct (IH rows ltac:(simpl in Hlen; lia))
    as (pre & r & post & Hrows & Hins & Hpre).
  exists (base_insert r0 index x :: pre), r, post.
  split; [|split].
  + simpl. f_equal. exact Hrows.
  + simpl. rewrite Hins. rewrite len_cons. reflexivity.
  + simpl. lia.
Qed.

(** [range(n, -1, -1)] starts at [n] and goes on below [n]. *)
Lemma range_down (n : Z) :
0 <= n ->
exists js, range3 n (-1) (-1) = n :: js /\ Forall (fun j => 0 <= j < n) js.
Proof.
intros Hn. unfold range3. change (0 <? -1) with false. cbv iota zeta.
destruct (Z.ltb_spec (-1) n) as [_|]; [|lia].
change (- -1) with 1. rewrite Z.div_1_r.
replace (Z.to_nat (n - -1 - 1 + 1)) with (S (Z.to_nat n)) by lia.
cbn [seq map].
exists (map (fun k => n + Z.of_nat k * -1) (seq 1 (Z.to_nat n))).
split; [f_equal; lia|].
apply Forall_forall. intros j Hj. apply in_map_iff in Hj.
destruct Hj as (k & <- & Hk). apply in_seq in Hk. lia.
Qed.

Lemma nth_error_decompose {A} (l : list A) (i : Z) :
0 <= i < len l ->
exists a x b, l = a ++ x :: b /\ len a = i.
Proof.
intros Hi. unfold len in *.
destruct (nth_error l (Z.to_nat i)) as [x|] eqn:E.
- apply nth_error_split in E. destruct E as (a & b & -> & Hlen).
  exists a, x, b. split; [reflexivity|]. lia.
- apply nth_error_None in E. lia.
Qed.

Lemma set_in_prefix {A} (pre tl : list A) (j : Z) (y : A) (l' : list A) :
0 <= j < len pre ->
set (pre ++ tl) j y = Ok l' ->
exists pre', l' = pre' ++ tl /\ List.length pre' = List.length pre.
Proof.
intros Hj Hset.
destruct (nth_error_decompose pre j Hj) as (a & x & b & -> & Ha).
rewrite <- Ha, <- app_assoc in Hset. cbn [app] in Hset.
rewrite set_mid in Hset. injection Hset as <-.
exists (a ++ y :: b). split.
- rewrite <- app_assoc. reflexivity.
- rewrite !length_app. reflexivity.
Qed.

Lemma update_row_rows_from {B} (f : Columns.t -> row -> res (B * row))
    (j : Z) (k : nat) (tl : list row) (t : BeautifulTable) :
0 <= j < Z.of_nat k ->
rows_from k tl t ->
rows_from k tl (final_table (update_row j f t)).
Proof.
intros Hj (pre & Hd & Hk). unfold update_row, bind, gets, lift, modify, ret, id.
destruct (base_getitem (rows_header t) (_data t) (KInt j)) as [r|e];
  [|exists pre; split; assumption].
destruct (f (columns t) r) as [p|e]; [|exists pre; split; assumption].
destruct (set (_data t) j (snd p)) as [d|e] eqn:Es;
  [|exists pre; split; assumption].
rewrite Hd in Es.
destruct (set_in_prefix pre tl j (snd p) d ltac:(unfold len; lia) Es)
  as (pre' & -> & Hl).
exists pre'. split; [reflexivity|lia].
Qed.

Lemma for_rows_rows_from {B} (f : Columns.t -> row -> res (B * row))
    (k : nat) (tl : list row) (js : list Z) :
Forall (fun j => 0 <= j < Z.of_nat k) js ->
forall t, rows_from k tl t ->
          rows_from k tl (final_table (for_rows f js t)).
Proof.
induction 1 as [|j js Hj _ IH]; intros t Ht; [exact Ht|].
cbn [for_rows]. unfold bind at 1.
pose proof (update_row_rows_from f j k tl t Hj Ht) as H1.
destruct (update_row j f t) as [b t1|e t1]; [|exact H1].
cbn [final_table] in H1. unfold bind at 1.
specialize (IH t1 H1).
destruct (for_rows f js t1) as [bs t2|e t2]; exact IH.
Qed.

Lemma update_row_mid {B} (f : Columns.t -> row -> res (B * row))
    (pre post : list row) (r : row) (t : BeautifulTable) :
update_row (len pre) f (with_data (pre ++ r :: post) t)
= match f (columns t) r with
  | Ok p => Return (fst p) (with_data (pre ++ snd p :: post) t)
  | Err e => Raise e (with_data (pre ++ r :: post) t)
  end.
Proof.
unfold update_row, bind, gets, lift, modify, ret, id.
change (_data (with_data (pre ++ r :: post) t)) with (pre ++ r :: post).
unfold base_getitem, _canonical_key, res_bind. rewrite get_mid.
change (columns (with_data (pre ++ r :: post) t)) with (columns t).
destruct (f (columns t) r) as [p|e]; [|reflexivity].
rewrite set_mid. reflexivity.
Qed.

(** Whatever table and column: when the column is shorter than the table
    has rows, [insert] never ends with the length error and the table as it
    was.  The rollback starts at the row [column_length], which received
    no cell: it either takes a cell of that row away or fails there with
    an index error. *)
Lemma columns_insert_short_never_restores (t : BeautifulTable) (index : Z)
    (column : list value) (header : header_t) :
1 <= columns_len t ->
len column < rows_len t ->
columns_insert index column header t <> Raise ValueError t.
Proof.
intros Hn Hshort. unfold columns_len, rows_len in *.
unfold columns_insert. unfold bind at 1, gets at 1, id.
destruct (Z.eqb_spec (_ncol t) 0) as [|_]; [lia|].
destruct header as [h|]; [|discriminate].
destruct (insert_items_short index (_data t) column
            ltac:(unfold len in Hshort; lia))
  as (pre & r & post & Hrows & Hins & Hpre).
rewrite Hins. unfold bind at 1, modify at 1.
destruct (Z.eqb_spec (len column) (rows_len t)) as [Heq|_];
  [unfold rows_len in Heq; lia|].
destruct (range_down (len column) (len_nonneg _)) as (js & -> & Hjs).
assert (Hlc : len column = len pre) by (unfold len; lia).
cbn [for_rows]. unfold bind at 1, bind at 1.
rewrite Hlc, update_row_mid.
unfold pop_in, base_pop, _canonical_key, res_bind.
destruct (pop r index) as [[x r']|e] eqn:Epop.
- cbn [fst snd]. unfold bind at 1.
  assert (H1 : rows_from (List.length pre) (r' :: post)
                          (with_data (pre ++ r' :: post) t))
    by (exists pre; split; reflexivity).
  assert (Hjs' : Forall (fun j => 0 <= j < Z.of_nat (List.length pre)) js).
  { eapply Forall_impl; [|exact Hjs]. intros a Ha. cbv beta in Ha.
    unfold len in *. lia. }
  apply pop_length in Epop.
  assert (Hfinal : forall t2, rows_from (List.length pre) (r' :: post) t2 ->
                              t2 <> t).
  { intros t2 (pre2 & Hd2 & Hl2) ->. rewrite Hrows in Hd2.
    apply app_same_length in Hd2.
    - injection Hd2 as Hr. rewrite Hr in Epop. lia.
    - rewrite length_firstn. unfold len in Hshort. lia. }
  match goal with
  | |- context [for_rows ?f js ?s] =>
      pose proof (for_rows_rows_from f (List.length pre) (r' :: post) js
                    Hjs' s H1) as H2;
      destruct (for_rows f js s) as [bs t2|e t2]
  end.
  + unfold ret, raise. intros Heq. injection Heq as Heq.
    exact (Hfinal t2 H2 Heq).
  + intros Heq. injection Heq as _ Heq. exact (Hfinal t2 H2 Heq).
- apply pop_error in Epop. subst e. discriminate.
Qed.

(* ---------------------------------------------------------------- *)
(** *** Deleting the only column *)

(** A loop over all the rows whose body succeeds on every row. *)
Lemma for_rows_from {B} (f : Columns.t -> row -> res (B * row))
    (g : row -> B * row) (t0 : BeautifulTable) :
forall todo done,
  (forall r, In r todo -> f (columns t0) r = Ok (g r)) ->
  for_rows f (map Z.of_nat (seq (List.length done) (List.length todo)))
           (with_data (done ++ todo) t0)
  = Return (map (fun r => fst (g r)) todo)
           (with_data (done ++ map (fun r => snd (g r)) todo) t0).
Proof.
induction todo as [|r todo IH]; intros done Hf.
- reflexivity.
- simpl List.length. rewrite seq_shift_cons. cbn [for_rows].
  change (Z.of_nat (List.length done)) with (len done).
  unfold bind at 1. rewrite update_row_mid.
  rewrite (Hf r (or_introl eq_refl)).
  unfold bind at 1.
  rewrite (app_snoc done (snd (g r)) todo).
  replace (S (List.length done))
    with (List.length (done ++ [snd (g r)]))
    by (rewrite length_app; simpl; lia).
  rewrite (IH (done ++ [snd (g r)])
              (fun r' Hr' => Hf r' (or_intror Hr'))).
  unfold ret. cbn [map]. rewrite <- app_assoc. reflexivity.
Qed.

Lemma for_rows_all {B} (f : Columns.t -> row -> res (B * row))
    (g : row -> B * row) (t : BeautifulTable) :
(forall r, In r (_data t) -> f (columns t) r = Ok (g r)) ->
for_rows f (range (rows_len t)) t
= Return (map (fun r => fst (g r)) (_data t))
         (with_data (map (fun r => snd (g r)) (_data t)) t).
Proof.
intros Hf. unfold rows_len. rewrite range_len.
pose proof (for_rows_from f g t (_data t) [] Hf) as H.
cbn [app List.length] in H.
replace (with_data (_data t) t) with t in H by (destruct t; reflexivity).
exact H.
Qed.

Lemma len_one {A} (l : list A) : len l = 1 -> exists x, l = [x].
Proof.
destruct l as [|x [|y l]]; unfold len; simpl; intros H; try lia.
exists x. reflexivity.
Qed.

Lemma update_columns_ok (f : Columns.t -> res Columns.t) (c' : Columns.t)
    (t : BeautifulTable) :
f (columns t) = Ok c' ->
update_columns f t = Return tt (with_columns c' t).
Proof.
intros H. unfold update_columns, bind, gets, lift, modify, id.
rewrite H. reflexivity.
Qed.

Lemma columns_sync_ncol_empty (t : BeautifulTable) :
Columns.header (columns t) = [] ->
columns_sync_ncol t
= Return tt (with_rows_header [] (with_data [] (with_ncol 0 t))).
Proof.
intros H. unfold columns_sync_ncol, bind, modify, gets, id.
rewrite H. change (_ncol (with_ncol (len []) t) =? 0) with true.
cbv iota. apply rows_delitem_all.
Qed.

Lemma bind_seq {A B} (m : M A) (f : A -> M B) t a t1 :
m t = Return a t1 -> bind m f t = f a t1.
Proof. intros H. unfold bind. rewrite H. reflexivity. Qed.

(** On a well-formed table with exactly one column, deleting the column 0
    and popping the column 0 both return, and leave no column and no row. *)
Lemma only_column_removed (t : BeautifulTable) :
well_formed t -> columns_len t = 1 ->
(exists t', columns_delitem (KInt 0) t = Return tt t'
            /\ columns_len t' = 0 /\ rows_len t' = 0)
/\ (exists res t', columns_pop (KInt 0) t = Return res t'
                   /\ columns_len t' = 0 /\ rows_len t' = 0).
Proof.
intros (_ & Hh & Ha & Hw & Hl & Hr & Hd & _) H1.
unfold columns_len in H1. rewrite H1 in *.
apply len_one in Hh, Ha, Hw, Hl, Hr.
destruct Hh as (h & Hh), Ha as (a & Ha), Hw as (w & Hw),
         Hl as (pl & Hl), Hr as (pr & Hr).
assert (Hrows : forall r, In r (_data t) -> exists v, r = [v]).
{ intros r Hin. rewrite Forall_forall in Hd. apply len_one, Hd, Hin. }
destruct t as [ncol data rh c mw st np sn snh dn sm].
destruct c as [hd hal al wd pdl pdr wep pc dal dp].
cbn [_ncol _data columns Columns.header Columns.alignment Columns.width
     Columns.padding_left Columns.padding_right] in *.
subst hd al wd pdl pdr ncol.
split.
- unfold columns_delitem.
  do 4 (erewrite bind_seq; [|apply update_columns_ok; reflexivity]).
  unfold bind at 1, gets at 1, id.
  erewrite bind_seq;
    [|apply (for_rows_all _ (fun _ => (tt, [])));
      intros r Hin; destruct (Hrows r Hin) as (v & ->); reflexivity].
  erewrite bind_seq; [|apply update_columns_ok; reflexivity].
  rewrite columns_sync_ncol_empty by reflexivity.
  eexists. split; [reflexivity|]. split; reflexivity.
- unfold columns_pop.
  unfold bind at 1, gets at 1, id.
  change (_ncol _ =? 0) with false. cbv iota.
  erewrite bind_seq;
    [|apply (for_rows_all _ (fun r => (hd VNone r, [])));
      intros r Hin; destruct (Hrows r Hin) as (v & ->); reflexivity].
  do 5 (erewrite bind_seq; [|apply update_columns_ok; reflexivity]).
  erewrite bind_seq; [|apply columns_sync_ncol_empty; reflexivity].
  eexists. eexists. split; [reflexivity|]. split; reflexivity.
Qed.

(* ================================================================ *)
(** ** Clamping under the ellipsis policy *)

(** Under the ellipsis policy [_clamp_row] clamps with the delimiter
    "...".  A cell wider than the printable width [w] becomes the first
    line of the cell wrapped to [w - 3] columns followed by "..." when
    [3 <= w], and ["..."[:w]], which has [w] characters for [0 <= w],
    otherwise. *)
Lemma clamp_string_ellipsis_branches (t : BeautifulTable)
    (row_item : pystr) (index w : Z) :
  printable_width t index = Ok w ->
  w < termwidth row_item ->
  (3 <= w ->
   forall line, get (textwrap row_item (w - 3)) 0 = Ok line ->
     _clamp_string t row_item index (str "...") = Ok (line ++ str "..."))
  /\ (w < 3 ->
      _clamp_string t row_item index (str "...")
      = Ok (slice_to (str "...") w)
      /\ (0 <= w -> len (slice_to (str "...") w) = w)).
Proof.
  intros Hw Hwide. unfold _clamp_string. rewrite Hw. simpl res_bind.
  destruct (Z.leb_spec (termwidth row_item) w) as [|_]; [lia|].
  change (len (str "...")) with 3.
  split.
  - intros H3 line Hline.
    destruct (Z.leb_spec 0 (w - 3)) as [_|]; [|lia].
    rewrite Hline. reflexivity.
  - intros H3.
    destruct (Z.leb_spec 0 (w - 3)) as [|_]; [lia|].
    split; [reflexivity|].
    intros H0. unfold slice_to.
    destruct (Z.ltb_spec w 0) as [|_]; [lia|].
    assert (Hc : w = 0 \/ w = 1 \/ w = 2) by lia.
    destruct Hc as [->|[->| ->]]; reflexivity.
Qed.

(** Under [WEP_ELLIPSIS], [_clamp_row] clamps each cell with the delimiter
    "..." and puts the padding around it. *)
Lemma clamp_row_ellipsis_cell (t : BeautifulTable) (item : pystr) :
  Columns.width_exceed_policy (columns t) = WEP_ELLIPSIS ->
  _clamp_row t [item]
  = res_bind (_clamp_string t item 0 (str "..."))
      (fun c => res_bind (pad_item t 0 c) (fun p => Ok [[p]])).
Proof.
  intros Hp. unfold _clamp_row. rewrite Hp. simpl.
  destruct (_clamp_string t item 0 (str "...")) as [c|e]; [|reflexivity].
  simpl. destruct (pad_item t 0 c) as [p|e]; reflexivity.
Qed.

(* ================================================================ *)
(** ** The width allocator *)

(** *** The records under the width updates *)

Lemma set_widths_twice (a b : list Z) t :
set_widths a (set_widths b t) = set_widths a t.
Proof. reflexivity. Qed.

Lemma set_widths_same t :
set_widths (Columns.width (columns t)) t = t.
Proof. destruct t as [? ? ? c ? ? ? ? ? ? ?]. destruct c. reflexivity. Qed.

Lemma get_width_at (pre post : list Z) (x : Z) t :
get_width (len pre) (set_widths (pre ++ x :: post) t)
= Return x (set_widths (pre ++ x :: post) t).
Proof.
unfold get_width, bind, gets, lift, id. simpl. rewrite get_mid. reflexivity.
Qed.

Lemma set_width_at (pre post : list Z) (x y : Z) t :
0 <= y ->
set_width (len pre) y (set_widths (pre ++ x :: post) t)
= Return tt (set_widths (pre ++ y :: post) t).
Proof.
intros Hy. unfold set_width, bind, gets, lift, modify, id. simpl.
rewrite meta_setitem_mid by exact Hy. reflexivity.
Qed.

(** *** The padding and the natural widths *)

Lemma pad_widths_of_cons (lpw rpw : list Z) (i : Z) (r : list Z) :
pad_widths_of lpw rpw (i :: r)
= res_bind (get lpw i) (fun a =>
  res_bind (get rpw i) (fun b =>
  res_bind (pad_widths_of lpw rpw r) (fun rest => Ok (a + b :: rest)))).
Proof. reflexivity. Qed.

Lemma pad_widths_of_from (pl pr : list Z) :
List.length pl = List.length pr ->
forall al ar,
  List.length al = List.length ar ->
  exists pw,
    pad_widths_of (al ++ pl) (ar ++ pr)
                  (map Z.of_nat (seq (List.length al) (List.length pl)))
    = Ok pw
    /\ List.length pw = List.length pl
    /\ zsum pw = zsum pl + zsum pr
    /\ (Forall (Z.le 0) pl -> Forall (Z.le 0) pr -> Forall (Z.le 0) pw).
Proof.
revert pr. induction pl as [|a pl IH]; intros [|b pr] Hlen al ar Hal;
  try discriminate.
- exists []. repeat split; constructor.
- simpl List.length. rewrite seq_shift_cons, pad_widths_of_cons.
  change (Z.of_nat (List.length al)) with (len al).
  rewrite get_mid.
  replace (len al) with (len ar) by (unfold len; lia).
  rewrite get_mid. simpl res_bind.
  destruct (IH pr ltac:(simpl in Hlen; lia) (al ++ [a]) (ar ++ [b])
              ltac:(rewrite !length_app; simpl; lia))
    as (pw & Hpw & Hl & Hs & Hf).
  rewrite <- !app_snoc in Hpw.
  rewrite length_app in Hpw. simpl in Hpw.
  replace (List.length al + 1)%nat with (S (List.length al)) in Hpw by lia.
  rewrite Hpw. simpl res_bind.
  exists (a + b :: pw). repeat split.
  + simpl. lia.
  + rewrite !zsum_cons. lia.
  + intros Ha Hb. inversion Ha; inversion Hb; subst.
    constructor; [lia|]. apply Hf; assumption.
Qed.

Lemma pad_widths_of_ok (pl pr : list Z) (n : Z) :
len pl = n -> len pr = n ->
exists pw,
  pad_widths_of pl pr (range n) = Ok pw
  /\ len pw = n
  /\ zsum pw = zsum pl + zsum pr
  /\ (Forall (Z.le 0) pl -> Forall (Z.le 0) pr -> Forall (Z.le 0) pw).
Proof.
intros Hl Hr. subst n. rewrite range_len.
destruct (pad_widths_of_from pl pr ltac:(unfold len in Hr; lia) [] []
            eq_refl) as (pw & Hpw & Hlen & Hs & Hf).
exists pw. repeat split; try assumption. unfold len. lia.
Qed.

Lemma max_line_width_ge (t : BeautifulTable) (m : Z) (item : value) :
m <= max_line_width t m item.
Proof.
unfold max_line_width.
generalize (PyStr.split PyStr.newline (pre_process_in t item)).
intros lines. revert m. induction lines as [|l lines IH]; intros m; simpl.
- lia.
- etransitivity; [|apply IH]. lia.
Qed.

Lemma column_width_ge (t : BeautifulTable) (column : list value) (m : Z) :
m <= fold_left (max_line_width t) column m.
Proof.
revert m. induction column as [|i column IH]; intros m; simpl.
- lia.
- etransitivity; [apply (max_line_width_ge t m i)|apply IH].
Qed.

(** A loop [for index, x in enumerate(xs): mw[index] = f(mw[index], x)]
    over at most as many items as the list has entries keeps the length of
    the list, and its entries non-negative when [f] does. *)
Lemma fold_update_indexed {X} (f : Z -> X -> Z) (xs : list X) :
(forall old x, 0 <= old -> 0 <= f old x) ->
forall pre post,
  (List.length xs <= List.length post)%nat ->
  Forall (Z.le 0) (pre ++ post) ->
  exists mw,
    fold_left
      (fun acc ix =>
         res_bind acc (fun mw =>
         res_bind (get mw (fst ix)) (fun old =>
         set mw (fst ix) (f old (snd ix)))))
      (enumerate_from (len pre) xs) (Ok (pre ++ post))
    = Ok mw
    /\ List.length mw = List.length (pre ++ post)
    /\ Forall (Z.le 0) mw.
Proof.
intros Hf. induction xs as [|x xs IH]; intros pre post Hlen Hpos.
- exists (pre ++ post).
  split; [reflexivity|]. split; [reflexivity|assumption].
- destruct post as [|p post]; [simpl in Hlen; lia|].
  simpl enumerate_from. simpl fold_left. rewrite get_mid. simpl res_bind.
  rewrite set_mid.
  assert (Hp : 0 <= p).
  { apply Forall_app in Hpos. destruct Hpos as [_ H]. inversion H. lia. }
  rewrite app_snoc. rewrite <- len_snoc with (x := f p x).
  destruct (IH (pre ++ [f p x]) post ltac:(simpl in Hlen; lia))
    as (mw & Hmw & Hl & Hnn).
  { rewrite <- app_snoc. eapply Forall_mid; [exact Hpos|]. apply Hf, Hp. }
  exists mw. split; [exact Hmw|]. split; [|exact Hnn].
  rewrite Hl, !length_app. simpl. lia.
Qed.

Lemma zip_star_length {A} (rows : list (list A)) (n : nat) :
Forall (fun r => List.length r = n) rows ->
(List.length (zip_star rows) <= n)%nat.
Proof.
induction rows as [|r rows IH]; intros H; [simpl; lia|].
inversion H as [|? ? Hr Hrs]; subst.
destruct rows as [|r' rows'].
- simpl. rewrite length_map. lia.
- change (zip_star (r :: r' :: rows'))
    with (map (fun p => fst p :: snd p)
              (combine r (zip_star (r' :: rows')))).
  rewrite length_map, length_combine. lia.
Qed.

Lemma repeat_nonneg (n : nat) : Forall (Z.le 0) (repeat 0 n).
Proof. induction n; simpl; constructor; [lia|assumption]. Qed.

(** The natural widths: one non-negative entry per column. *)
Lemma natural_widths_ok (t : BeautifulTable) :
well_formed t ->
exists maxwidths,
  res_bind (header_maxwidths t (repeat_list [0] (columns_len t)))
           (data_maxwidths t)
  = Ok maxwidths
  /\ len maxwidths = columns_len t
  /\ Forall (Z.le 0) maxwidths.
Proof.
intros (Hn & Hh & _ & _ & _ & _ & Hd & _). unfold columns_len.
rewrite repeat_list_single.
unfold header_maxwidths, enumerate.
destruct (fold_update_indexed
            (fun old h => old + max_line_width t 0 (header_value h))
            (Columns.header (columns t))
            ltac:(intros old x Ho; pose proof (max_line_width_ge t 0
                    (header_value x)); lia)
            [] (repeat 0 (Z.to_nat (_ncol t)))
            ltac:(rewrite repeat_length; unfold len in Hh; lia)
            (repeat_nonneg _))
  as (mw1 & H1 & Hl1 & Hp1).
change (len (@nil Z)) with 0 in H1. cbn [app] in H1.
rewrite H1. simpl res_bind.
unfold data_maxwidths, enumerate.
destruct (fold_update_indexed
            (fun old column => fold_left (max_line_width t) column old)
            (zip_star (_data t))
            ltac:(intros old x Ho; pose proof (column_width_ge t x old); lia)
            [] mw1) as (mw2 & H2 & Hl2 & Hp2).
- simpl in Hl1. rewrite repeat_length in Hl1. rewrite Hl1.
  apply zip_star_length.
  eapply Forall_impl; [|exact Hd]. intros r Hr. simpl in Hr.
  unfold len in Hr. lia.
- exact Hp1.
- change (len (@nil Z)) with 0 in H2. cbn [app] in H2. exists mw2.
  split; [exact H2|]. split; [|exact Hp2].
  unfold len. rewrite Hl2. simpl. rewrite Hl1. simpl.
  rewrite repeat_length. lia.
Qed.

(** *** The fair share and the shrink step, in closed form *)

Lemma int_truediv_ok (a b : Z) : b <> 0 -> int_truediv a b = Ok (Z.quot a b).
Proof.
intros Hb. unfold int_truediv. destruct (Z.eqb_spec b 0); [contradiction|].
reflexivity.
Qed.

Lemma flag_loop_closed (d n : Z) :
n <> 0 ->
forall ws pre s,
  fold_left (flag_step d n) (enumerate_from (len pre) ws)
            (Ok (s, pre ++ repeat 0 (List.length ws)))
  = Ok (s + zsum (map (fair_base (Z.quot d n)) ws),
        pre ++ map (fair_flag (Z.quot d n)) ws).
Proof.
intros Hn. induction ws as [|W ws IH]; intros pre s.
- simpl. rewrite Z.add_0_r. reflexivity.
- simpl enumerate_from. simpl List.length. simpl repeat.
  cbn [fold_left]. unfold flag_step at 2. cbn [res_bind fst snd].
  rewrite int_truediv_ok by exact Hn. cbn [res_bind].
  unfold fair_base at 1, fair_flag at 1. cbn [map zsum fold_right].
  destruct (Z.leb_spec W (Z.quot d n)).
  + rewrite set_mid. cbn [res_bind].
    rewrite app_snoc, <- (len_snoc pre 1), IH.
    rewrite <- app_snoc. unfold fair_base, fair_flag, zsum.
    f_equal. f_equal. lia.
  + rewrite app_snoc, <- (len_snoc pre 0), IH.
    rewrite <- app_snoc. unfold fair_base, fair_flag, zsum.
    f_equal. f_equal. lia.
Qed.

Lemma fair_share_flags_closed (d n : Z) (mw : list Z) :
len mw = n ->
fair_share_flags d n mw
= Ok (zsum (map (fair_base (Z.quot d n)) mw),
      map (fair_flag (Z.quot d n)) mw).
Proof.
intros Hlen. unfold fair_share_flags, enumerate.
destruct mw as [|W mw]; [reflexivity|].
rewrite repeat_list_single. unfold len. rewrite Nat2Z.id.
assert (Hn : n <> 0)
  by (rewrite <- Hlen, len_cons; pose proof (len_nonneg mw); lia).
exact (flag_loop_closed d n Hn (W :: mw) [] 0).
Qed.

Lemma shrink_loop_closed (avail actual : Z) :
forall mw fl pre post fpre sh t,
  List.length post = List.length mw ->
  List.length fl = List.length mw ->
  len fpre = len pre ->
  Forall (Z.le 0) mw ->
  (forall W f, In (W, f) (combine mw fl) -> f = 0 ->
     actual <> 0 /\ 0 <= 1 + Z.quot ((W - 1) * avail) actual) ->
  for_fold (shrink_step (fpre ++ fl) avail actual)
           (enumerate_from (len pre) mw) sh (set_widths (pre ++ post) t)
  = Return (shrunk_dict avail actual (len pre) mw fl sh)
           (set_widths
              (pre ++ map (fun p => shrunk_width avail actual (fst p) (snd p))
                          (combine mw fl)) t).
Proof.
induction mw as [|W mw IH]; intros fl pre post fpre sh t Hpost Hfl Hpre
                                   Hnn Hok.
- destruct post; [|discriminate]. reflexivity.
- destruct post as [|p post]; [discriminate|].
  destruct fl as [|f fl]; [discriminate|].
  inversion Hnn as [|? ? HW Hnn']; subst.
  simpl enumerate_from. cbn [for_fold]. unfold shrink_step at 1.
  unfold bind at 1. unfold bind at 1.
  rewrite set_width_at by exact HW.
  unfold bind at 1. unfold lift at 1. rewrite <- Hpre, get_mid, Hpre.
  cbn [combine map fst snd shrunk_dict]. unfold shrunk_width at 1.
  cbn [fst snd].
  assert (Hrest :
    forall sh' v,
      for_fold (shrink_step (fpre ++ f :: fl) avail actual)
               (enumerate_from (len pre + 1) mw) sh'
               (set_widths (pre ++ v :: post) t)
      = Return (shrunk_dict avail actual (len pre + 1) mw fl sh')
          (set_widths
             (pre ++ v
                  :: map (fun p => shrunk_width avail actual (fst p) (snd p))
                         (combine mw fl)) t)).
  { intros sh' v.
    rewrite (app_snoc fpre), (app_snoc pre), (app_snoc pre _ (map _ _)).
    rewrite <- (len_snoc pre v).
    apply IH.
    - simpl in Hpost. lia.
    - simpl in Hfl. lia.
    - rewrite !len_snoc. lia.
    - exact Hnn'.
    - intros W' f' Hin. apply Hok. right. exact Hin. }
  destruct (Z.eqb_spec f 0) as [Hf|Hf].
  + destruct (Hok W f (or_introl eq_refl) Hf) as [Hact Hnw].
    rewrite int_truediv_ok by exact Hact. unfold lift, bind at 1.
    cbv zeta. cbn [andb].
    destruct (Z.ltb_spec (1 + Z.quot ((W - 1) * avail) actual) W).
    * unfold bind at 1. rewrite set_width_at by exact Hnw.
      apply Hrest.
    * apply Hrest.
  + cbn [andb]. apply Hrest.
Qed.

(** *** The dictionary of the shrunk columns *)

Lemma setitem_ok (n k v : Z) (sh : PyDict.t) :
dict_ok n sh -> 1 <= k -> 0 <= v < n -> dict_ok n (PyDict.setitem k v sh).
Proof.
unfold dict_ok. intros H Hk Hv.
induction sh as [|[k' v'] sh IH]; simpl.
- constructor; [simpl; lia|constructor].
- inversion H; subst. destruct (Z.eqb_spec k' k).
  + constructor; [simpl; lia|assumption].
  + constructor; [assumption|]. apply IH. assumption.
Qed.

Lemma setitem_length (k v : Z) (sh : PyDict.t) :
(List.length (PyDict.setitem k v sh) <= S (List.length sh))%nat.
Proof.
induction sh as [|[k' v'] sh IH]; simpl; [lia|].
destruct (Z.eqb_spec k' k); simpl; lia.
Qed.

Lemma shrunk_dict_ok (avail actual n : Z) :
forall mw fl i sh,
  0 <= i -> i + len mw <= n -> dict_ok n sh ->
  (forall W f, In (W, f) (combine mw fl) -> f = 0 ->
     0 <= Z.quot ((W - 1) * avail) actual) ->
  dict_ok n (shrunk_dict avail actual i mw fl sh)
  /\ (List.length (shrunk_dict avail actual i mw fl sh)
      <= List.length sh + List.length mw)%nat.
Proof.
induction mw as [|W mw IH]; intros fl i sh Hi Hin Hsh Hq.
- simpl. split; [assumption|lia].
- destruct fl as [|f fl]; [simpl; split; [assumption|lia]|].
  rewrite len_cons in Hin. pose proof (len_nonneg mw).
  cbn [shrunk_dict].
  destruct (Z.eqb_spec f 0) as [Hf|Hf]; cbn [andb].
  + destruct (Z.ltb_spec (1 + Z.quot ((W - 1) * avail) actual) W).
    * destruct (IH fl (i + 1)
                  (PyDict.setitem (1 + Z.quot ((W - 1) * avail) actual) i sh))
        as [H1 H2]; try lia.
      { apply setitem_ok; [assumption| |lia].
        specialize (Hq W f (or_introl eq_refl) Hf). lia. }
      { intros W' f' Hin'. apply Hq. right. exact Hin'. }
      split; [exact H1|].
      pose proof (setitem_length (1 + Z.quot ((W - 1) * avail) actual) i sh).
      change (List.length (W :: mw)) with (S (List.length mw)). lia.
    * destruct (IH fl (i + 1) sh) as [H1 H2]; try lia; try assumption.
      { intros W' f' Hin'. apply Hq. right. exact Hin'. }
      split; [exact H1|].
      change (List.length (W :: mw)) with (S (List.length mw)). lia.
  + destruct (IH fl (i + 1) sh) as [H1 H2]; try lia; try assumption.
    { intros W' f' Hin'. apply Hq. right. exact Hin'. }
    split; [exact H1|].
    change (List.length (W :: mw)) with (S (List.length mw)). lia.
Qed.

Lemma insert_sorted_sum (x : Z) (l : list Z) :
zsum (PyDict.insert_sorted x l) = x + zsum l.
Proof.
induction l as [|y l IH]; simpl; [reflexivity|].
destruct (Z.leb_spec x y); simpl; lia.
Qed.

Lemma insert_sorted_length (x : Z) (l : list Z) :
List.length (PyDict.insert_sorted x l) = S (List.length l).
Proof.
induction l as [|y l IH]; simpl; [reflexivity|].
destruct (Z.leb_spec x y); simpl; lia.
Qed.

Lemma insert_sorted_in (y x : Z) (l : list Z) :
In y (PyDict.insert_sorted x l) -> y = x \/ In y l.
Proof.
induction l as [|z l IH]; simpl.
- intros [H|[]]. left. congruence.
- destruct (Z.leb_spec x z) as [Hle|Hlt]; simpl.
  + intros [H|H]; [left; congruence|right; exact H].
  + intros [H|H]; [right; left; exact H|].
    destruct (IH H) as [H'|H']; [left; exact H'|right; right; exact H'].
Qed.

Lemma sorted_sum (sh : PyDict.t) :
zsum (PyDict.sorted sh) = zsum (PyDict.keys sh).
Proof.
unfold PyDict.sorted. induction (PyDict.keys sh) as [|k ks IH]; simpl.
- reflexivity.
- rewrite insert_sorted_sum, IH. reflexivity.
Qed.

Lemma sorted_length (sh : PyDict.t) :
List.length (PyDict.sorted sh) = List.length sh.
Proof.
unfold PyDict.sorted, PyDict.keys. rewrite <- (length_map fst sh).
induction (map fst sh) as [|k ks IH]; simpl.
- reflexivity.
- rewrite insert_sorted_length, IH. reflexivity.
Qed.

Lemma sorted_in (sh : PyDict.t) (k : Z) :
In k (PyDict.sorted sh) -> In k (PyDict.keys sh).
Proof.
unfold PyDict.sorted. induction (PyDict.keys sh) as [|x ks IH]; simpl.
- auto.
- intros H. apply insert_sorted_in in H. destruct H; [left; congruence|].
  right. apply IH. assumption.
Qed.

Lemma getitem_of_key (sh : PyDict.t) (k : Z) :
In k (PyDict.keys sh) ->
exists v, PyDict.getitem sh k = Ok v /\ In (k, v) sh.
Proof.
induction sh as [|[k' v'] sh IH]; simpl; [contradiction|].
intros H. destruct (Z.eqb_spec k' k) as [->|Hne].
- exists v'. split; [reflexivity|left; reflexivity].
- destruct H as [H|H]; [contradiction|].
  destruct (IH H) as (v & Hv & Hin). exists v. split; [exact Hv|].
  right. exact Hin.
Qed.

Lemma keys_sum_pos (n : Z) (sh : PyDict.t) :
dict_ok n sh -> sh <> [] ->
0 < zsum (PyDict.keys sh) /\ Forall (Z.le 1) (PyDict.keys sh).
Proof.
unfold dict_ok. intros H Hne.
assert (Hk : Forall (Z.le 1) (PyDict.keys sh)).
{ clear Hne. unfold PyDict.keys.
  induction H as [|kv sh' Hkv _ IH]; simpl; [constructor|].
  constructor; [tauto|exact IH]. }
split; [|exact Hk].
destruct sh as [|[k v] sh]; [contradiction|].
simpl in *. inversion Hk as [|? ? H1 Hrest]; subst.
assert (0 <= zsum (PyDict.keys sh)).
{ clear - Hrest. induction Hrest; simpl; lia. }
unfold zsum, PyDict.keys in *. lia.
Qed.

(** The shares never add up to more than the space to hand out. *)
Lemma shares_le (K e : Z) (L : list Z) :
0 < K -> 0 <= e -> Forall (Z.le 0) L ->
K * zsum (map (fun k => Z.quot (k * e) K) L) <= zsum L * e.
Proof.
intros HK He. induction 1 as [|k L Hk _ IH]; simpl; [lia|].
rewrite Z.quot_div_nonneg by nia.
pose proof (Z.mul_div_le (k * e) K HK). nia.
Qed.

Lemma shares_nonneg (K e : Z) (L : list Z) :
0 < K -> 0 <= e -> Forall (Z.le 0) L ->
Forall (Z.le 0) (map (fun k => Z.quot (k * e) K) L).
Proof.
intros HK He. induction 1 as [|k L Hk _ IH]; simpl; constructor;
  [|assumption].
apply Z.quot_pos; nia.
Qed.

(** *** The redistribution loop *)

Lemma zsum_mid (pre post : list Z) (x : Z) :
zsum (pre ++ x :: post) = zsum pre + x + zsum post.
Proof. rewrite zsum_app, zsum_cons. lia. Qed.

Lemma len_mid {A} (pre post : list A) (x y : A) :
len (pre ++ y :: post) = len (pre ++ x :: post).
Proof. rewrite !len_app, !len_cons. reflexivity. Qed.

(** One iteration: the share is added at position [i]; at the last position
    the column [index] then takes what is left, and the widths add up to
    the space to fill. *)
Lemma redistribute_step_spec (sh : PyDict.t)
    (offset extra K desired n : Z) (t0 : BeautifulTable)
    (i k : Z) (ws : list Z) :
_maxwidth t0 - offset = desired ->
dict_ok n sh -> K <> 0 ->
0 <= i < n -> In k (PyDict.keys sh) ->
0 <= Z.quot (k * extra) K ->
len ws = n -> Forall (Z.le 0) ws ->
zsum ws + Z.quot (k * extra) K <= desired ->
exists ws',
  redistribute_step sh offset extra K tt (i, k) (set_widths ws t0)
  = Return tt (set_widths ws' t0)
  /\ len ws' = n /\ Forall (Z.le 0) ws'
  /\ (i <> len sh - 1 -> zsum ws' = zsum ws + Z.quot (k * extra) K)
  /\ (i = len sh - 1 -> zsum ws' = desired).
Proof.
intros Hd Hsh HK Hi Hk Hq Hlen Hnn Hbound.
destruct (getitem_of_key sh k Hk) as (v & Hv & Hin).
assert (Hvr : 0 <= v < n).
{ unfold dict_ok in Hsh. rewrite Forall_forall in Hsh.
  apply (Hsh (k, v) Hin). }
destruct (split_at ws i ltac:(lia)) as (pre & x & post & -> & Hpre).
assert (Hx : 0 <= x).
{ apply Forall_app in Hnn. destruct Hnn as [_ H]. inversion H. lia. }
unfold redistribute_step.
unfold lift at 1. rewrite Hv. unfold bind at 1.
rewrite int_truediv_ok by exact HK. unfold lift at 1, bind at 1.
rewrite <- Hpre.
rewrite (bind_seq _ _ _ _ _ (get_width_at pre post x t0)).
rewrite (bind_seq _ _ _ _ _
           (set_width_at pre post x (x + Z.quot (k * extra) K) t0
                         ltac:(lia))).
set (ws1 := pre ++ x + Z.quot (k * extra) K :: post).
assert (Hlen1 : len ws1 = n) by (unfold ws1; rewrite (len_mid _ _ x); exact Hlen).
assert (Hnn1 : Forall (Z.le 0) ws1).
{ unfold ws1. eapply Forall_mid; [exact Hnn|]. lia. }
assert (Hs1 : zsum ws1 = zsum (pre ++ x :: post) + Z.quot (k * extra) K).
{ unfold ws1. rewrite !zsum_mid. lia. }
rewrite Hpre. clearbody ws1.
destruct (Z.eqb_spec i (len sh - 1)) as [Hlast|Hlast].
- unfold bind at 1, gets at 1, id.
  change (_maxwidth (set_widths ws1 t0)) with (_maxwidth t0).
  change (Columns.width (columns (set_widths ws1 t0))) with ws1.
  destruct (split_at ws1 v ltac:(lia)) as (pre2 & y & post2 & E2 & Hpre2).
  subst ws1.
  assert (Hy : 0 <= y).
  { apply Forall_app in Hnn1. destruct Hnn1 as [_ H]. inversion H. lia. }
  rewrite <- Hpre2.
  rewrite (bind_seq _ _ _ _ _ (get_width_at pre2 post2 y t0)).
  rewrite set_width_at by lia.
  eexists. split; [reflexivity|]. split; [|split; [|split]].
  + rewrite (len_mid _ _ y). exact Hlen1.
  + eapply Forall_mid; [exact Hnn1|]. lia.
  + intros Hc. contradiction.
  + intros _. rewrite !zsum_mid. lia.
- exists ws1. split; [reflexivity|]. split; [exact Hlen1|].
  split; [exact Hnn1|]. split.
  + intros _. exact Hs1.
  + intros Hc. contradiction.
Qed.

Lemma redistribute_loop (sh : PyDict.t) (offset extra K desired n : Z)
    (t0 : BeautifulTable) :
_maxwidth t0 - offset = desired ->
dict_ok n sh -> len sh <= n -> 0 <= extra -> 0 < K ->
forall L i ws,
  0 <= i -> i + len L = len sh ->
  Forall (fun k => 0 <= k /\ In k (PyDict.keys sh)) L ->
  len ws = n -> Forall (Z.le 0) ws ->
  zsum ws + zsum (map (fun k => Z.quot (k * extra) K) L) <= desired ->
  exists ws',
    for_fold (redistribute_step sh offset extra K) (enumerate_from i L) tt
             (set_widths ws t0)
    = Return tt (set_widths ws' t0)
    /\ len ws' = n /\ Forall (Z.le 0) ws'
    /\ zsum ws' <= desired
    /\ (L <> [] -> zsum ws' = desired).
Proof.
intros Hd Hsh Hshn He HK.
induction L as [|k L IH]; intros i ws Hi HiL HL Hlen Hnn Hbound.
- exists ws. split; [reflexivity|]. split; [exact Hlen|].
  split; [exact Hnn|]. split; [simpl in Hbound; lia|].
  intros Hc. contradiction.
- apply Forall_cons_iff in HL. destruct HL as [[Hk0 Hkin] HL'].
  rewrite len_cons in HiL. pose proof (len_nonneg L) as HLn.
  assert (Hq : 0 <= Z.quot (k * extra) K) by (apply Z.quot_pos; nia).
  assert (Hqs : 0 <= zsum (map (fun k => Z.quot (k * extra) K) L)).
  { assert (H : Forall (Z.le 0) (map (fun k => Z.quot (k * extra) K) L)).
    { apply shares_nonneg; [exact HK|exact He|].
      eapply Forall_impl; [|exact HL']. intros a [Ha _]. exact Ha. }
    clear - H. induction H; simpl; lia. }
  cbn [map zsum fold_right] in Hbound. fold (zsum (map (fun k0 => Z.quot (k0 * extra) K) L)) in Hbound.
  destruct (redistribute_step_spec sh offset extra K
              desired n t0 i k ws Hd Hsh
              ltac:(lia) ltac:(lia) Hkin Hq Hlen Hnn ltac:(lia))
    as (ws1 & Hstep & Hlen1 & Hnn1 & Hmid & Hlast).
  simpl enumerate_from. cbn [for_fold].
  rewrite (bind_seq _ _ _ _ _ Hstep).
  destruct L as [|k' L'].
  + exists ws1. split; [reflexivity|]. split; [exact Hlen1|].
    split; [exact Hnn1|].
    rewrite len_nil in HiL. specialize (Hlast ltac:(lia)).
    split; [lia|]. intros _. lia.
  + assert (Hne : i <> len sh - 1)
      by (rewrite len_cons in HiL; pose proof (len_nonneg L'); lia).
    specialize (Hmid Hne).
    destruct (IH (i + 1) ws1 ltac:(lia) ltac:(lia) HL' Hlen1 Hnn1
                 ltac:(lia))
      as (ws' & Hloop & Hlen' & Hnn' & Hle & Heq).
    exists ws'. split; [exact Hloop|]. split; [exact Hlen'|].
    split; [exact Hnn'|]. split; [exact Hle|].
    intros _. apply Heq. discriminate.
Qed.

(** The block under [if shrinked_columns:] keeps the number of widths and
    their signs, and never goes over the space to fill; when a column was
    shrunk, the widths it leaves add up to exactly that space. *)
Lemma redistribute_ok (offset : Z) (sh : PyDict.t) (n desired : Z)
    (ws : list Z) (t : BeautifulTable) :
_maxwidth t - offset = desired ->
dict_ok n sh -> len sh <= n ->
len ws = n -> Forall (Z.le 0) ws -> zsum ws <= desired ->
exists ws',
  redistribute offset sh (set_widths ws t) = Return tt (set_widths ws' t)
  /\ len ws' = n /\ Forall (Z.le 0) ws' /\ zsum ws' <= desired
  /\ (sh <> [] -> zsum ws' = desired).
Proof.
intros Hd Hsh Hshn Hlen Hnn Hsum.
unfold redistribute, bind at 1, gets at 1, id.
destruct sh as [|kv sh'] eqn:Esh.
- exists ws. repeat split; try assumption. intros Hc. contradiction.
- rewrite <- Esh in *.
  change (_maxwidth (set_widths ws t)) with (_maxwidth t).
  change (Columns.width (columns (set_widths ws t))) with ws.
  destruct (Z.ltb_spec 0 (_maxwidth t - offset - zsum ws)) as [Hex|Hex].
  + destruct (keys_sum_pos n sh Hsh ltac:(rewrite Esh; discriminate))
      as [HK Hkeys].
    assert (HL : Forall (fun k => 0 <= k /\ In k (PyDict.keys sh))
                        (PyDict.sorted sh)).
    { apply Forall_forall. intros k Hk. apply sorted_in in Hk.
      split; [|exact Hk].
      rewrite Forall_forall in Hkeys. specialize (Hkeys k Hk). lia. }
    assert (Hshare :
      zsum (map (fun k => Z.quot (k * (_maxwidth t - offset - zsum ws))
                                 (zsum (PyDict.keys sh)))
                (PyDict.sorted sh))
      <= _maxwidth t - offset - zsum ws).
    { pose proof (shares_le (zsum (PyDict.keys sh))
                    (_maxwidth t - offset - zsum ws) (PyDict.sorted sh)
                    HK ltac:(lia)
                    ltac:(eapply Forall_impl; [|exact HL];
                          intros a [Ha _]; exact Ha)) as H.
      rewrite sorted_sum in H. nia. }
    destruct (redistribute_loop sh offset (_maxwidth t - offset - zsum ws)
                (zsum (PyDict.keys sh)) desired n t Hd Hsh Hshn
                ltac:(lia) HK (PyDict.sorted sh) 0 ws ltac:(lia)
                ltac:(unfold len; rewrite sorted_length; lia)
                HL Hlen Hnn ltac:(lia))
      as (ws' & Hloop & Hlen' & Hnn' & Hle & Hex').
    exists ws'. unfold enumerate. split; [exact Hloop|].
    split; [exact Hlen'|]. split; [exact Hnn'|]. split; [exact Hle|].
    intros _. apply Hex'. intros Hs.
    pose proof (sorted_length sh) as Hsl. rewrite Hs, Esh in Hsl.
    discriminate Hsl.
  + exists ws. repeat split; try assumption. intros _. lia.
Qed.

(** *** The padding added back *)

Lemma for_each_cons {A} (body : A -> M unit) (x : A) (r : list A) t :
for_each body (x :: r) t = bind (body x) (fun _ => for_each body r) t.
Proof. reflexivity. Qed.

Lemma add_padding_from (pw_all : list Z) :
forall post ppost pre ppre t,
  pw_all = ppre ++ ppost ->
  List.length post = List.length ppost ->
  len ppre = len pre ->
  Forall (Z.le 0) post -> Forall (Z.le 0) ppost ->
  for_each (fun i =>
              bind (get_width i) (fun old =>
              bind (lift (get pw_all i)) (fun p =>
              set_width i (old + p))))
           (map Z.of_nat (seq (List.length pre) (List.length post)))
           (set_widths (pre ++ post) t)
  = Return tt
      (set_widths
         (pre ++ map (fun p => fst p + snd p) (combine post ppost)) t).
Proof.
induction post as [|x post IH]; intros ppost pre ppre t Hall Hlen Hpre
                                       Hnn Hpn.
- reflexivity.
- destruct ppost as [|p ppost]; [discriminate|].
  inversion Hnn; inversion Hpn; subst.
  simpl List.length. rewrite seq_shift_cons, for_each_cons.
  change (Z.of_nat (List.length pre)) with (len pre).
  cbv beta. unfold bind at 1.
  rewrite (bind_seq _ _ _ _ _ (get_width_at pre post x t)).
  unfold bind at 1, lift at 1. rewrite <- Hpre, get_mid, Hpre.
  rewrite (set_width_at pre post x (x + p) t ltac:(lia)).
  cbn [combine map fst snd].
  rewrite (app_snoc pre (x + p) post), (app_snoc pre (x + p) (map _ _)).
  replace (S (List.length pre)) with (List.length (pre ++ [x + p]))
    by (rewrite length_app; simpl; lia).
  apply (IH ppost (pre ++ [x + p]) (ppre ++ [p])).
  + rewrite <- app_snoc. reflexivity.
  + simpl in Hlen. lia.
  + rewrite !len_snoc. lia.
  + assumption.
  + assumption.
Qed.

Lemma zsum_map_add (a b : list Z) :
List.length a = List.length b ->
zsum (map (fun p => fst p + snd p) (combine a b)) = zsum a + zsum b.
Proof.
revert b. induction a as [|x a IH]; intros [|y b] H; try discriminate.
- reflexivity.
- simpl in *. rewrite IH by lia. lia.
Qed.

Lemma add_padding_ok (ws pw : list Z) (n : Z) (t : BeautifulTable) :
len ws = n -> len pw = n ->
Forall (Z.le 0) ws -> Forall (Z.le 0) pw ->
exists ws',
  add_padding pw n (set_widths ws t) = Return tt (set_widths ws' t)
  /\ len ws' = n
  /\ zsum ws' = zsum ws + zsum pw.
Proof.
intros Hw Hp Hnw Hnp. unfold add_padding. subst n.
rewrite range_len.
assert (Hl : List.length ws = List.length pw) by (unfold len in Hp; lia).
exists (map (fun p => fst p + snd p) (combine ws pw)).
split; [|split].
- exact (add_padding_from pw ws pw [] [] t eq_refl Hl eq_refl Hnw Hnp).
- unfold len. rewrite length_map, length_combine. lia.
- apply zsum_map_add. exact Hl.
Qed.

(** *** The space the shrunk columns take *)

Lemma quot_zero_l (a : Z) : Z.quot 0 a = 0.
Proof. destruct a; reflexivity. Qed.

Lemma quot_zero_r (a : Z) : Z.quot a 0 = 0.
Proof. destruct a; reflexivity. Qed.

Lemma map_combine_map {A B C} (f : A * B -> C) (g : A -> B) (l : list A) :
map f (combine l (map g l)) = map (fun x => f (x, g x)) l.
Proof. induction l as [|x l IH]; simpl; congruence. Qed.

Lemma zsum_nonneg (l : list Z) : Forall (Z.le 0) l -> 0 <= zsum l.
Proof. induction 1; rewrite ?zsum_cons; simpl; lia. Qed.

Lemma zsum_ge_member (l : list Z) (x : Z) :
Forall (Z.le 0) l -> In x l -> x <= zsum l.
Proof.
induction 1 as [|y l Hy Hl IH]; intros Hin; [contradiction|].
rewrite zsum_cons. pose proof (zsum_nonneg l Hl) as Hs.
destruct Hin as [->|Hin]; [lia|]. specialize (IH Hin). lia.
Qed.

Lemma zsum_map_le (f g h : Z -> Z) (l : list Z) :
(forall x, In x l -> f x <= g x + h x) ->
zsum (map f l) <= zsum (map g l) + zsum (map h l).
Proof.
induction l as [|x l IH]; intros H; [simpl; lia|].
cbn [map]. rewrite !zsum_cons.
pose proof (H x (or_introl eq_refl)).
specialize (IH (fun y Hy => H y (or_intror Hy))). lia.
Qed.

Lemma excess_nonneg (fair W : Z) : 1 <= fair -> 0 <= excess fair W.
Proof. intros. unfold excess, fair_base. destruct (Z.leb_spec W fair); lia. Qed.

Lemma excess_sum (fair : Z) (mw : list Z) :
zsum (map (excess fair) mw) = zsum mw - zsum (map (fair_base fair) mw).
Proof. induction mw as [|W mw IH]; simpl in *; unfold excess in *; lia. Qed.

Lemma excess_all_nonneg (fair : Z) (mw : list Z) :
1 <= fair -> Forall (Z.le 0) (map (excess fair) mw).
Proof.
intros. apply Forall_forall. intros x Hx. apply in_map_iff in Hx.
destruct Hx as (W & <- & _). apply excess_nonneg. assumption.
Qed.

(** A column over its fair share makes [actual_space] positive. *)
Lemma unflagged_actual_pos (fair : Z) (mw : list Z) (W : Z) :
1 <= fair -> In W mw -> fair_flag fair W = 0 ->
0 < zsum mw - zsum (map (fair_base fair) mw).
Proof.
intros Hf Hin Hfl. rewrite <- excess_sum.
pose proof (zsum_ge_member (map (excess fair) mw) (excess fair W)
              (excess_all_nonneg fair mw Hf) (in_map _ _ _ Hin)) as H.
unfold excess at 1, fair_base in H. unfold fair_flag in Hfl.
destruct (Z.leb_spec W fair); [discriminate|]. lia.
Qed.

Lemma temp_sum_le (fair : Z) (mw : list Z) :
1 <= fair -> zsum (map (fair_base fair) mw) <= len mw * fair.
Proof.
intros Hf. induction mw as [|W mw IH]; [simpl; lia|].
rewrite len_cons. cbn [map]. rewrite zsum_cons. unfold fair_base at 1.
destruct (Z.leb_spec W fair); nia.
Qed.

(** After the shrink loop the widths fit the space: they take at most
    [temp_sum + avail_space]. *)
Lemma shrunk_sum_le (fair avail : Z) (mw : list Z) :
1 <= fair -> 0 <= avail -> Forall (Z.le 0) mw ->
let actual := zsum mw - zsum (map (fair_base fair) mw) in
zsum (map (fun p => shrunk_width avail actual (fst p) (snd p))
          (combine mw (map (fair_flag fair) mw)))
<= zsum (map (fair_base fair) mw) + avail.
Proof.
intros Hf Ha Hnn actual. rewrite map_combine_map. cbn [fst snd].
assert (Hact : 0 <= actual)
  by (unfold actual; rewrite <- excess_sum;
      apply zsum_nonneg, excess_all_nonneg; exact Hf).
assert (Hone : forall W, In W mw ->
          shrunk_width avail actual W (fair_flag fair W)
          <= fair_base fair W + Z.quot (excess fair W * avail) actual).
{ intros W Hin. unfold shrunk_width, excess.
  destruct (Z.eqb_spec (fair_flag fair W) 0) as [Hfl|Hfl].
  - pose proof (unflagged_actual_pos fair mw W Hf Hin Hfl) as Hpos.
    unfold fair_flag in Hfl. unfold fair_base.
    destruct (Z.leb_spec W fair); [discriminate|]. cbv zeta.
    destruct (Z.ltb_spec (1 + Z.quot ((W - 1) * avail) actual) W); [lia|].
    assert (0 <= Z.quot ((W - 1) * avail) actual)
      by (apply Z.quot_pos; fold actual in Hpos; nia).
    lia.
  - unfold fair_flag in Hfl. unfold fair_base.
    destruct (Z.leb_spec W fair); [|contradiction].
    replace (W - W) with 0 by lia. rewrite Z.mul_0_l, quot_zero_l.
    lia. }
assert (Hsum :
  zsum (map (fun W => shrunk_width avail actual W (fair_flag fair W)) mw)
  <= zsum (map (fair_base fair) mw)
     + zsum (map (fun e => Z.quot (e * avail) actual)
                 (map (excess fair) mw))).
{ rewrite map_map. apply zsum_map_le. exact Hone. }
destruct (Z.eq_dec actual 0) as [H0|H0].
- assert (Hz : zsum (map (fun e => Z.quot (e * avail) actual)
                         (map (excess fair) mw)) = 0).
  { rewrite H0. clear. induction (map (excess fair) mw) as [|e l IHl];
      [reflexivity|].
    cbn [map]. rewrite zsum_cons, quot_zero_r, IHl. reflexivity. }
  lia.
- pose proof (shares_le actual avail (map (excess fair) mw)
                ltac:(lia) Ha (excess_all_nonneg fair mw Hf)) as H.
  rewrite excess_sum in H. fold actual in H. nia.
Qed.

(** *** The allocation as a whole *)

Lemma calculate_width_unfold (t : BeautifulTable) (pw mw : list Z) :
pad_widths_of (Columns.padding_left (columns t))
              (Columns.padding_right (columns t))
              (range (columns_len t)) = Ok pw ->
res_bind (header_maxwidths t (repeat_list [0] (columns_len t)))
         (data_maxwidths t) = Ok mw ->
let offset := width t - zsum (Columns.width (columns t)) + zsum pw in
_calculate_width t
= allocate (columns_len t) offset pw mw
    (with_maxwidth (Z.max (_maxwidth t) (offset + columns_len t)) t).
Proof.
intros Hpw Hmw offset. unfold _calculate_width.
unfold bind at 1, gets at 1, id.
unfold bind at 1, lift at 1. rewrite Hpw.
unfold bind at 1, modify at 1.
unfold bind at 1, lift at 1.
destruct (header_maxwidths t (repeat_list [0] (columns_len t))) as [m1|e];
  [|discriminate].
simpl res_bind in Hmw.
unfold bind at 1, lift at 1. rewrite Hmw.
reflexivity.
Qed.

(** With at least one column the offset is the borders plus the padding,
    whatever the widths are. *)
Lemma width_minus_widths (t : BeautifulTable) :
well_formed t ->
width t - zsum (Columns.width (columns t))
= if columns_len t =? 0 then 0 else borders t.
Proof.
intros (Hn & _ & _ & Hw & _). unfold width, borders, columns_len in *.
destruct (Z.eqb_spec (_ncol t) 0) as [H0|H0].
- rewrite H0 in Hw. apply len_zero_nil in Hw. rewrite Hw. reflexivity.
- lia.
Qed.

Lemma fair_share_ge_1 (desired n : Z) :
1 <= n -> n <= desired -> 1 <= Z.quot desired n /\ n * Z.quot desired n <= desired.
Proof.
intros Hn Hd. rewrite Z.quot_div_nonneg by lia. split.
- apply Z.div_le_lower_bound; lia.
- apply Z.mul_div_le. lia.
Qed.

(** The allocation starts by overwriting every width: it runs the shrink
    loop to its closed form, whatever the widths were before. *)
Lemma allocate_unfold (n offset : Z) (pw mw ws0 : list Z)
    (t : BeautifulTable) :
len mw = n -> Forall (Z.le 0) mw -> len ws0 = n ->
n <= _maxwidth t - offset ->
let desired := _maxwidth t - offset in
let fair := Z.quot desired n in
let temp := zsum (map (fair_base fair) mw) in
let flag := map (fair_flag fair) mw in
allocate n offset pw mw (set_widths ws0 t)
= bind (redistribute offset
          (shrunk_dict (desired - temp) (zsum mw - temp) 0 mw flag []))
       (fun _ => add_padding pw n)
       (set_widths
          (map (fun p => shrunk_width (desired - temp) (zsum mw - temp)
                                      (fst p) (snd p))
               (combine mw flag)) t)
/\ 0 <= desired - temp
/\ (mw <> [] -> 1 <= fair)
/\ (forall W f, In (W, f) (combine mw flag) -> f = 0 ->
      0 <= Z.quot ((W - 1) * (desired - temp)) (zsum mw - temp)).
Proof.
intros Hmw Hnn Hws Hd desired fair temp flag.
assert (Hfacts : mw <> [] -> 1 <= fair /\ 0 <= desired - temp).
{ intros Hne.
  assert (Hn1 : 1 <= n).
  { destruct mw; [contradiction|]. rewrite len_cons in Hmw.
    pose proof (len_nonneg mw). lia. }
  destruct (fair_share_ge_1 desired n Hn1 Hd) as [Hf Hm].
  split; [exact Hf|].
  pose proof (temp_sum_le fair mw Hf) as Ht. rewrite Hmw in Ht.
  unfold temp. lia. }
assert (Hok : forall W f, In (W, f) (combine mw flag) -> f = 0 ->
          zsum mw - temp <> 0
          /\ 0 <= Z.quot ((W - 1) * (desired - temp)) (zsum mw - temp)).
{ intros W f Hin Hf0.
  assert (Hne : mw <> []) by (intros ->; contradiction).
  destruct (Hfacts Hne) as [Hfair Havail].
  unfold flag in Hin. apply in_combine_l in Hin as HinW.
  assert (Hfeq : f = fair_flag fair W).
  { clear - Hin. induction mw as [|x mw IH]; [contradiction|].
    simpl in Hin. destruct Hin as [H|H]; [congruence|auto]. }
  rewrite Hfeq in Hf0.
  pose proof (unflagged_actual_pos fair mw W Hfair HinW Hf0) as Hpos.
  fold temp in Hpos. split; [lia|].
  assert (1 <= W).
  { unfold fair_flag in Hf0. destruct (Z.leb_spec W fair);
      [discriminate|lia]. }
  apply Z.quot_pos; nia. }
split; [|split; [|split]].
- unfold allocate. unfold bind at 1, gets at 1, id.
  change (_maxwidth (set_widths ws0 t)) with (_maxwidth t).
  rewrite (fair_share_flags_closed _ n mw Hmw).
  unfold bind at 1, lift at 1. cbn [fst snd].
  fold desired. fold fair. fold temp. fold flag.
  unfold shrink_columns, enumerate.
  pose proof (shrink_loop_closed (desired - temp) (zsum mw - temp)
                mw flag [] ws0 [] [] t) as Hloop.
  cbn [app] in Hloop. change (len (@nil Z)) with 0 in Hloop.
  rewrite (bind_seq _ _ _ _ _
             (Hloop ltac:(unfold len in *; lia)
                    ltac:(unfold flag; rewrite length_map; reflexivity)
                    eq_refl Hnn
                    (fun W f Hin Hf0 =>
                       match Hok W f Hin Hf0 with
                       | conj Ha Hq =>
                           conj Ha (Z.add_nonneg_nonneg 1 _ Z.le_0_1 Hq)
                       end))).
  reflexivity.
- destruct mw as [|W mw'].
  + unfold temp. simpl. rewrite len_nil in Hmw. lia.
  + apply Hfacts. discriminate.
- intros Hne. apply Hfacts. exact Hne.
- intros W f Hin Hf0. apply (Hok W f Hin Hf0).
Qed.

Lemma shrunk_width_nonneg (avail actual W fl : Z) :
0 <= W -> (fl = 0 -> 0 <= Z.quot ((W - 1) * avail) actual) ->
0 <= shrunk_width avail actual W fl.
Proof.
intros HW Hq. unfold shrunk_width.
destruct (Z.eqb_spec fl 0) as [H0|H0]; [|exact HW].
specialize (Hq H0). cbv zeta.
destruct (Z.ltb_spec (1 + Z.quot ((W - 1) * avail) actual) W); lia.
Qed.

(** The allocation returns; it leaves one width per column, together at
    most the space to fill plus the padding; and it does not depend on the
    widths it starts from. *)
Lemma allocate_ok (n offset : Z) (pw mw ws0 : list Z) (t : BeautifulTable) :
len mw = n -> Forall (Z.le 0) mw ->
len pw = n -> Forall (Z.le 0) pw ->
len ws0 = n ->
n <= _maxwidth t - offset ->
exists ws',
  allocate n offset pw mw (set_widths ws0 t) = Return tt (set_widths ws' t)
  /\ len ws' = n
  /\ zsum ws' <= _maxwidth t - offset + zsum pw
  /\ (forall ws1, len ws1 = n ->
        allocate n offset pw mw (set_widths ws1 t)
        = Return tt (set_widths ws' t)).
Proof.
intros Hmw Hnn Hpw Hpn Hws Hd.
destruct (allocate_unfold n offset pw mw ws0 t Hmw Hnn Hws Hd)
  as (Hun & Havail & Hfair & Hq).
cbv zeta in Hun, Havail, Hfair, Hq.
set (desired := _maxwidth t - offset) in *.
set (fair := Z.quot desired n) in *.
set (temp := zsum (map (fair_base fair) mw)) in *.
set (flag := map (fair_flag fair) mw) in *.
set (S := map (fun p => shrunk_width (desired - temp) (zsum mw - temp)
                                     (fst p) (snd p))
              (combine mw flag)) in *.
set (sh := shrunk_dict (desired - temp) (zsum mw - temp) 0 mw flag []) in *.
assert (HlenS : len S = n).
{ unfold S, len. rewrite length_map, length_combine.
  unfold flag. rewrite length_map. unfold len in Hmw. lia. }
assert (HnnS : Forall (Z.le 0) S).
{ unfold S. apply Forall_forall. intros x Hx. apply in_map_iff in Hx.
  destruct Hx as ([W f] & <- & Hin). cbn [fst snd].
  apply shrunk_width_nonneg.
  - rewrite Forall_forall in Hnn. apply Hnn.
    apply in_combine_l in Hin. exact Hin.
  - intros Hf. apply (Hq W f Hin Hf). }
assert (HsumS : zsum S <= desired).
{ destruct (list_eq_dec Z.eq_dec mw []) as [Hnil|Hne].
  - unfold S, flag. rewrite Hnil. simpl.
    rewrite Hnil, len_nil in Hmw. lia.
  - pose proof (shrunk_sum_le fair (desired - temp) mw
                  (Hfair Hne) Havail Hnn) as H.
    change (zsum S <= temp + (desired - temp)) in H. lia. }
assert (Hn0 : 0 <= n) by (rewrite <- Hmw; apply len_nonneg).
destruct (shrunk_dict_ok (desired - temp) (zsum mw - temp) n mw flag 0 []
            ltac:(lia) ltac:(lia) (Forall_nil _) Hq) as [Hshok Hshlen].
fold sh in Hshok, Hshlen.
destruct (redistribute_ok offset sh n desired S t eq_refl Hshok
            ltac:(unfold len in *; simpl in Hshlen; lia) HlenS HnnS HsumS)
  as (ws1 & Hred & Hlen1 & Hnn1 & Hsum1 & _).
destruct (add_padding_ok ws1 pw n t Hlen1 Hpw Hnn1 Hpn)
  as (ws2 & Hpad & Hlen2 & Hsum2).
assert (Htail :
  bind (redistribute offset sh) (fun _ => add_padding pw n) (set_widths S t)
  = Return tt (set_widths ws2 t)).
{ rewrite (bind_seq _ _ _ _ _ Hred). exact Hpad. }
exists ws2. split; [rewrite Hun; exact Htail|].
split; [exact Hlen2|]. split; [lia|].
intros ws1' Hws1.
destruct (allocate_unfold n offset pw mw ws1' t Hmw Hnn Hws1 Hd)
  as (Hun' & _).
cbv zeta in Hun'. rewrite Hun'. exact Htail.
Qed.

(** *** The two properties of the allocator *)

Lemma with_maxwidth_same (t : BeautifulTable) :
with_maxwidth (_maxwidth t) t = t.
Proof. destruct t. reflexivity. Qed.

Lemma well_formed_widths (t : BeautifulTable) (ws : list Z) (m : Z) :
well_formed t -> len ws = _ncol t ->
well_formed (set_widths ws (with_maxwidth m t)).
Proof.
intros (H0 & H1 & H2 & H3 & H4 & H5 & H6 & H7) Hws.
repeat split; assumption.
Qed.

(** The run of [_calculate_width] on a well-formed table: it returns, having
    raised [_maxwidth] to the least feasible width if it was below, and
    having replaced the widths by as many widths that fit. *)
Lemma calculate_width_run (t : BeautifulTable) :
well_formed t -> paddings_ok t ->
exists pw mw ws',
  let offset := width t - zsum (Columns.width (columns t)) + zsum pw in
  let M1 := Z.max (_maxwidth t) (offset + columns_len t) in
  pad_widths_of (Columns.padding_left (columns t))
                (Columns.padding_right (columns t))
                (range (columns_len t)) = Ok pw
  /\ res_bind (header_maxwidths t (repeat_list [0] (columns_len t)))
              (data_maxwidths t) = Ok mw
  /\ zsum pw = zsum (Columns.padding_left (columns t))
               + zsum (Columns.padding_right (columns t))
  /\ _calculate_width t = Return tt (set_widths ws' (with_maxwidth M1 t))
  /\ len ws' = columns_len t
  /\ zsum ws' <= M1 - offset + zsum pw
  /\ (forall ws1, len ws1 = columns_len t ->
        allocate (columns_len t) offset pw mw
                 (set_widths ws1 (with_maxwidth M1 t))
        = Return tt (set_widths ws' (with_maxwidth M1 t))).
Proof.
intros Hwf [Hpl Hpr].
pose proof Hwf as (Hn & _ & _ & Hw & Hl & Hr & _).
destruct (pad_widths_of_ok _ _ (columns_len t) Hl Hr)
  as (pw & Hpw & Hlpw & Hspw & Hnpw).
destruct (natural_widths_ok t Hwf) as (mw & Hmw & Hlmw & Hnmw).
set (offset := width t - zsum (Columns.width (columns t)) + zsum pw).
set (M1 := Z.max (_maxwidth t) (offset + columns_len t)).
destruct (allocate_ok (columns_len t) offset pw mw
            (Columns.width (columns t)) (with_maxwidth M1 t)
            Hlmw Hnmw Hlpw (Hnpw Hpl Hpr) Hw
            ltac:(change (_maxwidth (with_maxwidth M1 t)) with M1;
                  unfold M1; lia))
  as (ws' & Hrun & Hlen & Hsum & Hind).
exists pw, mw, ws'. cbv zeta. fold offset. fold M1.
split; [exact Hpw|]. split; [exact Hmw|]. split; [exact Hspw|].
split; [|split; [exact Hlen|split; [exact Hsum|exact Hind]]].
rewrite (calculate_width_unfold t pw mw Hpw Hmw). cbv zeta.
fold offset. fold M1.
rewrite <- (set_widths_same (with_maxwidth M1 t)) at 1.
exact Hrun.
Qed.

(** C4: on a table with at least one column the allocator returns (it does
    not fail on a budget that is too small: it raises [_maxwidth] to the
    least feasible width instead); afterwards the total width the table
    reports is the sum of the column widths plus the separators between
    the columns plus the two borders, and it is at most the larger of the
    configured [maxwidth] and the least width that gives every column one
    printable character and its own padding. *)
Theorem calculate_width_fits (t : BeautifulTable) :
well_formed t -> paddings_ok t -> 1 <= columns_len t ->
exists t',
  _calculate_width t = Return tt t'
  /\ width t'
     = zsum (Columns.width (columns t'))
       + (columns_len t' - 1)
         * termwidth (column_separator_char (style t'))
       + termwidth (left_border_char (style t'))
       + termwidth (right_border_char (style t'))
  /\ width t' <= Z.max (_maxwidth t) (min_feasible_width t)
  /\ _maxwidth t' = Z.max (_maxwidth t) (min_feasible_width t)
  /\ columns_len t' = columns_len t
  /\ len (Columns.width (columns t')) = columns_len t.
Proof.
intros Hwf Hpad Hn.
destruct (calculate_width_run t Hwf Hpad)
  as (pw & mw & ws' & _ & _ & Hspw & Hrun & Hlen & Hsum & _).
cbv zeta in Hrun, Hsum.
pose proof (width_minus_widths t Hwf) as Hoff.
destruct (Z.eqb_spec (columns_len t) 0) as [H0|_]; [lia|].
assert (Hmf : width t - zsum (Columns.width (columns t)) + zsum pw
              + columns_len t = min_feasible_width t)
  by (unfold min_feasible_width; lia).
rewrite Hmf in *.
eexists. split; [exact Hrun|].
assert (Hw' : width (set_widths ws'
                      (with_maxwidth
                         (Z.max (_maxwidth t) (min_feasible_width t)) t))
              = zsum ws' + borders t).
{ unfold width, borders, columns_len in *. simpl.
  destruct (Z.eqb_spec (_ncol t) 0); [lia|]. lia. }
split; [|split; [|split; [reflexivity|split; [reflexivity|exact Hlen]]]].
- rewrite Hw'. unfold borders, columns_len.
  cbn [set_widths with_columns with_maxwidth Columns.with_width columns
       Columns.width style _ncol].
  lia.
- rewrite Hw'. lia.
Qed.

(** C2: the allocator is idempotent.  On a well-formed table it returns,
    and run again on the table it leaves (same cells, headers, padding,
    separators and borders, and the budget as the first run left it) it
    returns that very table: every column width after the second run is
    the width after the first. *)
Theorem calculate_width_idempotent (t : BeautifulTable) :
well_formed t -> paddings_ok t ->
exists t1,
  _calculate_width t = Return tt t1
  /\ _calculate_width t1 = Return tt t1.
Proof.
intros Hwf Hpad.
destruct (calculate_width_run t Hwf Hpad)
  as (pw & mw & ws' & Hpw & Hmw & _ & Hrun & Hlen & _ & Hind).
cbv zeta in Hrun, Hind.
set (offset := width t - zsum (Columns.width (columns t)) + zsum pw) in *.
set (M1 := Z.max (_maxwidth t) (offset + columns_len t)) in *.
set (t1 := set_widths ws' (with_maxwidth M1 t)) in *.
exists t1. split; [exact Hrun|].
assert (Hwf1 : well_formed t1) by (apply well_formed_widths; assumption).
assert (Hoff1 : width t1 - zsum (Columns.width (columns t1)) + zsum pw
                = offset).
{ rewrite (width_minus_widths t1 Hwf1). unfold offset.
  rewrite (width_minus_widths t Hwf). reflexivity. }
rewrite (calculate_width_unfold t1 pw mw Hpw Hmw). cbv zeta.
rewrite Hoff1.
change (columns_len t1) with (columns_len t).
change (_maxwidth t1) with M1.
replace (Z.max M1 (offset + columns_len t)) with M1 by (unfold M1; lia).
change (with_maxwidth M1 t1) with t1.
apply Hind. exact Hlen.
Qed.

(* ================================================================ *)
(** ** Horizontal lines *)

Lemma repeat_list_length {A} (l : list A) (k : Z) :
List.length (repeat_list l k) = (List.length l * Z.to_nat k)%nat.
Proof.
unfold repeat_list. induction (Z.to_nat k) as [|m IH]; simpl; [lia|].
rewrite length_app, IH. lia.
Qed.

Lemma repeat_list_forallb {A} (p : A -> bool) (l : list A) (k : Z) :
forallb p l = true -> forallb p (repeat_list l k) = true.
Proof.
intros H. unfold repeat_list. induction (Z.to_nat k) as [|m IH]; simpl;
  [reflexivity|].
rewrite forallb_app, H, IH. reflexivity.
Qed.

Lemma firstn_forallb {A} (p : A -> bool) (l : list A) (n : nat) :
forallb p l = true -> forallb p (firstn n l) = true.
Proof.
revert n. induction l as [|x l IH]; intros [|n] H; simpl in *;
  try reflexivity.
apply andb_true_iff in H. destruct H as [Hx Hl].
rewrite Hx, (IH n Hl). reflexivity.
Qed.

Lemma slice_to_forallb {A} (p : A -> bool) (l : list A) (n : Z) :
forallb p l = true -> forallb p (slice_to l n) = true.
Proof.
intros H. unfold slice_to. destruct (n <? 0); apply firstn_forallb, H.
Qed.

Lemma isspace_forallb (s : pystr) :
PyStr.isspace s = true -> forallb PyStr.is_whitespace s = true.
Proof. destruct s; [discriminate|]. intros H. exact H. Qed.

(** With a blank fill the line is the fill alone: it is made of blank
    characters and no intersection is written; and it is as long as the
    table is wide when the fill takes at most one column per character. *)
Lemma horizontal_line_blank_fill (t : BeautifulTable)
    (char il im ir : pystr) :
PyStr.isspace char = true ->
exists line,
  _get_horizontal_line t char il im ir = Ok line
  /\ forallb PyStr.is_whitespace line = true
  /\ (0 < termwidth char <= len char -> 0 <= width t ->
      len line = width t).
Proof.
intros Hsp. unfold _get_horizontal_line. rewrite Hsp. cbn [negb].
set (line := match int_truediv (width t) (termwidth char) with
             | Ok q => slice_to (repeat_list char (q + 1)) (width t)
             | Err _ => repeat_list [PyStr.space] (width t)
             end).
assert (Hall : forallb PyStr.is_whitespace line = true).
{ unfold line. destruct (int_truediv (width t) (termwidth char)).
  - apply slice_to_forallb, repeat_list_forallb, isspace_forallb, Hsp.
  - apply repeat_list_forallb. reflexivity. }
assert (Hlen : 0 < termwidth char <= len char -> 0 <= width t ->
               len line = width t).
{ intros Htw Hw. unfold line.
  rewrite int_truediv_ok by lia. unfold slice_to.
  destruct (Z.ltb_spec (width t) 0); [lia|].
  unfold len. rewrite length_firstn, repeat_list_length.
  rewrite Z.quot_div_nonneg by lia.
  pose proof (Z.div_pos (width t) (termwidth char) Hw ltac:(lia)) as Hq.
  pose proof (Z.mul_succ_div_gt (width t) (termwidth char) ltac:(lia)) as Hgt.
  unfold len in Htw.
  assert (Z.of_nat (List.length char
                    * Z.to_nat (width t / termwidth char + 1))
          >= width t) by nia.
  lia. }
destruct (Z.eqb_spec (len line) 0) as [H0|H0].
- exists []. split; [reflexivity|]. split; [reflexivity|].
  intros Htw Hw. rewrite <- (Hlen Htw Hw). symmetry. exact H0.
- exists line. split; [reflexivity|]. split; [exact Hall|exact Hlen].
Qed.

(* ================================================================ *)
(** ** What the width computation and the rendering leave untouched *)

Lemma widths_only_refl (t : BeautifulTable) : widths_only t t.
Proof.
exists (Columns.width (columns t)), (_maxwidth t).
split; [reflexivity|].
destruct t as [n d rh c m st np sn snh dn sm]. destruct c. reflexivity.
Qed.

Lemma widths_only_trans (t1 t2 t3 : BeautifulTable) :
widths_only t1 t2 -> widths_only t2 t3 -> widths_only t1 t3.
Proof.
intros (ws & m & Hl & ->) (ws' & m' & Hl' & ->). exists ws', m'.
split; [|reflexivity]. rewrite Hl', <- Hl. reflexivity.
Qed.

Lemma widths_only_serialno (t0 t : BeautifulTable) :
widths_only t0 t -> serialno t = serialno t0.
Proof. intros (ws & m & _ & ->). reflexivity. Qed.

Lemma widths_only_data (t0 t : BeautifulTable) :
widths_only t0 t -> _data t = _data t0.
Proof. intros (ws & m & _ & ->). reflexivity. Qed.

Section Keeps.
Variable t0 : BeautifulTable.

Lemma keeps_ret {A} (a : A) : keeps_content t0 (ret a).
Proof. intros t H. exact H. Qed.

Lemma keeps_raise {A} (e : exn) : keeps_content t0 (@raise A e).
Proof. intros t H. exact H. Qed.

Lemma keeps_lift {A} (r : res A) : keeps_content t0 (lift r).
Proof. intros t H. unfold lift. destruct r; exact H. Qed.

Lemma keeps_gets {A} (f : BeautifulTable -> A) : keeps_content t0 (gets f).
Proof. intros t H. exact H. Qed.

Lemma keeps_bind {A B} (m : M A) (f : A -> M B) :
keeps_content t0 m -> (forall a, keeps_content t0 (f a)) ->
keeps_content t0 (bind m f).
Proof.
intros Hm Hf t H. unfold bind. specialize (Hm t H).
destruct (m t) as [a t1|e t1]; simpl in Hm.
- apply Hf. exact Hm.
- exact Hm.
Qed.

(** After [t <- gets id], [t] is the current table. *)
Lemma keeps_bind_gets {B} (k : BeautifulTable -> M B) :
(forall t, widths_only t0 t -> keeps_content t0 (k t)) ->
keeps_content t0 (bind (gets id) k).
Proof. intros Hk t H. unfold bind, gets, id. apply Hk; exact H. Qed.

Lemma keeps_modify_maxwidth (m : Z) : keeps_content t0 (modify (with_maxwidth m)).
Proof.
intros t H. simpl. eapply widths_only_trans; [exact H|].
exists (Columns.width (columns t)), m. split; [reflexivity|].
rewrite set_widths_same. reflexivity.
Qed.

Lemma set_length {A} (l l' : list A) (i : Z) (x : A) :
set l i x = Ok l' -> len l' = len l.
Proof.
assert (Hn : forall n, (n < List.length l)%nat ->
          List.length (firstn n l ++ x :: skipn (S n) l) = List.length l).
{ intros n Hn. rewrite length_app, length_firstn, length_cons, length_skipn.
  lia. }
unfold set. destruct (norm_index (len l) i) as [j|] eqn:E; [|discriminate].
intros H. injection H as <-. unfold norm_index in E.
destruct ((0 <=? _) && (_ <? len l)) eqn:Eb; [|discriminate].
injection E as <-. apply andb_true_iff in Eb. destruct Eb as [E0 E1].
apply Z.leb_le in E0. apply Z.ltb_lt in E1.
unfold len in *. rewrite Hn; [reflexivity|lia].
Qed.

Lemma keeps_get_width (i : Z) : keeps_content t0 (get_width i).
Proof.
unfold get_width. apply keeps_bind_gets. intros t _. apply keeps_lift.
Qed.

Lemma keeps_set_width (i v : Z) : keeps_content t0 (set_width i v).
Proof.
intros t H. unfold set_width, bind, gets, id, lift, modify.
destruct (meta_setitem (Columns.width (columns t)) i v) as [ws|e] eqn:E;
  [|exact H].
simpl. eapply widths_only_trans; [exact H|].
exists ws, (_maxwidth t). split.
- unfold meta_setitem in E. destruct (v <? 0); [discriminate|].
  exact (set_length _ _ _ _ E).
- destruct t as [n d rh c m st np sn snh dn sm]. reflexivity.
Qed.

Lemma keeps_for_fold {A S} (body : S -> A -> M S) (xs : list A) :
(forall s a, keeps_content t0 (body s a)) ->
forall s, keeps_content t0 (for_fold body xs s).
Proof.
intros Hb. induction xs as [|x xs IH]; intros s; simpl.
- apply keeps_ret.
- apply keeps_bind; [apply Hb|]. intros s'. apply IH.
Qed.

Lemma keeps_for_each {A} (body : A -> M unit) (xs : list A) :
(forall a, keeps_content t0 (body a)) ->
keeps_content t0 (for_each body xs).
Proof.
intros Hb. induction xs as [|x xs IH]; simpl.
- apply keeps_ret.
- apply keeps_bind; [apply Hb|]. intros _. exact IH.
Qed.

Lemma keeps_yield_if (cond : bool) (line : BeautifulTable -> res pystr) :
keeps_content t0 (yield_if cond line).
Proof.
unfold yield_if. destruct cond; [|apply keeps_ret].
apply keeps_bind_gets. intros t _.
apply keeps_bind; [apply keeps_lift|]. intros l. apply keeps_ret.
Qed.

Lemma keeps_yield_row_separator (b : bool) :
keeps_content t0 (yield_row_separator b).
Proof.
unfold yield_row_separator. apply keeps_bind_gets. intros t _.
apply keeps_yield_if.
Qed.

End Keeps.

(** One step of a proof that a method keeps the content: the rule for the
    outermost construct of the method. *)
Ltac keeps_step :=
  first
    [ apply keeps_ret | apply keeps_raise | apply keeps_lift
    | apply keeps_gets | apply keeps_get_width | apply keeps_set_width
    | apply keeps_modify_maxwidth
    | apply keeps_yield_if | apply keeps_yield_row_separator
    | apply keeps_for_fold; intros | apply keeps_for_each; intros
    | apply keeps_bind_gets; intros
    | apply keeps_bind; [ | intros]
    | match goal with
      | |- keeps_content _ (if ?b then _ else _) => destruct b
      | |- keeps_content _ (match ?x with _ => _ end) => destruct x
      end ].

Lemma keeps_calculate_width (t0 : BeautifulTable) :
keeps_content t0 _calculate_width.
Proof.
unfold _calculate_width, shrink_columns, redistribute, add_padding.
repeat keeps_step.
- unfold shrink_step. repeat keeps_step.
- unfold redistribute_step. repeat keeps_step.
Qed.

(** X1: reading [maxwidth] returns the larger of the stored maximum and the
    width of the borders and separators plus one character per column, and
    stores it: the getter never lowers the stored value, and a second read
    returns the same value and changes nothing any more. *)
Theorem maxwidth_getter_adjusts_once (t : BeautifulTable) :
  let m := Z.max (_maxwidth t) (borders t + columns_len t) in
  maxwidth t = Return m (with_maxwidth m t)
  /\ _maxwidth t <= m
  /\ maxwidth (with_maxwidth m t) = Return m (with_maxwidth m t).
Proof.
  intros m. split; [reflexivity|]. split; [subst m; lia|].
  unfold maxwidth, bind, gets, modify, id. cbn [_maxwidth with_maxwidth style columns_len _ncol].
  fold (columns_len t). fold (borders t).
  replace (Z.max m (borders t + columns_len t)) with m by (subst m; lia).
  reflexivity.
Qed.

(** X2: [_calculate_width] changes nothing but the column widths and the
    stored maximal width: however the call ends, the table it leaves is the
    table it was given with as many widths as before and another
    [_maxwidth]; cells, headers, paddings, alignments and the column count
    are untouched. *)
Theorem calculate_width_changes_widths_only (t : BeautifulTable) :
  exists ws m,
    len ws = len (Columns.width (columns t))
    /\ final_table (_calculate_width t) = with_maxwidth m (set_widths ws t).
Proof.
  exact (keeps_calculate_width t t (widths_only_refl t)).
Qed.

(** X3: with serial numbers off, [get_string] never changes the content of
    the table: however the call ends, the table it leaves differs from the
    one it was given in the column widths and the stored maximal width at
    most. *)
Theorem get_string_keeps_content (t : BeautifulTable)
        (recalculate_width : bool) :
  serialno t = false ->
  exists ws m,
    len ws = len (Columns.width (columns t))
    /\ final_table (get_string recalculate_width t)
       = with_maxwidth m (set_widths ws t).
Proof.
  intros Hs.
  assert (H : keeps_content t (get_string recalculate_width)).
  { unfold get_string. apply keeps_bind_gets. intros t1 H1.
    destruct (rows_len t1 =? 0); [apply keeps_ret|].
    apply keeps_bind; [|intros; apply keeps_ret].
    unfold _get_string. cbn [enumerate_from for_fold].
    apply keeps_bind_gets. intros t2 H2.
    rewrite (widths_only_serialno _ _ H2), Hs. cbn [andb].
    apply keeps_bind; [apply keeps_ret|]. intros _.
    apply keeps_bind_gets. intros t3 H3.
    apply keeps_bind.
    { destruct (_ || _); [apply keeps_calculate_width|apply keeps_ret]. }
    intros _.
    apply keeps_bind_gets. intros t4 H4.
    rewrite (widths_only_serialno _ _ H4), Hs. cbn [andb].
    apply keeps_bind; [apply keeps_ret|]. intros _.
    apply keeps_bind_gets. intros t5 H5.
    apply keeps_bind; [apply keeps_yield_if|]. intros top.
    apply keeps_bind; [repeat keeps_step|]. intros head.
    apply keeps_bind; [repeat keeps_step|]. intros st.
    apply keeps_bind_gets. intros t6 H6.
    apply keeps_bind; [apply keeps_ret|]. intros st'.
    apply keeps_bind_gets. intros t7 H7.
    apply keeps_bind; [apply keeps_yield_if|]. intros bottom.
    apply keeps_bind_gets. intros t8 H8.
    rewrite (widths_only_serialno _ _ H8), Hs. cbn [andb].
    repeat keeps_step. }
  exact (H t (widths_only_refl t)).
Qed.

(* ================================================================ *)
(** ** Rows: insertion, removal and their composition *)

Lemma pop_mid {A} (pre post : list A) (x : A) :
pop (pre ++ x :: post) (len pre) = Ok (x, pre ++ post).
Proof.
unfold pop. rewrite norm_index_mid.
rewrite firstn_mid, skipn_S_mid.
rewrite nth_error_app2 by lia. rewrite Nat.sub_diag. reflexivity.
Qed.

Lemma insert_split {A} (l : list A) (i : Z) (x : A) :
0 <= i <= len l ->
exists pre post,
  l = pre ++ post /\ len pre = i /\ insert l i x = pre ++ x :: post.
Proof.
intros Hi. exists (firstn (Z.to_nat i) l), (skipn (Z.to_nat i) l).
split; [symmetry; apply firstn_skipn|]. split.
- unfold len in *. rewrite length_firstn. lia.
- unfold insert. zcases. replace (Z.min i (len l)) with i by lia. reflexivity.
Qed.

Lemma pop_insert {A} (l : list A) (i : Z) (x : A) :
0 <= i <= len l -> pop (insert l i x) i = Ok (x, l).
Proof.
intros Hi. destruct (insert_split l i x Hi) as (pre & post & -> & Hp & ->).
rewrite <- Hp. apply pop_mid.
Qed.

Lemma pop_last {A} (l : list A) (x : A) :
pop (l ++ [x]) (-1) = Ok (x, l).
Proof.
unfold pop, norm_index. rewrite len_snoc. pose proof (len_nonneg l).
destruct (Z.ltb_spec (-1) 0) as [_|]; [|lia].
replace (-1 + (len l + 1)) with (len l) by lia.
destruct (Z.leb_spec 0 (len l)) as [_|]; [|lia].
destruct (Z.ltb_spec (len l) (len l + 1)) as [_|]; [|lia].
cbn [andb]. unfold len. rewrite Nat2Z.id.
rewrite firstn_mid, skipn_S_mid.
rewrite nth_error_app2 by lia. rewrite Nat.sub_diag.
rewrite app_nil_r. reflexivity.
Qed.

Lemma len_insert {A} (l : list A) (i : Z) (x : A) :
len (insert l i x) = len l + 1.
Proof.
unfold insert, len. rewrite length_app. simpl.
rewrite length_firstn, length_skipn. lia.
Qed.

(** [rows.insert] on a table that has columns. *)
Lemma rows_insert_run (t : BeautifulTable) (index : Z) (r r' : row)
    (header : header_t) :
_ncol t <> 0 ->
BTRowData (with_rows_header (insert (rows_header t) index header) t) r
= Ok r' ->
rows_insert index r header t
= Return tt
    (with_data (insert (_data t) index r')
       (with_rows_header (insert (rows_header t) index header) t)).
Proof.
intros Hn Hr. unfold rows_insert, bind, gets, id, modify, ret, lift.
destruct (Z.eqb_spec (_ncol t) 0) as [E|_]; [contradiction|].
unfold base_insert. rewrite Hr. reflexivity.
Qed.

(** [rows.pop] by position on a table whose row [len pre] is [r]. *)
Lemma rows_pop_mid (t : BeautifulTable) (pre post : list row) (r : row)
    (hpre hpost : list header_t) (h : header_t) (i : Z) :
_data t = pre ++ r :: post ->
rows_header t = hpre ++ h :: hpost ->
pop (_data t) i = Ok (r, pre ++ post) ->
pop (rows_header t) i = Ok (h, hpre ++ hpost) ->
rows_pop (KInt i) t
= Return r (with_rows_header (hpre ++ hpost) (with_data (pre ++ post) t)).
Proof.
intros Hd Hh Hpd Hph.
assert (Hne : (len (_data t) =? 0) = false).
{ rewrite Hd, len_app, len_cons.
  pose proof (len_nonneg pre). pose proof (len_nonneg post). lia. }
unfold rows_pop, bind, gets, id, modify, ret, lift. rewrite Hne.
unfold base_pop. cbn [_canonical_key res_bind].
rewrite Hpd. cbn [snd fst]. rewrite Hph. reflexivity.
Qed.

Lemma rows_restored (t : BeautifulTable) (d : list row) (h : list header_t) :
with_rows_header (rows_header t)
  (with_data (_data t) (with_data d (with_rows_header h t))) = t.
Proof. destruct t. reflexivity. Qed.

(** X4: on a table that has columns, inserting a row at a position between
    0 and the number of rows and popping that position again returns the
    row as it was stored and leaves the table exactly as it was; the same
    holds for [append] followed by [pop()], which is what [stream] does
    with a row it does not keep.  [r'] is the row the constructor
    [BTRowData] makes of [r]. *)
Theorem rows_insert_pop_round_trip (t : BeautifulTable) (r r' : row)
        (header : header_t) :
  _ncol t <> 0 ->
  len (rows_header t) = rows_len t ->
  (forall index,
     0 <= index <= rows_len t ->
     BTRowData (with_rows_header (insert (rows_header t) index header) t) r
     = Ok r' ->
     (rows_insert index r header ;; rows_pop (KInt index)) t = Return r' t)
  /\ (BTRowData (with_rows_header (rows_header t ++ [None]) t) r = Ok r' ->
      (rows_append r header ;; rows_pop (KInt (-1))) t = Return r' t).
Proof.
  intros Hn Hlen. unfold rows_len in *. split.
  - intros index Hi Hr.
    assert (Hih : 0 <= index <= len (rows_header t)) by lia.
    rewrite (bind_seq _ _ _ _ _ (rows_insert_run t index r r' header Hn Hr)).
    destruct (insert_split (_data t) index r' Hi)
      as (pre & post & Hd & Hp & Hins).
    destruct (insert_split (rows_header t) index header Hih)
      as (hpre & hpost & Hh & Hhp & Hhins).
    rewrite (rows_pop_mid _ pre post r' hpre hpost header index).
    + rewrite <- Hd, <- Hh. apply f_equal. apply rows_restored.
    + cbn [_data with_data]. exact Hins.
    + cbn [rows_header with_data with_rows_header]. exact Hhins.
    + cbn [_data with_data]. rewrite Hins, <- Hp. apply pop_mid.
    + cbn [rows_header with_data with_rows_header].
      rewrite Hhins, <- Hhp. apply pop_mid.
  - intros Hr. unfold rows_append.
    unfold bind at 1. unfold bind at 1. unfold gets at 1, id.
    unfold rows_len.
    assert (Hins : insert (rows_header t) (len (_data t)) None
                   = rows_header t ++ [None]).
    { rewrite <- Hlen. apply insert_at_len. }
    rewrite <- Hins in Hr.
    rewrite (rows_insert_run t (len (_data t)) r r' None Hn Hr).
    rewrite insert_at_len, Hins.
    rewrite (rows_pop_mid _ (_data t) [] r' (rows_header t) [] None (-1)).
    + rewrite !app_nil_r. apply f_equal. apply rows_restored.
    + reflexivity.
    + reflexivity.
    + cbn [_data with_data]. rewrite app_nil_r. apply pop_last.
    + cbn [rows_header with_data with_rows_header]. rewrite app_nil_r.
      apply pop_last.
Qed.

Lemma insert_nil {A} (i : Z) (x : A) : insert [] i x = [x].
Proof.
unfold insert. change (len (@nil A)) with 0.
destruct (i <? 0); destruct (Z.to_nat _); reflexivity.
Qed.

Lemma pop_out_of_range {A} (l : list A) (i : Z) :
len l <= i \/ i < - len l -> pop l i = Err IndexError.
Proof.
intros H. unfold pop, norm_index. pose proof (len_nonneg l).
destruct (Z.ltb_spec i 0);
  [destruct (Z.leb_spec 0 (i + len l)); [lia|reflexivity]|].
destruct (Z.leb_spec 0 i); [|lia].
destruct (Z.ltb_spec i (len l)); [lia|reflexivity].
Qed.

Lemma pop_negative {A} (l : list A) (i : Z) :
0 <= i < len l -> pop l (i - len l) = pop l i.
Proof.
intros H. unfold pop, norm_index.
destruct (Z.ltb_spec (i - len l) 0); [|lia].
destruct (Z.ltb_spec i 0); [lia|].
replace (i - len l + len l) with i by lia. reflexivity.
Qed.

Lemma repeat_list_zero {A} (l : list A) : repeat_list l 0 = [].
Proof. reflexivity. Qed.

(** X5: the first row inserted into a table without columns fixes the
    columns: their number becomes the length of the row, every header is
    [None], every width 0, alignments and paddings are the defaults of the
    table, and the table holds the one row under the header given.  The
    table then satisfies the invariant of the data model, provided the row
    constructor kept the length of the row. *)
Theorem first_row_fixes_the_columns (t t' : BeautifulTable) (index : Z)
        (r : row) (header : header_t) :
  _ncol t = 0 -> _data t = [] -> rows_header t = [] ->
  rows_insert index r header t = Return tt t' ->
  let n := Z.to_nat (len r) in
  columns_len t' = len r
  /\ Columns.header (columns t') = repeat None n
  /\ Columns.width (columns t') = repeat 0 n
  /\ Columns.alignment (columns t')
     = repeat (Columns.default_alignment (columns t)) n
  /\ Columns.padding_left (columns t')
     = repeat (Columns.default_padding (columns t)) n
  /\ Columns.padding_right (columns t')
     = repeat (Columns.default_padding (columns t)) n
  /\ rows_header t' = [header]
  /\ exists r', _data t' = [r'] /\ (len r' = len r -> well_formed t').
Proof.
  intros Hn Hd Hh Hrun n.
  unfold rows_insert, bind, gets, id, modify, ret, lift in Hrun.
  rewrite Hn in Hrun. cbn [Z.eqb columns_reset_state modify] in Hrun.
  cbn [rows_header with_data with_columns with_ncol] in Hrun.
  rewrite Hh, Hd in Hrun. unfold base_insert in Hrun.
  change (len (@nil row)) with 0 in Hrun.
  rewrite repeat_list_zero, !insert_nil in Hrun.
  match type of Hrun with
  | context [BTRowData ?t1 r] => destruct (BTRowData t1 r) as [r'|e]
  end; [|discriminate].
  injection Hrun as <-.
  cbn [_data with_data with_columns with_ncol with_rows_header rows_header
       columns columns_len _ncol Columns.header Columns.width
       Columns.alignment Columns.padding_left Columns.padding_right].
  rewrite !repeat_list_single. rewrite insert_nil.
  repeat (split; [reflexivity|]).
  exists r'. split; [reflexivity|].
  intros Hr'. unfold well_formed.
  cbn [_data with_data with_columns with_ncol with_rows_header rows_header
       columns _ncol Columns.header Columns.width
       Columns.alignment Columns.padding_left Columns.padding_right].
  pose proof (len_nonneg r).
  assert (Hrep : forall {X} (x : X), len (repeat x n) = len r).
  { intros X x. unfold len. rewrite repeat_length. subst n.
    unfold len in *. lia. }
  rewrite !Hrep. repeat (split; [first [assumption|reflexivity]|]).
  split; [|reflexivity]. constructor; [exact Hr'|constructor].
Qed.

(** X6: [del rows[i]] removes the cells and the header of row [i] together
    when [i] is a position of the table, a negative index counting from
    the end; when [i] is out of range the call raises [IndexError] and the
    table is left as it was. *)
Theorem rows_delitem_by_index (t : BeautifulTable) (i : Z) :
  len (rows_header t) = rows_len t ->
  (forall pre r post hpre h hpost,
     _data t = pre ++ r :: post -> len pre = i ->
     rows_header t = hpre ++ h :: hpost -> len hpre = i ->
     rows_delitem (KInt i) t
     = Return tt (with_rows_header (hpre ++ hpost)
                    (with_data (pre ++ post) t))
     /\ rows_delitem (KInt (i - rows_len t)) t = rows_delitem (KInt i) t)
  /\ (rows_len t <= i \/ i < - rows_len t ->
      rows_delitem (KInt i) t = Raise IndexError t).
Proof.
  intros Hlen. unfold rows_len in *. split.
  - intros pre r post hpre h hpost Hd Hp Hh Hhp.
    assert (Hi : 0 <= i < len (_data t)).
    { rewrite Hd, len_app, len_cons. pose proof (len_nonneg pre).
      pose proof (len_nonneg post). lia. }
    assert (E : forall j, rows_delitem (KInt j) t
      = match pop (_data t) j with
        | Ok p => match pop (rows_header t) j with
                  | Ok q => Return tt (with_rows_header (snd q)
                                         (with_data (snd p) t))
                  | Err e => Raise e (with_data (snd p) t)
                  end
        | Err e => Raise e t
        end).
    { intros j. unfold rows_delitem, bind, gets, id, modify, lift,
        base_delitem, list_delitem. cbn [_canonical_key res_bind].
      destruct (pop (_data t) j) as [p|e]; cbn [res_bind]; [|reflexivity].
      cbn [rows_header with_data].
      destruct (pop (rows_header t) j) as [q|e]; reflexivity. }
    split.
    + rewrite E. rewrite Hd at 1. rewrite <- Hp at 1. rewrite pop_mid.
      rewrite Hh at 1. rewrite <- Hhp at 1. rewrite pop_mid. reflexivity.
    + rewrite !E. rewrite pop_negative by exact Hi.
      rewrite <- Hlen. rewrite pop_negative by (rewrite Hlen; exact Hi).
      reflexivity.
  - intros Hout. unfold rows_delitem, bind, gets, id, modify, lift,
      base_delitem, list_delitem. cbn [_canonical_key res_bind].
    rewrite (pop_out_of_range _ _ Hout). reflexivity.
Qed.

(** X7: a row cannot be deleted by its header.  [del rows[s]] for a string
    [s] that heads no row raises [KeyError] and leaves the table as it
    was; for a string that heads row [i] the cells of row [i] are removed
    and then [TypeError] is raised, because [BTRowHeader.__delitem__]
    subscripts its list with the string itself: the header list keeps all
    its entries and is one longer than the rows. *)
Theorem rows_delitem_by_header_fails (t : BeautifulTable) (s : pystr) :
  (header_index (rows_header t) s = Err KeyError ->
   rows_delitem (KStr s) t = Raise KeyError t)
  /\ (forall pre r post,
        header_index (rows_header t) s = Ok (len pre) ->
        _data t = pre ++ r :: post ->
        rows_delitem (KStr s) t
        = Raise TypeError (with_data (pre ++ post) t)
        /\ rows_header (with_data (pre ++ post) t) = rows_header t).
Proof.
  split.
  - intros H. unfold rows_delitem, bind, gets, id, lift, base_delitem.
    cbn [_canonical_key]. rewrite H. reflexivity.
  - intros pre r post H Hd. split; [|reflexivity].
    unfold rows_delitem, bind, gets, id, modify, lift, base_delitem.
    cbn [_canonical_key]. rewrite H. cbn [res_bind list_delitem].
    rewrite Hd at 1. rewrite pop_mid. reflexivity.
Qed.

(* ================================================================ *)
(** ** Columns: insertion, removal and their composition *)

Lemma pop_nth {A} (l : list A) (i : Z) (d : A) :
0 <= i < len l -> pop l i = Ok (nth (Z.to_nat i) l d, without i l).
Proof.
intros H. unfold pop, norm_index, without.
destruct (Z.ltb_spec i 0); [lia|].
destruct (Z.leb_spec 0 i); [|lia].
destruct (Z.ltb_spec i (len l)); [|lia]. cbn [andb].
rewrite (nth_error_nth' l d) by (unfold len in H; lia). reflexivity.
Qed.

Lemma len_without {A} (l : list A) (i : Z) :
0 <= i < len l -> len (without i l) = len l - 1.
Proof.
intros H. unfold without, len in *.
rewrite length_app, length_firstn, length_skipn. lia.
Qed.

Lemma without_insert {A} (l : list A) (i : Z) (x : A) :
0 <= i <= len l -> without i (insert l i x) = l.
Proof.
intros H. destruct (insert_split l i x H) as (pre & post & -> & Hp & ->).
unfold without. replace (Z.to_nat i) with (List.length pre)
  by (unfold len in Hp; lia).
rewrite firstn_mid, skipn_S_mid. reflexivity.
Qed.

Lemma nth_insert {A} (l : list A) (i : Z) (x d : A) :
0 <= i <= len l -> nth (Z.to_nat i) (insert l i x) d = x.
Proof.
intros H. destruct (insert_split l i x H) as (pre & post & -> & Hp & ->).
replace (Z.to_nat i) with (List.length pre) by (unfold len in Hp; lia).
rewrite app_nth2 by lia. rewrite Nat.sub_diag. reflexivity.
Qed.

Lemma base_pop_canonical {A} (h : list header_t) (l : list A) (k : key)
    (i : Z) :
_canonical_key h k = Ok (KInt i) -> base_pop h l k = pop l i.
Proof. intros H. unfold base_pop. rewrite H. reflexivity. Qed.

Lemma base_delitem_canonical {A} (h : list header_t) (l : list A) (k : key)
    (i : Z) :
_canonical_key h k = Ok (KInt i) ->
base_delitem h l k = res_bind (pop l i) (fun p => Ok (snd p)).
Proof. intros H. unfold base_delitem. rewrite H. reflexivity. Qed.

(** [del columns[k]] and [columns.pop(k)] up to their common tail, for a
    key that stands for the column [i]. *)
Lemma columns_remove_run (t : BeautifulTable) (k : key) (i : Z) :
well_formed t ->
_canonical_key (Columns.header (columns t)) k = Ok (KInt i) ->
0 <= i < _ncol t ->
let t1 := with_columns (columns_without i (columns t))
            (with_data (map (without i) (_data t)) t) in
columns_delitem k t = columns_sync_ncol t1
/\ columns_pop k t
   = bind columns_sync_ncol
       (fun _ => ret (map (fun r => nth (Z.to_nat i) r VNone) (_data t))) t1.
Proof.
intros (_ & Hh & Ha & Hw & Hl & Hr & Hd & _) Hk Hi.
assert (Hrows : forall r, In r (_data t) -> 0 <= i < len r).
{ intros r Hin. rewrite Forall_forall in Hd. rewrite (Hd r Hin). exact Hi. }
assert (Hn0 : (_ncol t =? 0) = false) by lia.
rewrite <- Hh in Hi.
assert (Hia := Hi). rewrite Hh, <- Ha in Hia.
assert (Hiw := Hi). rewrite Hh, <- Hw in Hiw.
assert (Hil := Hi). rewrite Hh, <- Hl in Hil.
assert (Hir := Hi). rewrite Hh, <- Hr in Hir.
destruct t as [ncol data rh c mw st np sn snh dn sm].
destruct c as [hd hal al wd pdl pdr wep pc dal dp].
cbn [_ncol _data columns Columns.header Columns.alignment Columns.width
     Columns.padding_left Columns.padding_right] in *.
split.
- assert (Hkd : k <> KOther) by (intros ->; discriminate).
  unfold columns_delitem.
  assert (E : forall X, match k with KOther => raise TypeError | _ => X end
                        = X :> M unit).
  { intros X. destruct k; try reflexivity. contradiction. }
  rewrite E. clear E.
  do 4 (erewrite bind_seq;
        [|apply update_columns_ok; unfold del_in; cbn;
          rewrite (base_delitem_canonical _ _ _ _ Hk);
          erewrite pop_nth by eassumption; reflexivity]).
  unfold bind at 1, gets at 1, id.
  erewrite bind_seq;
    [|apply (for_rows_all _ (fun r => (tt, without i r)));
      intros r Hin; unfold del_in; cbn;
      rewrite (base_delitem_canonical _ _ _ _ Hk);
      rewrite (pop_nth r i VNone) by (apply Hrows; exact Hin);
      reflexivity].
  erewrite bind_seq;
    [|apply update_columns_ok; unfold del_in; cbn;
      rewrite (base_delitem_canonical _ _ _ _ Hk);
      erewrite pop_nth by eassumption; reflexivity].
  reflexivity.
- unfold columns_pop.
  assert (E : forall X, match k with
                        | KInt _ | KStr _ => X
                        | _ => raise TypeError
                        end = X :> M (list value)).
  { intros X. destruct k; try reflexivity; discriminate. }
  rewrite E. clear E.
  unfold bind at 1, gets at 1, id. cbn [_ncol]. rewrite Hn0.
  erewrite bind_seq;
    [|apply (for_rows_all _ (fun r => (nth (Z.to_nat i) r VNone,
                                       without i r)));
      intros r Hin; unfold pop_in; cbn;
      rewrite (base_pop_canonical _ _ _ _ Hk);
      apply pop_nth, Hrows; exact Hin].
  do 5 (erewrite bind_seq;
        [|apply update_columns_ok; unfold pop_in; cbn;
          rewrite (base_pop_canonical _ _ _ _ Hk);
          erewrite pop_nth by eassumption; reflexivity]).
  reflexivity.
Unshelve. all: first [exact ALIGN_LEFT | exact 0 | exact None].
Qed.

Lemma columns_sync_ncol_keeps (t : BeautifulTable) :
len (Columns.header (columns t)) <> 0 ->
columns_sync_ncol t
= Return tt (with_ncol (len (Columns.header (columns t))) t).
Proof.
intros H. unfold columns_sync_ncol, bind, modify, gets, id.
cbn [_ncol with_ncol].
destruct (Z.eqb_spec (len (Columns.header (columns t))) 0); [contradiction|].
reflexivity.
Qed.

Lemma Forall_map_without (n i : Z) (data : list row) :
0 <= i < n ->
Forall (fun r => len r = n) data ->
Forall (fun r => len r = n - 1) (map (without i) data).
Proof.
intros Hi H. induction H as [|r data Hr _ IH]; constructor; [|exact IH].
rewrite len_without; lia.
Qed.

Lemma len_map {A B} (f : A -> B) (l : list A) : len (map f l) = len l.
Proof. unfold len. rewrite length_map. reflexivity. Qed.

(** X8: on a table with at least two columns, [del columns[k]] and
    [columns.pop(k)], [k] being the position [i] of a column or a header
    that first occurs at position [i], remove the column in lockstep: the
    cell [i] of every row and the entry [i] of the header, the width, the
    alignment and the two paddings.  Both leave the same table, which has
    one column less, the same number of rows, and satisfies the invariant
    of the data model; [pop] returns the cells removed, in row order. *)
Theorem columns_removed_in_lockstep (t : BeautifulTable) (k : key) (i : Z) :
  well_formed t ->
  2 <= columns_len t ->
  _canonical_key (Columns.header (columns t)) k = Ok (KInt i) ->
  0 <= i < columns_len t ->
  let t' := with_ncol (columns_len t - 1)
              (with_columns (columns_without i (columns t))
                 (with_data (map (without i) (_data t)) t)) in
  columns_delitem k t = Return tt t'
  /\ columns_pop k t
     = Return (map (fun r => nth (Z.to_nat i) r VNone) (_data t)) t'
  /\ well_formed t'
  /\ rows_len t' = rows_len t.
Proof.
  intros Hwf H2 Hk Hi t'. unfold columns_len in *.
  destruct (columns_remove_run t k i Hwf Hk Hi) as (Hdel & Hpop).
  destruct Hwf as (Hn & Hh & Ha & Hw & Hl & Hr & Hd & Hrh).
  assert (Hlen : len (without i (Columns.header (columns t))) = _ncol t - 1).
  { rewrite len_without; lia. }
  split; [|split; [|split]].
  - rewrite Hdel, columns_sync_ncol_keeps;
      cbn [columns with_columns columns_without Columns.header];
      rewrite Hlen; [reflexivity|lia].
  - rewrite Hpop. unfold bind. rewrite columns_sync_ncol_keeps;
      cbn [columns with_columns columns_without Columns.header];
      rewrite Hlen; [reflexivity|lia].
  - subst t'. unfold well_formed.
    cbn [_ncol _data rows_header columns with_ncol with_columns with_data
         columns_without Columns.header Columns.alignment Columns.width
         Columns.padding_left Columns.padding_right].
    rewrite !len_without by lia. rewrite len_map.
    repeat (split; [lia|]). split; [|exact Hrh].
    apply Forall_map_without; assumption.
  - subst t'. unfold rows_len. cbn [_data with_ncol with_columns with_data].
    apply len_map.
Qed.

Lemma insert_items_full (index : Z) (column : list value) :
forall rows,
  (List.length rows <= List.length column)%nat ->
  insert_items index rows column
  = (map (fun p => insert (fst p) index (snd p)) (combine rows column),
     len rows).
Proof.
unfold base_insert.
induction column as [|x xs IH]; intros rows Hlen.
- destruct rows; [reflexivity|simpl in Hlen; lia].
- destruct rows as [|r rs]; [reflexivity|].
  cbn [insert_items]. rewrite IH by (simpl in Hlen; lia).
  cbn [combine map fst snd]. unfold base_insert. rewrite len_cons.
  reflexivity.
Qed.

(** [columns.insert] with a header and a column that is long enough, on a
    table that has columns. *)
Lemma columns_insert_run (t : BeautifulTable) (index : Z)
    (column : list value) (h : pystr) :
_ncol t <> 0 ->
rows_len t <= len column ->
columns_insert index column (Some h) t
= Return tt
    (with_columns (columns_with_new index (Some h) (columns t))
       (with_ncol (_ncol t + 1)
          (with_data (map (fun p => insert (fst p) index (snd p))
                          (combine (_data t) column)) t))).
Proof.
intros Hn Hlen. unfold columns_insert.
unfold bind at 1, gets at 1, id.
destruct (Z.eqb_spec (_ncol t) 0) as [|_]; [contradiction|].
rewrite insert_items_full by (unfold rows_len, len in Hlen; lia).
fold (rows_len t). rewrite Z.eqb_refl.
unfold bind, modify, base_insert.
destruct t as [ncol data rh c mw st np sn snh dn sm].
destruct c as [hd hal al wd pdl pdr wep pc dal dp]. reflexivity.
Qed.

Lemma combine_fst_full {A B} (a : list A) (b : list B) :
(List.length a <= List.length b)%nat -> map fst (combine a b) = a.
Proof.
revert b. induction a as [|x a IH]; intros b H; [reflexivity|].
destruct b as [|y b]; [simpl in H; lia|]. simpl. rewrite IH; [reflexivity|].
simpl in H. lia.
Qed.

Lemma combine_snd_full {A B} (a : list A) (b : list B) :
(List.length a <= List.length b)%nat ->
map snd (combine a b) = firstn (List.length a) b.
Proof.
revert b. induction a as [|x a IH]; intros b H; [reflexivity|].
destruct b as [|y b]; [simpl in H; lia|]. simpl. rewrite IH; [reflexivity|].
simpl in H. lia.
Qed.

Lemma columns_insert_wf (t : BeautifulTable) (index : Z)
    (column : list value) (h : header_t) :
well_formed t ->
rows_len t <= len column ->
well_formed
  (with_columns (columns_with_new index h (columns t))
     (with_ncol (_ncol t + 1)
        (with_data (map (fun p => insert (fst p) index (snd p))
                        (combine (_data t) column)) t)))
/\ len (combine (_data t) column) = len (_data t).
Proof.
intros (Hn & Hh & Ha & Hw & Hl & Hr & Hd & Hrh) Hlen.
assert (Hc : len (combine (_data t) column) = len (_data t)).
{ unfold rows_len in *. unfold len in *. rewrite length_combine. lia. }
split; [|exact Hc].
unfold well_formed.
cbn [_ncol _data rows_header columns with_ncol with_columns with_data
     columns_with_new Columns.header Columns.alignment Columns.width
     Columns.padding_left Columns.padding_right].
rewrite !len_insert. rewrite len_map.
unfold row in *. rewrite Hc.
repeat (split; [lia|]). split; [|exact Hrh].
rewrite Forall_forall in *. intros r' Hin.
apply in_map_iff in Hin. destruct Hin as ((r & x) & <- & Hin).
cbn [fst snd]. rewrite len_insert.
rewrite (Hd r (in_combine_l _ _ _ _ Hin)). reflexivity.
Qed.

(** X9: [columns.insert] with a string header and a column that has at
    least as many items as the table has rows returns: every row gets the
    item of its position as a new cell at [index], the items beyond the
    last row are ignored, the header, the width 0 and the default
    alignment and paddings are inserted at [index], the column count grows
    by one, and the invariant of the data model is kept. *)
Theorem columns_insert_adds_a_cell_to_every_row (t : BeautifulTable)
        (index : Z) (column : list value) (h : pystr) :
  well_formed t ->
  1 <= columns_len t ->
  rows_len t <= len column ->
  exists t',
    columns_insert index column (Some h) t = Return tt t'
    /\ columns_len t' = columns_len t + 1
    /\ _data t' = map (fun p => insert (fst p) index (snd p))
                      (combine (_data t) column)
    /\ rows_len t' = rows_len t
    /\ rows_header t' = rows_header t
    /\ columns t' = columns_with_new index (Some h) (columns t)
    /\ well_formed t'.
Proof.
  intros Hwf H1 Hlen. unfold columns_len in *.
  destruct (columns_insert_wf t index column (Some h) Hwf Hlen)
    as (Hwf' & Hc).
  eexists. split; [apply columns_insert_run; [lia|exact Hlen]|].
  split; [reflexivity|]. split; [reflexivity|].
  split; [unfold rows_len; cbn [_data with_columns with_ncol with_data];
          rewrite len_map; exact Hc|].
  split; [reflexivity|]. split; [reflexivity|]. exact Hwf'.
Qed.

Lemma map_map_combine_insert (index n : Z) (data : list row)
    (column : list value) :
0 <= index <= n ->
Forall (fun r => len r = n) data ->
(List.length data <= List.length column)%nat ->
map (without index)
    (map (fun p => insert (fst p) index (snd p)) (combine data column))
= data
/\ map (fun r => nth (Z.to_nat index) r VNone)
       (map (fun p => insert (fst p) index (snd p)) (combine data column))
   = firstn (List.length data) column.
Proof.
intros Hi Hd. revert column.
induction Hd as [|r data Hr _ IH]; intros column Hlen.
- split; reflexivity.
- destruct column as [|x xs]; [simpl in Hlen; lia|].
  destruct (IH xs) as (E1 & E2); [simpl in Hlen; lia|].
  cbn [combine map fst snd List.length firstn].
  rewrite E1, E2, without_insert, nth_insert by lia.
  split; reflexivity.
Qed.

Lemma columns_without_with_new (index n : Z) (h : header_t)
    (c : Columns.t) :
0 <= index <= n ->
len (Columns.header c) = n -> len (Columns.alignment c) = n ->
len (Columns.width c) = n -> len (Columns.padding_left c) = n ->
len (Columns.padding_right c) = n ->
columns_without index (columns_with_new index h c) = c.
Proof.
intros Hi Hh Ha Hw Hl Hr. destruct c. unfold columns_without, columns_with_new.
cbn [Columns.header Columns.alignment Columns.width Columns.padding_left
     Columns.padding_right Columns.header_alignment
     Columns.width_exceed_policy Columns._pad_character
     Columns.default_alignment Columns.default_padding] in *.
rewrite !without_insert by lia. reflexivity.
Qed.

(** X10: inserting a column at a position between 0 and the number of
    columns and popping that position again gives back the items that were
    inserted, one per row, and leaves the table exactly as it was: cells,
    headers, widths, alignments, paddings and the column count. *)
Theorem columns_insert_pop_round_trip (t : BeautifulTable) (index : Z)
        (column : list value) (h : pystr) :
  well_formed t ->
  1 <= columns_len t ->
  rows_len t <= len column ->
  0 <= index <= columns_len t ->
  (columns_insert index column (Some h) ;; columns_pop (KInt index)) t
  = Return (firstn (Z.to_nat (rows_len t)) column) t.
Proof.
  intros Hwf H1 Hlen Hi. unfold columns_len in *.
  rewrite (bind_seq _ _ _ _ _
             (columns_insert_run t index column h ltac:(lia) Hlen)).
  destruct (columns_insert_wf t index column (Some h) Hwf Hlen)
    as (Hwf' & _).
  match goal with |- columns_pop _ ?x = _ => set (t1 := x) in * end.
  destruct (columns_remove_run t1 (KInt index) index Hwf' eq_refl)
    as (_ & Hpop).
  { subst t1. cbn [_ncol with_columns with_ncol]. lia. }
  rewrite Hpop. unfold bind. rewrite columns_sync_ncol_keeps.
  - destruct Hwf as (Hn & Hh & Ha & Hw & Hl & Hr & Hd & Hrh).
    subst t1.
    cbn [_data columns with_ncol with_columns with_data columns_without
         columns_with_new Columns.header Columns.alignment Columns.width
         Columns.padding_left Columns.padding_right
         Columns.header_alignment Columns.width_exceed_policy
         Columns._pad_character Columns.default_alignment
         Columns.default_padding].
    destruct (map_map_combine_insert index (_ncol t) (_data t) column
                Hi Hd) as (E1 & E2).
    { unfold rows_len, len in Hlen. lia. }
    rewrite E1, E2.
    rewrite (columns_without_with_new index (_ncol t)) by assumption.
    rewrite without_insert by lia.
    rewrite Hh. unfold ret, rows_len, len.
    rewrite Nat2Z.id. f_equal.
    destruct t as [ncol data rh c mw st np sn snh dn sm]. reflexivity.
  - subst t1.
    cbn [columns with_ncol with_columns with_data columns_without
         columns_with_new Columns.header].
    destruct Hwf as (Hn & Hh & _).
    rewrite len_without by (rewrite len_insert; lia).
    rewrite len_insert. lia.
Qed.

(* ================================================================ *)
(** ** The allocator on a table that fits its budget *)

Lemma pad_widths_of_sum_from (pl pr : list Z) :
List.length pl = List.length pr ->
forall al ar,
  List.length al = List.length ar ->
  pad_widths_of (al ++ pl) (ar ++ pr)
                (map Z.of_nat (seq (List.length al) (List.length pl)))
  = Ok (sum_lists pl pr).
Proof.
revert pr. induction pl as [|a pl IH]; intros [|b pr] Hlen al ar Hal;
  try discriminate.
- reflexivity.
- simpl List.length. rewrite seq_shift_cons, pad_widths_of_cons.
  change (Z.of_nat (List.length al)) with (len al).
  rewrite get_mid.
  replace (len al) with (len ar) by (unfold len; lia).
  rewrite get_mid. simpl res_bind.
  pose proof (IH pr ltac:(simpl in Hlen; lia) (al ++ [a]) (ar ++ [b])
                ltac:(rewrite !length_app; simpl; lia)) as Hpw.
  rewrite <- !app_snoc in Hpw.
  rewrite length_app in Hpw. simpl in Hpw.
  replace (List.length al + 1)%nat with (S (List.length al)) in Hpw by lia.
  rewrite Hpw. reflexivity.
Qed.

Lemma pad_widths_of_sum (pl pr : list Z) (n : Z) :
len pl = n -> len pr = n ->
pad_widths_of pl pr (range n) = Ok (sum_lists pl pr).
Proof.
intros Hl Hr. subst n. rewrite range_len.
exact (pad_widths_of_sum_from pl pr ltac:(unfold len in Hr; lia) [] []
         eq_refl).
Qed.

Lemma sum_lists_length (a b : list Z) :
List.length a = List.length b -> len (sum_lists a b) = len a.
Proof.
intros H. unfold sum_lists, len. rewrite length_map, length_combine. lia.
Qed.

Lemma sum_lists_nonneg (a b : list Z) :
Forall (Z.le 0) a -> Forall (Z.le 0) b -> Forall (Z.le 0) (sum_lists a b).
Proof.
intros Ha. revert b. induction Ha as [|x a Hx _ IH]; intros b Hb.
- constructor.
- destruct Hb as [|y b Hy Hb]; [constructor|].
  unfold sum_lists. cbn [combine map fst snd].
  constructor; [lia|]. apply IH. exact Hb.
Qed.

Lemma add_padding_sum (ws pw : list Z) (n : Z) (t : BeautifulTable) :
len ws = n -> len pw = n ->
Forall (Z.le 0) ws -> Forall (Z.le 0) pw ->
add_padding pw n (set_widths ws t)
= Return tt (set_widths (sum_lists ws pw) t).
Proof.
intros Hw Hp Hnw Hnp. unfold add_padding. subst n.
rewrite range_len.
assert (Hl : List.length ws = List.length pw) by (unfold len in Hp; lia).
exact (add_padding_from pw ws pw [] [] t eq_refl Hl eq_refl Hnw Hnp).
Qed.

(** A column is not shrunk when there is room for all the natural
    widths. *)
Lemma shrunk_width_kept (fair avail actual W : Z) :
1 <= fair -> actual <= avail ->
(fair_flag fair W = 0 -> 0 < actual) ->
(1 + Z.quot ((W - 1) * avail) actual <? W) = false
\/ fair_flag fair W <> 0.
Proof.
intros Hf Hav Hact. unfold fair_flag in *.
destruct (Z.leb_spec W fair) as [|Hgt]; [right; lia|left].
specialize (Hact eq_refl).
apply Z.ltb_ge.
assert (W - 1 <= Z.quot ((W - 1) * avail) actual); [|lia].
rewrite <- (Z.quot_mul (W - 1) actual) at 1 by lia.
apply Z.quot_le_mono; [lia|]. apply Z.mul_le_mono_nonneg_l; lia.
Qed.

Lemma nothing_shrunk (fair avail actual : Z) :
1 <= fair -> actual <= avail ->
forall mw i sh,
  (forall W, In W mw -> fair_flag fair W = 0 -> 0 < actual) ->
  map (fun p => shrunk_width avail actual (fst p) (snd p))
      (combine mw (map (fair_flag fair) mw)) = mw
  /\ shrunk_dict avail actual i mw (map (fair_flag fair) mw) sh = sh.
Proof.
intros Hf Hav. induction mw as [|W mw IH]; intros i sh Hact.
- split; reflexivity.
- destruct (IH (i + 1) sh (fun W' H => Hact W' (or_intror H))) as (E1 & E2).
  cbn [map combine fst snd shrunk_dict]. rewrite E1.
  unfold shrunk_width.
  destruct (shrunk_width_kept fair avail actual W Hf Hav
              (Hact W (or_introl eq_refl))) as [H|H].
  + rewrite H. rewrite andb_false_r.
    split; [destruct (_ =? 0); reflexivity|exact E2].
  + destruct (Z.eqb_spec (fair_flag fair W) 0) as [|_]; [contradiction|].
    split; [reflexivity|exact E2].
Qed.

Lemma redistribute_nothing (offset : Z) (t : BeautifulTable) :
redistribute offset [] t = Return tt t.
Proof. reflexivity. Qed.

Lemma get_split {A} (l : list A) (i : Z) (x : A) :
0 <= i -> get l i = Ok x ->
exists pre post, l = pre ++ x :: post /\ len pre = i.
Proof.
intros Hi H. unfold get, norm_index in H.
destruct (Z.ltb_spec i 0); [lia|].
destruct ((0 <=? i) && (i <? len l)); [|discriminate].
destruct (nth_error l (Z.to_nat i)) as [y|] eqn:E; [|discriminate].
injection H as ->.
apply nth_error_split in E. destruct E as (pre & post & -> & Hl).
exists pre, post. split; [reflexivity|]. unfold len. lia.
Qed.

Lemma get_in_range {A} (l : list A) (i : Z) :
0 <= i < len l -> exists x, get l i = Ok x.
Proof.
intros H. destruct (split_at l i H) as (pre & x & post & -> & <-).
exists x. apply get_mid.
Qed.

Lemma combine_app_same {A B} (a1 a2 : list A) (b1 b2 : list B) :
List.length a1 = List.length b1 ->
combine (a1 ++ a2) (b1 ++ b2) = combine a1 b1 ++ combine a2 b2.
Proof.
revert b1. induction a1 as [|x a1 IH]; intros [|y b1] H; try discriminate.
- reflexivity.
- simpl. rewrite IH by (simpl in H; lia). reflexivity.
Qed.

Lemma get_sum_lists (a b : list Z) (i x y : Z) :
0 <= i -> get a i = Ok x -> get b i = Ok y ->
get (sum_lists a b) i = Ok (x + y).
Proof.
intros Hi Ha Hb.
destruct (get_split a i x Hi Ha) as (pa & qa & -> & Hpa).
destruct (get_split b i y Hi Hb) as (pb & qb & -> & Hpb).
unfold sum_lists.
assert (Hl : List.length pa = List.length pb) by (unfold len in *; lia).
rewrite combine_app_same by exact Hl. rewrite map_app.
cbn [combine map fst snd].
replace i with (len (map (fun p => fst p + snd p) (combine pa pb))).
- apply get_mid.
- unfold len in *. rewrite length_map, length_combine. lia.
Qed.

(** The table [_calculate_width] leaves when the natural widths, the
    paddings and the borders fit the stored maximal width. *)
Lemma calculate_width_fitting (t : BeautifulTable) (mw : list Z) :
well_formed t -> paddings_ok t -> 1 <= columns_len t ->
natural_widths t = Ok mw ->
zsum mw + zsum (Columns.padding_left (columns t))
+ zsum (Columns.padding_right (columns t)) + borders t <= _maxwidth t ->
_calculate_width t
= Return tt
    (set_widths
       (sum_lists mw (sum_lists (Columns.padding_left (columns t))
                                (Columns.padding_right (columns t))))
       (with_maxwidth (Z.max (_maxwidth t) (min_feasible_width t)) t))
/\ len mw = columns_len t.
Proof.
intros Hwf [Hpl Hpr] H1 Hmw Hfit.
pose proof Hwf as (Hn & _ & _ & Hw & Hl & Hr & _).
destruct (natural_widths_ok t Hwf) as (mw' & Hmw' & Hlmw & Hnmw).
fold (natural_widths t) in Hmw'. rewrite Hmw in Hmw'.
injection Hmw' as <-. split; [|exact Hlmw].
set (pl := Columns.padding_left (columns t)) in *.
set (pr := Columns.padding_right (columns t)) in *.
assert (Hlen : List.length pl = List.length pr) by (unfold len in *; lia).
pose proof (pad_widths_of_sum pl pr (columns_len t) Hl Hr) as Hpw.
pose proof (sum_lists_nonneg pl pr Hpl Hpr) as Hnpw.
assert (Hspw : zsum (sum_lists pl pr) = zsum pl + zsum pr)
  by (apply zsum_map_add; exact Hlen).
assert (Hlpw : len (sum_lists pl pr) = columns_len t)
  by (rewrite sum_lists_length by exact Hlen; exact Hl).
rewrite (calculate_width_unfold t (sum_lists pl pr) mw Hpw Hmw). cbv zeta.
rewrite (width_minus_widths t Hwf).
destruct (Z.eqb_spec (columns_len t) 0) as [|_]; [lia|].
rewrite Hspw.
set (offset := borders t + (zsum pl + zsum pr)).
replace (offset + columns_len t) with (min_feasible_width t)
  by (unfold min_feasible_width, offset; fold pl pr; lia).
set (M1 := Z.max (_maxwidth t) (min_feasible_width t)).
set (t1 := with_maxwidth M1 t).
rewrite <- (set_widths_same t1) at 1.
assert (Hd : columns_len t <= _maxwidth t1 - offset).
{ change (_maxwidth t1) with M1. unfold M1, min_feasible_width, offset.
  fold pl pr. lia. }
destruct (allocate_unfold (columns_len t) offset (sum_lists pl pr) mw
            (Columns.width (columns t1)) t1 Hlmw Hnmw Hw Hd)
  as (Hrun & Hav & Hfair & _).
rewrite Hrun. clear Hrun.
assert (Hne : mw <> []).
{ intros ->. change (len (@nil Z)) with 0 in Hlmw. lia. }
specialize (Hfair Hne).
set (desired := _maxwidth t1 - offset) in *.
set (fair := Z.quot desired (columns_len t)) in *.
set (temp := zsum (map (fair_base fair) mw)) in *.
assert (Hroom : zsum mw - temp <= desired - temp).
{ subst desired. change (_maxwidth t1) with M1. unfold M1, offset. lia. }
destruct (nothing_shrunk fair (desired - temp) (zsum mw - temp) Hfair Hroom
            mw 0 [])
  as (E1 & E2).
{ intros W Hin Hfl. exact (unflagged_actual_pos fair mw W Hfair Hin Hfl). }
rewrite E1, E2.
unfold bind. rewrite redistribute_nothing.
apply add_padding_sum; assumption.
Qed.

(** The printable width of a column whose width is the natural width plus
    the paddings. *)
Lemma printable_width_padded (t : BeautifulTable) (mw : list Z) (m i : Z) :
len mw = _ncol t ->
len (Columns.padding_left (columns t)) = _ncol t ->
len (Columns.padding_right (columns t)) = _ncol t ->
0 <= i < _ncol t ->
printable_width
  (set_widths
     (sum_lists mw (sum_lists (Columns.padding_left (columns t))
                              (Columns.padding_right (columns t))))
     (with_maxwidth m t)) i
= get mw i.
Proof.
intros Hlmw Hl Hr Hi. unfold printable_width.
cbn [columns set_widths with_columns with_maxwidth Columns.with_width
     Columns.width Columns.padding_left Columns.padding_right].
destruct (get_in_range mw i ltac:(lia)) as (w & Hgw).
destruct (get_in_range (Columns.padding_left (columns t)) i ltac:(lia))
  as (l & Hgl).
destruct (get_in_range (Columns.padding_right (columns t)) i ltac:(lia))
  as (r & Hgr).
rewrite (get_sum_lists _ _ i w (l + r) ltac:(lia) Hgw
           (get_sum_lists _ _ i l r ltac:(lia) Hgl Hgr)).
rewrite Hgl, Hgr, Hgw. cbn [res_bind]. f_equal. lia.
Qed.

(** X11: when the natural widths of the columns, their paddings and the
    borders fit the stored maximal width, [_calculate_width] shrinks
    nothing: it returns, and every column is as wide as its natural width
    plus its two paddings, so the printable width of every column is its
    natural width. *)
Theorem calculate_width_keeps_natural_widths (t : BeautifulTable)
        (mw : list Z) :
  well_formed t -> paddings_ok t -> 1 <= columns_len t ->
  natural_widths t = Ok mw ->
  zsum mw + zsum (Columns.padding_left (columns t))
  + zsum (Columns.padding_right (columns t)) + borders t <= _maxwidth t ->
  exists t',
    _calculate_width t = Return tt t'
    /\ Columns.width (columns t')
       = sum_lists mw (sum_lists (Columns.padding_left (columns t))
                                 (Columns.padding_right (columns t)))
    /\ (forall i, 0 <= i < columns_len t ->
          printable_width t' i = get mw i).
Proof.
  intros Hwf Hp H1 Hmw Hfit.
  destruct (calculate_width_fitting t mw Hwf Hp H1 Hmw Hfit) as (Hrun & Hlmw).
  destruct Hwf as (Hn & _ & _ & Hw & Hl & Hr & _).
  eexists. split; [exact Hrun|]. split; [reflexivity|].
  intros i Hi. apply printable_width_padded; assumption.
Qed.

(* ================================================================ *)
(** ** The natural widths *)

(** The loop [for index, x in enumerate(xs): mw[index] = f(mw[index], x)]
    in closed form. *)
Lemma fold_update_closed {X} (f : Z -> X -> Z) (xs : list X) :
forall pre post,
  (List.length xs <= List.length post)%nat ->
  fold_left
    (fun acc ix =>
       res_bind acc (fun mw =>
       res_bind (get mw (fst ix)) (fun old =>
       set mw (fst ix) (f old (snd ix)))))
    (enumerate_from (len pre) xs) (Ok (pre ++ post))
  = Ok (pre ++ map (fun p => f (fst p) (snd p)) (combine post xs)
            ++ skipn (List.length xs) post).
Proof.
induction xs as [|x xs IH]; intros pre post Hlen.
- cbn [enumerate_from fold_left List.length skipn].
  rewrite combine_nil. reflexivity.
- destruct post as [|p post]; [simpl in Hlen; lia|].
  simpl enumerate_from. simpl fold_left. rewrite get_mid. simpl res_bind.
  rewrite set_mid.
  rewrite app_snoc. rewrite <- len_snoc with (x := f p x).
  rewrite (IH (pre ++ [f p x]) post) by (simpl in Hlen; lia).
  cbn [combine map fst snd List.length skipn].
  rewrite <- app_assoc. reflexivity.
Qed.

Lemma get_map_combine {X Y} (F : X * Y -> Z) (a : list X) (b : list Y)
    (rest : list Z) (i : Z) (x : X) (y : Y) :
0 <= i -> get a i = Ok x -> get b i = Ok y ->
get (map F (combine a b) ++ rest) i = Ok (F (x, y)).
Proof.
intros Hi Ha Hb.
destruct (get_split a i x Hi Ha) as (pa & qa & -> & Hpa).
destruct (get_split b i y Hi Hb) as (pb & qb & -> & Hpb).
assert (Hl : List.length pa = List.length pb) by (unfold len in *; lia).
rewrite combine_app_same by exact Hl. rewrite map_app.
cbn [combine map]. rewrite <- app_assoc. cbn [app].
replace i with (len (map F (combine pa pb))).
- apply get_mid.
- unfold len in *. rewrite length_map, length_combine. lia.
Qed.

Lemma get_nth {A} (l : list A) (i : Z) (x d : A) :
0 <= i -> get l i = Ok x -> nth (Z.to_nat i) l d = x.
Proof.
intros Hi H. destruct (get_split l i x Hi H) as (pre & post & -> & Hp).
replace (Z.to_nat i) with (List.length pre) by (unfold len in Hp; lia).
rewrite app_nth2 by lia. rewrite Nat.sub_diag. reflexivity.
Qed.

Lemma get_bounds {A} (l : list A) (i : Z) (x : A) :
0 <= i -> get l i = Ok x -> i < len l.
Proof.
intros Hi H. destruct (get_split l i x Hi H) as (pre & post & -> & Hp).
rewrite len_app, len_cons. pose proof (len_nonneg post). lia.
Qed.

Lemma get_repeat {A} (x y : A) (n : nat) (i : Z) :
0 <= i -> get (repeat x n) i = Ok y -> y = x.
Proof.
intros Hi H. rewrite <- (get_nth _ _ _ x Hi H). apply nth_repeat.
Qed.

Lemma get_map_seq {A} (g : nat -> A) (n : nat) (i : Z) :
0 <= i < Z.of_nat n -> get (map g (seq 0 n)) i = Ok (g (Z.to_nat i)).
Proof.
intros Hi.
destruct (get_in_range (map g (seq 0 n)) i) as (x & Hx).
{ unfold len. rewrite length_map, length_seq. exact Hi. }
rewrite Hx. f_equal.
rewrite <- (get_nth _ _ _ (g 0%nat) (proj1 Hi) Hx).
rewrite map_nth. rewrite seq_nth by lia. reflexivity.
Qed.

Lemma map_nth_seq {A} (l : list A) (d : A) :
l = map (fun k => nth k l d) (seq 0 (List.length l)).
Proof.
induction l as [|x l IH]; [reflexivity|].
cbn [List.length seq map nth]. f_equal.
rewrite <- seq_shift, map_map. exact IH.
Qed.

Lemma combine_map_map {A B C} (f : A -> B) (g : A -> C) (l : list A) :
combine (map f l) (map g l) = map (fun k => (f k, g k)) l.
Proof. induction l as [|x l IH]; simpl; [|rewrite IH]; reflexivity. Qed.

(** The columns of a non-empty list of rows that all have [n] cells. *)
Lemma zip_star_columns {A} (d : A) (n : nat) (rows : list (list A)) :
Forall (fun r => List.length r = n) rows -> rows <> [] ->
zip_star rows = map (fun k => map (fun r => nth k r d) rows) (seq 0 n).
Proof.
induction rows as [|r rows IH]; intros H Hne; [contradiction|].
inversion H as [|? ? Hr Hrs]; subst.
destruct rows as [|r' rows'].
- cbn [zip_star map]. rewrite (map_nth_seq r d) at 1. rewrite map_map.
  reflexivity.
- change (zip_star (r :: r' :: rows'))
    with (map (fun p => fst p :: snd p)
              (combine r (zip_star (r' :: rows')))).
  rewrite (IH Hrs) by discriminate.
  rewrite (map_nth_seq r d) at 1. rewrite combine_map_map, map_map.
  reflexivity.
Qed.

Lemma lines_fit_mono (t : BeautifulTable) (w w' : Z) (item : value) :
w <= w' -> lines_fit t w item -> lines_fit t w' item.
Proof. intros Hw H line Hin. specialize (H line Hin). lia. Qed.

Lemma max_line_width_fits (t : BeautifulTable) (m : Z) (item : value) :
lines_fit t (max_line_width t m item) item.
Proof.
unfold lines_fit, max_line_width.
generalize (PyStr.split PyStr.newline (pre_process_in t item)).
intros lines. revert m.
assert (Hge : forall ls m,
          m <= fold_left
                 (fun m l => Z.max m (termwidth (pre_process_in t (VStr l))))
                 ls m).
{ induction ls as [|l ls IH]; intros m; simpl; [lia|].
  etransitivity; [|apply IH]. lia. }
induction lines as [|l lines IH]; intros m line Hin; [contradiction|].
cbn [fold_left]. destruct Hin as [->|Hin].
- etransitivity; [|apply Hge]. lia.
- apply IH. exact Hin.
Qed.

Lemma column_width_fits (t : BeautifulTable) (column : list value) (m : Z)
    (item : value) :
In item column -> lines_fit t (fold_left (max_line_width t) column m) item.
Proof.
revert m. induction column as [|x column IH]; intros m Hin; [contradiction|].
cbn [fold_left]. destruct Hin as [->|Hin].
- eapply lines_fit_mono; [apply column_width_ge|].
  apply max_line_width_fits.
- apply IH. exact Hin.
Qed.

Lemma natural_widths_cover (t : BeautifulTable) (mw : list Z) (i w : Z) :
  well_formed t ->
  natural_widths t = Ok mw ->
  0 <= i -> get mw i = Ok w ->
  (forall h, get (Columns.header (columns t)) i = Ok h ->
             lines_fit t w (header_value h))
  /\ (forall r item, In r (_data t) -> get r i = Ok item ->
                     lines_fit t w item).
Proof.
  intros (Hn & Hh & _ & _ & _ & _ & Hd & _) Hmw Hi Hw.
  unfold natural_widths, columns_len in Hmw.
  rewrite repeat_list_single in Hmw.
  unfold header_maxwidths, enumerate in Hmw.
  pose proof (fold_update_closed
                (fun old h => old + max_line_width t 0 (header_value h))
                (Columns.header (columns t)) []
                (repeat 0 (Z.to_nat (_ncol t)))
                ltac:(rewrite repeat_length; unfold len in Hh; lia)) as H1.
  change (len (@nil Z)) with 0 in H1. cbn [app] in H1.
  rewrite H1 in Hmw. clear H1. cbn [res_bind] in Hmw.
  set (F := fun p : Z * header_t =>
              fst p + max_line_width t 0 (header_value (snd p))) in *.
  set (mw1 := map F (combine (repeat 0 (Z.to_nat (_ncol t)))
                             (Columns.header (columns t)))
              ++ skipn (List.length (Columns.header (columns t)))
                       (repeat 0 (Z.to_nat (_ncol t)))) in *.
  assert (Hl1 : len mw1 = _ncol t).
  { subst mw1. unfold len in *. rewrite length_app, length_map,
      length_combine, length_skipn, repeat_length. lia. }
  assert (Hhead : forall h w1,
            get (Columns.header (columns t)) i = Ok h ->
            get mw1 i = Ok w1 -> lines_fit t w1 (header_value h)).
  { intros h w1 Hgh Hg1.
    destruct (get_in_range (repeat 0 (Z.to_nat (_ncol t))) i) as (z & Hz).
    { unfold len. rewrite repeat_length.
      pose proof (get_bounds _ _ _ Hi Hgh). lia. }
    subst mw1. rewrite (get_map_combine F _ _ _ i z h Hi Hz Hgh) in Hg1.
    injection Hg1 as <-. apply get_repeat in Hz; [|exact Hi]. subst z.
    unfold F. cbn [fst snd]. apply max_line_width_fits. }
  unfold data_maxwidths, enumerate in Hmw.
  set (G := fun p : Z * list value =>
              fold_left (max_line_width t) (snd p) (fst p)) in *.
  destruct (_data t) as [|r0 rows] eqn:Edata.
  - cbn [zip_star enumerate_from fold_left] in Hmw. injection Hmw as <-.
    split; [|intros r item []].
    intros h Hgh. exact (Hhead h w Hgh Hw).
  - set (n := Z.to_nat (_ncol t)).
    assert (Hrows : Forall (fun r => List.length r = n) (r0 :: rows)).
    { eapply Forall_impl; [|exact Hd]. intros r Hr. cbv beta in Hr.
      subst n. unfold len in Hr. lia. }
    pose proof (zip_star_columns VNone n (r0 :: rows) Hrows
                  ltac:(discriminate)) as Hzs.
    set (cs := zip_star (r0 :: rows)) in *.
    assert (Hlcs : List.length cs = n)
      by (rewrite Hzs, length_map, length_seq; reflexivity).
    pose proof (fold_update_closed
                  (fun old column => fold_left (max_line_width t) column old)
                  cs [] mw1 ltac:(unfold len in Hl1; lia)) as H2.
    change (len (@nil Z)) with 0 in H2. cbn [app] in H2.
    rewrite H2 in Hmw. clear H2. injection Hmw as <-.
    fold G in Hw.
    assert (Hin : i < _ncol t).
    { apply get_bounds in Hw; [|exact Hi]. revert Hw. unfold len.
      rewrite length_app, length_map, length_combine, length_skipn.
      unfold len in Hl1. lia. }
    destruct (get_in_range mw1 i ltac:(lia)) as (w1 & Hg1).
    assert (Hgc : get cs i
                  = Ok (map (fun r => nth (Z.to_nat i) r VNone)
                            (r0 :: rows))).
    { rewrite Hzs. apply (get_map_seq
                            (fun k => map (fun r => nth k r VNone)
                                          (r0 :: rows))).
      subst n. lia. }
    rewrite (get_map_combine G _ _ _ i w1 _ Hi Hg1 Hgc) in Hw.
    injection Hw as <-. unfold G. cbn [fst snd]. split.
    + intros h Hgh. eapply lines_fit_mono; [apply column_width_ge|].
      exact (Hhead h w1 Hgh Hg1).
    + intros r item Hr Hgi. apply column_width_fits.
      rewrite <- (get_nth r i item VNone Hi Hgi).
      change (In (nth (Z.to_nat i) r VNone)
                 (map (fun r => nth (Z.to_nat i) r VNone) (r0 :: rows))).
      apply (in_map (fun r => nth (Z.to_nat i) r VNone)). exact Hr.
Qed.

(** X12: the natural width of a column, as [_calculate_width] computes it
    from a well-formed table, is at least the display width of every line
    of the column's header and of every line of every cell of the
    column. *)
Theorem natural_width_covers_every_line (t : BeautifulTable) (mw : list Z)
        (i w : Z) :
  well_formed t ->
  natural_widths t = Ok mw ->
  0 <= i -> get mw i = Ok w ->
  (forall h, get (Columns.header (columns t)) i = Ok h ->
             lines_fit t w (header_value h))
  /\ (forall r item, In r (_data t) -> get r i = Ok item ->
                     lines_fit t w item).
Proof.
  intros Hwf Hmw Hi Hw. exact (natural_widths_cover t mw i w Hwf Hmw Hi Hw).
Qed.

(** X13: on a table that fits its budget nothing is cut: after
    [_calculate_width], [_clamp_string] returns every line of every cell
    and of every header unchanged, whatever the delimiter of the policy
    is. *)
Theorem fitting_table_is_not_clamped (t : BeautifulTable) (mw : list Z) :
  well_formed t -> paddings_ok t -> 1 <= columns_len t ->
  natural_widths t = Ok mw ->
  zsum mw + zsum (Columns.padding_left (columns t))
  + zsum (Columns.padding_right (columns t)) + borders t <= _maxwidth t ->
  exists t',
    _calculate_width t = Return tt t'
    /\ forall i item line delimiter,
         ((exists r, In r (_data t') /\ get r i = Ok item)
          \/ (exists h, get (Columns.header (columns t')) i = Ok h
                        /\ item = header_value h)) ->
         0 <= i ->
         In line (PyStr.split PyStr.newline (pre_process_in t' item)) ->
         _clamp_string t' (pre_process_in t' (VStr line)) i delimiter
         = Ok (pre_process_in t' (VStr line)).
Proof.
  intros Hwf Hp H1 Hmw Hfit.
  destruct (calculate_width_fitting t mw Hwf Hp H1 Hmw Hfit) as (Hrun & Hlmw).
  eexists. split; [exact Hrun|].
  intros i item line delimiter Hitem Hi Hline.
  pose proof Hwf as (Hn & Hh & _ & Hw & Hl & Hr & Hd & _).
  assert (Hin : i < _ncol t).
  { destruct Hitem as [(r & Hr' & Hg)|(h & Hg & _)].
    - apply get_bounds in Hg; [|exact Hi].
      cbn [_data set_widths with_columns with_maxwidth] in Hr'.
      rewrite Forall_forall in Hd. rewrite (Hd r Hr') in Hg. exact Hg.
    - apply get_bounds in Hg; [|exact Hi].
      cbn [columns set_widths with_columns with_maxwidth Columns.with_width
           Columns.header] in Hg. lia. }
  destruct (get_in_range mw i ltac:(unfold columns_len in *; lia))
    as (w & Hgw).
  destruct (natural_widths_cover t mw i w Hwf Hmw Hi Hgw) as (Hc1 & Hc2).
  assert (Hfits : lines_fit t w item).
  { destruct Hitem as [(r & Hr' & Hg)|(h & Hg & ->)].
    - exact (Hc2 r item Hr' Hg).
    - exact (Hc1 h Hg). }
  unfold _clamp_string.
  rewrite printable_width_padded by (unfold columns_len in *; first [assumption|lia]).
  rewrite Hgw. cbn [res_bind].
  specialize (Hfits line Hline).
  change (pre_process_in
            (set_widths
               (sum_lists mw (sum_lists (Columns.padding_left (columns t))
                                        (Columns.padding_right (columns t))))
               (with_maxwidth (Z.max (_maxwidth t) (min_feasible_width t))
                              t)) (VStr line))
    with (pre_process_in t (VStr line)).
  destruct (Z.leb_spec (termwidth (pre_process_in t (VStr line))) w);
    [reflexivity|lia].
Qed.

(* ================================================================ *)
(** ** Horizontal lines span the table *)

Lemma norm_index_signed (n i : Z) :
- n <= i < n -> exists j, norm_index n i = Some j /\ (j < Z.to_nat n)%nat.
Proof.
intros H. unfold norm_index.
destruct (Z.ltb_spec i 0).
- destruct (Z.leb_spec 0 (i + n)); [|lia].
  destruct (Z.ltb_spec (i + n) n); [|lia].
  eexists. split; [reflexivity|lia].
- destruct (Z.leb_spec 0 i); [|lia].
  destruct (Z.ltb_spec i n); [|lia].
  eexists. split; [reflexivity|lia].
Qed.

Lemma get_signed {A} (l : list A) (i : Z) :
- len l <= i < len l -> exists x, get l i = Ok x.
Proof.
intros H. destruct (norm_index_signed (len l) i H) as (j & Hj & Hlt).
unfold get. rewrite Hj.
destruct (nth_error l j) as [x|] eqn:E; [exists x; reflexivity|].
apply nth_error_None in E. unfold len in Hlt. lia.
Qed.

Lemma set_signed {A} (l : list A) (i : Z) (x : A) :
- len l <= i < len l -> exists l', set l i x = Ok l' /\ len l' = len l.
Proof.
intros H. destruct (norm_index_signed (len l) i H) as (j & Hj & Hlt).
unfold set. rewrite Hj. eexists. split; [reflexivity|].
unfold len in *. rewrite length_app, length_firstn. cbn [List.length].
rewrite length_skipn. lia.
Qed.

(** A loop that overwrites positions of the line with characters of the
    glyph returns, and keeps the length of the line, when all the
    positions it touches exist. *)
Lemma overwrite_ok (pos src : Z -> Z) (glyph line : pystr) (length : Z) :
(forall i, 0 <= i < length ->
           (- len line <= pos i < len line)
           /\ (- len glyph <= src i < len glyph)) ->
exists line',
  overwrite pos src glyph length line = Ok line' /\ len line' = len line.
Proof.
intros H. unfold overwrite. rewrite range_seq.
assert (Hall : Forall (fun i => 0 <= i < length)
                      (map Z.of_nat (seq 0 (Z.to_nat length)))).
{ apply Forall_forall. intros i Hin. apply in_map_iff in Hin.
  destruct Hin as (k & <- & Hk). apply in_seq in Hk. lia. }
revert Hall. generalize (map Z.of_nat (seq 0 (Z.to_nat length))).
intros js. revert line H.
induction js as [|j js IH]; intros line H Hall.
- exists line. split; reflexivity.
- inversion Hall as [|? ? Hj Hjs]; subst.
  destruct (H j Hj) as (Hp & Hs).
  destruct (get_signed glyph (src j) Hs) as (c & Hc).
  destruct (set_signed line (pos j) c Hp) as (l1 & Hl1 & Hlen1).
  cbn [fold_left]. cbn [res_bind]. rewrite Hc. cbn [res_bind]. rewrite Hl1.
  destruct (IH l1) as (l2 & Hl2 & Hlen2).
  + intros i Hi. rewrite Hlen1. apply H. exact Hi.
  + exact Hjs.
  + exists l2. split; [exact Hl2|]. rewrite Hlen2. exact Hlen1.
Qed.

(** The fill of a horizontal line is as long as the table is wide. *)
Lemma fill_length (t : BeautifulTable) (char : pystr) :
single_width char -> 0 <= width t ->
len (match int_truediv (width t) (termwidth char) with
     | Ok q => slice_to (repeat_list char (q + 1)) (width t)
     | Err _ => repeat_list [PyStr.space] (width t)
     end) = width t.
Proof.
intros [H0 Hc] Hw. unfold int_truediv.
destruct (Z.eqb_spec (termwidth char) 0) as [E|E].
- apply len_repeat_list_single. exact Hw.
- unfold slice_to. destruct (Z.ltb_spec (width t) 0); [lia|].
  unfold len. rewrite length_firstn, repeat_list_length.
  rewrite Z.quot_div_nonneg by lia.
  pose proof (Z.div_pos (width t) (termwidth char) Hw ltac:(lia)) as Hq.
  pose proof (Z.mul_succ_div_gt (width t) (termwidth char) ltac:(lia)) as Hgt.
  unfold len in Hc.
  assert (Z.of_nat (List.length char
                    * Z.to_nat (width t / termwidth char + 1))
          >= width t) by nia.
  lia.
Qed.

Lemma zsum_firstn_le (ws : list Z) (k : nat) :
Forall (Z.le 0) ws -> 0 <= zsum (firstn k ws) <= zsum ws.
Proof.
intros H. revert k. induction H as [|x ws Hx _ IH]; intros [|k];
  cbn [firstn]; rewrite ?zsum_cons; change (zsum []) with 0.
- lia.
- lia.
- pose proof (IH 0%nat). cbn [firstn] in *. change (zsum []) with 0 in *.
  lia.
- specialize (IH k). lia.
Qed.

Lemma zsum_firstn_succ (ws : list Z) (k : nat) (x : Z) :
nth_error ws k = Some x ->
zsum (firstn (S k) ws) = zsum (firstn k ws) + x.
Proof.
revert k. induction ws as [|y ws IH]; intros [|k] H;
  try discriminate.
- injection H as ->. cbn [firstn]. rewrite !zsum_cons.
  change (zsum []) with 0. lia.
- change (firstn (S (S k)) (y :: ws)) with (y :: firstn (S k) ws).
  change (firstn (S k) (y :: ws)) with (y :: firstn k ws).
  rewrite !zsum_cons, (IH k H). lia.
Qed.

(** The loop over the column boundaries: every intersection is written
    inside the line. *)
Lemma mid_loop_ok (ws : list Z) (im : pystr) (lb sep rb length w : Z) :
Forall (Z.le 0) ws ->
0 <= lb -> 0 <= sep -> 0 <= rb ->
length <= sep -> length <= len im ->
w = zsum ws + (len ws - 1) * sep + lb + rb ->
forall (k i : nat) (line : pystr),
  (i + k + 1 = List.length ws)%nat ->
  len line = w ->
  exists p,
    fold_left
      (fun acc i =>
         res_bind acc (fun st' =>
         res_bind (get ws i) (fun wi =>
         let index := fst st' + wi in
         res_bind (overwrite (fun j => index + j) (fun j => j) im length
                             (snd st'))
                  (fun l => Ok (index + sep, l)))))
      (map Z.of_nat (seq i k))
      (Ok (lb + zsum (firstn i ws) + Z.of_nat i * sep, line))
    = Ok p
    /\ len (snd p) = w.
Proof.
intros Hws Hlb Hsep Hrb Hlen Him Hw.
induction k as [|k IH]; intros i line Hik Hline.
- eexists. split; [reflexivity|exact Hline].
- cbn [seq map fold_left]. cbn [res_bind fst snd].
  destruct (nth_error ws i) as [wi|] eqn:Ewi;
    [|apply nth_error_None in Ewi; lia].
  assert (Hget : get ws (Z.of_nat i) = Ok wi).
  { apply nth_error_split in Ewi. destruct Ewi as (pre & post & -> & <-).
    apply get_mid. }
  rewrite Hget. cbn [res_bind]. cbv zeta.
  pose proof (zsum_firstn_succ ws i wi Ewi) as Hs.
  pose proof (zsum_firstn_le ws i Hws) as Hi0.
  pose proof (zsum_firstn_le ws (S i) Hws) as Hi1.
  assert (Hwi : 0 <= wi).
  { rewrite Forall_forall in Hws. apply Hws.
    eapply nth_error_In. exact Ewi. }
  assert (Hlenws : len ws = Z.of_nat (i + S k + 1)) by (unfold len; lia).
  destruct (overwrite_ok
              (fun j => lb + zsum (firstn i ws) + Z.of_nat i * sep + wi + j)
              (fun j => j) im line length) as (l1 & Hl1 & Hlen1).
  { intros j Hj. rewrite Hline. split; [|lia].
    assert (Z.of_nat i * sep + sep <= (len ws - 1) * sep) by nia.
    lia. }
  rewrite Hl1. cbn [res_bind].
  replace (lb + zsum (firstn i ws) + Z.of_nat i * sep + wi + sep)
    with (lb + zsum (firstn (S i) ws) + Z.of_nat (S i) * sep) by lia.
  apply IH; [lia|]. rewrite Hlen1. exact Hline.
Qed.

(** X14: for a style whose fill and intersection strings have no wide
    glyph, [_get_horizontal_line] never fails: on a table with one
    non-negative width per column it returns a line that has exactly as
    many characters as the table is wide. *)
Theorem horizontal_line_spans_the_table (t : BeautifulTable)
        (char il im ir : pystr) :
  len (Columns.width (columns t)) = columns_len t ->
  Forall (Z.le 0) (Columns.width (columns t)) ->
  single_width char -> single_width il ->
  single_width im -> single_width ir ->
  0 <= termwidth (left_border_char (style t)) ->
  0 <= termwidth (column_separator_char (style t)) ->
  0 <= termwidth (right_border_char (style t)) ->
  exists line,
    _get_horizontal_line t char il im ir = Ok line
    /\ len line = width t.
Proof.
  intros Hlw Hws Hch [Hil0 Hil] [Him0 Him] [Hir0 Hir] Hlb Hsep Hrb.
  pose proof (len_nonneg (Columns.width (columns t))) as Hn.
  pose proof (zsum_nonneg _ Hws) as Hz.
  set (lb := termwidth (left_border_char (style t))) in *.
  set (sep := termwidth (column_separator_char (style t))) in *.
  set (rb := termwidth (right_border_char (style t))) in *.
  assert (Hwidth : width t
                   = if columns_len t =? 0 then 0
                     else zsum (Columns.width (columns t))
                          + (columns_len t - 1) * sep + lb + rb)
    by reflexivity.
  assert (Hw0 : 0 <= width t).
  { rewrite Hwidth. destruct (Z.eqb_spec (columns_len t) 0); [lia|].
    assert (0 <= (columns_len t - 1) * sep) by nia. lia. }
  unfold _get_horizontal_line.
  pose proof (fill_length t char Hch Hw0) as Hfill.
  set (line0 := match int_truediv (width t) (termwidth char) with
                | Ok q => slice_to (repeat_list char (q + 1)) (width t)
                | Err _ => repeat_list [PyStr.space] (width t)
                end) in *.
  destruct (Z.eqb_spec (len line0) 0) as [E0|E0].
  { exists []. split; [reflexivity|]. rewrite <- Hfill, E0. reflexivity. }
  assert (Hne : columns_len t <> 0).
  { intros E. rewrite Hwidth, E in Hfill. cbn [Z.eqb] in Hfill. lia. }
  assert (Hw : width t = zsum (Columns.width (columns t))
                         + (columns_len t - 1) * sep + lb + rb).
  { rewrite Hwidth. destruct (Z.eqb_spec (columns_len t) 0);
      [contradiction|reflexivity]. }
  assert (Hsep' : 0 <= (columns_len t - 1) * sep) by nia.
  destruct (negb (PyStr.isspace char));
    [|exists line0; split; [reflexivity|exact Hfill]].
  fold lb sep rb.
  (* the left edge *)
  assert (H1 : exists l1,
            (if (0 <? lb)
                && negb (PyStr.isspace (left_border_char (style t))
                         && negb (PyStr.isspace il))
             then overwrite (fun i => i) (fun i => i) il
                    (Z.min lb (termwidth il)) line0
             else Ok line0) = Ok l1 /\ len l1 = width t).
  { destruct (_ && _); [|exists line0; split; [reflexivity|exact Hfill]].
    destruct (overwrite_ok (fun i => i) (fun i => i) il line0
                (Z.min lb (termwidth il))) as (l1 & Hl1 & Hlen1).
    - intros i Hi. rewrite Hfill. lia.
    - exists l1. split; [exact Hl1|]. rewrite Hlen1. exact Hfill. }
  destruct H1 as (l1 & -> & Hlen1). cbn [res_bind].
  (* the right edge *)
  assert (H2 : exists l2,
            (if (0 <? rb)
                && negb (PyStr.isspace (right_border_char (style t))
                         && negb (PyStr.isspace ir))
             then overwrite (fun i => - i - 1) (fun i => - i - 1) ir
                    (Z.min rb (termwidth ir)) l1
             else Ok l1) = Ok l2 /\ len l2 = width t).
  { destruct (_ && _); [|exists l1; split; [reflexivity|exact Hlen1]].
    destruct (overwrite_ok (fun i => - i - 1) (fun i => - i - 1) ir l1
                (Z.min rb (termwidth ir))) as (l2 & Hl2 & Hlen2).
    - intros i Hi. rewrite Hlen1. lia.
    - exists l2. split; [exact Hl2|]. rewrite Hlen2. exact Hlen1. }
  destruct H2 as (l2 & -> & Hlen2). cbn [res_bind].
  (* the column boundaries *)
  destruct (_ && _); [|exists l2; split; [reflexivity|exact Hlen2]].
  rewrite range_seq.
  destruct (mid_loop_ok (Columns.width (columns t)) im lb sep rb
              (Z.min sep (termwidth im)) (width t) Hws Hlb Hsep Hrb
              ltac:(lia) ltac:(lia) ltac:(rewrite Hlw; exact Hw)
              (Z.to_nat (columns_len t - 1)) 0%nat l2
              ltac:(unfold len in Hlw; lia) Hlen2)
    as (p & Hp & Hlenp).
  cbn [firstn] in Hp. change (zsum []) with 0 in Hp.
  replace (lb + 0 + Z.of_nat 0 * sep) with lb in Hp by lia.
  rewrite Hp. cbn [res_bind]. exists (snd p). split; [reflexivity|exact Hlenp].
Qed.

(* ================================================================ *)
(** ** The lines of a clamped row, and the alignment of a cell *)

Lemma map_res_ok {A B} (f : A -> res B) (xs : list A) :
(forall x, In x xs -> exists y, f x = Ok y) ->
exists ys, map_res f xs = Ok ys /\ List.length ys = List.length xs.
Proof.
induction xs as [|x xs IH]; intros H.
- exists []. split; reflexivity.
- destruct (H x (or_introl eq_refl)) as (y & Hy).
  destruct (IH (fun x' Hx' => H x' (or_intror Hx'))) as (ys & Hys & Hl).
  exists (y :: ys). cbn [map_res res_bind]. rewrite Hy. cbn [res_bind].
  rewrite Hys. split; [reflexivity|]. simpl. rewrite Hl. reflexivity.
Qed.

Lemma map_res_forall {A B} (P : B -> Prop) (f : A -> res B) (xs : list A)
    (ys : list B) :
(forall x y, In x xs -> f x = Ok y -> P y) ->
map_res f xs = Ok ys -> Forall P ys.
Proof.
revert ys. induction xs as [|x xs IH]; intros ys H Hm.
- injection Hm as <-. constructor.
- cbn [map_res] in Hm.
  destruct (f x) as [y|e] eqn:Ey; [|discriminate]. cbn [res_bind] in Hm.
  destruct (map_res f xs) as [ys'|e] eqn:Eys; [|discriminate].
  injection Hm as <-. constructor.
  + exact (H x y (or_introl eq_refl) Ey).
  + apply IH; [|reflexivity]. intros x' y' Hx'. apply H. right. exact Hx'.
Qed.

Lemma enumerate_length {A} (l : list A) (s : Z) :
List.length (enumerate_from s l) = List.length l.
Proof.
revert s. induction l as [|x l IH]; intros s; simpl; [|rewrite IH];
  reflexivity.
Qed.

Section ClampRow.
Variable t : BeautifulTable.
Hypothesis Hw : len (Columns.width (columns t)) = columns_len t.
Hypothesis Hl : len (Columns.padding_left (columns t)) = columns_len t.
Hypothesis Hr : len (Columns.padding_right (columns t)) = columns_len t.
Hypothesis Hwrap : forall s w, textwrap s w <> [].

Lemma printable_width_ok (i : Z) :
0 <= i < columns_len t -> exists w, printable_width t i = Ok w.
Proof.
intros Hi. unfold printable_width.
destruct (get_in_range (Columns.width (columns t)) i ltac:(lia)) as (w & ->).
destruct (get_in_range (Columns.padding_left (columns t)) i ltac:(lia))
  as (l & ->).
destruct (get_in_range (Columns.padding_right (columns t)) i ltac:(lia))
  as (r & ->).
eexists. reflexivity.
Qed.

Lemma pad_item_ok (i : Z) (item : pystr) :
0 <= i < columns_len t -> exists p, pad_item t i item = Ok p.
Proof.
intros Hi. unfold pad_item.
destruct (get_in_range (Columns.padding_left (columns t)) i ltac:(lia))
  as (l & ->).
destruct (get_in_range (Columns.padding_right (columns t)) i ltac:(lia))
  as (r & ->).
eexists. reflexivity.
Qed.

Lemma clamp_string_ok (i : Z) (item delimiter : pystr) :
0 <= i < columns_len t -> exists c, _clamp_string t item i delimiter = Ok c.
Proof.
intros Hi. unfold _clamp_string.
destruct (printable_width_ok i Hi) as (w & ->). cbn [res_bind].
destruct (termwidth item <=? w); [eexists; reflexivity|].
destruct (0 <=? w - len delimiter); [|eexists; reflexivity].
destruct (textwrap item (w - len delimiter)) as [|first rest] eqn:E.
- exfalso. exact (Hwrap _ _ E).
- eexists. reflexivity.
Qed.

Lemma clamp_row_lines (r : list pystr) :
len r = columns_len t ->
exists lines,
  _clamp_row t r = Ok lines
  /\ lines <> []
  /\ Forall (fun line => len line = columns_len t) lines
  /\ (Columns.width_exceed_policy (columns t) <> WEP_WRAP ->
      exists line, lines = [line]).
Proof.
intros Hlen.
assert (Hidx : forall (l : list pystr) i x,
          len l = columns_len t -> In (i, x) (enumerate l) ->
          0 <= i < columns_len t).
{ intros l i x Hll Hin. apply enumerate_from_bounds in Hin. lia. }
assert (Hone : forall delimiter,
          exists line,
            map_res (fun ix => res_bind
                       (_clamp_string t (snd ix) (fst ix) delimiter)
                       (fun c => pad_item t (fst ix) c)) (enumerate r)
            = Ok line /\ len line = columns_len t).
{ intros delimiter.
  destruct (map_res_ok
              (fun ix => res_bind
                 (_clamp_string t (snd ix) (fst ix) delimiter)
                 (fun c => pad_item t (fst ix) c)) (enumerate r))
    as (line & Hline & Hll).
  - intros [i x] Hin. cbn [fst snd].
    pose proof (Hidx r i x Hlen Hin) as Hi.
    destruct (clamp_string_ok i x delimiter Hi) as (c & ->).
    cbn [res_bind]. apply pad_item_ok. exact Hi.
  - exists line. split; [exact Hline|].
    unfold len in *. rewrite Hll. unfold enumerate.
    rewrite enumerate_length. exact Hlen. }
unfold _clamp_row.
destruct (Columns.width_exceed_policy (columns t)) eqn:Epol.
- (* wrap *)
  destruct (map_res_ok
              (fun ix => res_bind (printable_width t (fst ix))
                           (fun w => Ok (textwrap (snd ix) w)))
              (enumerate r)) as (sp & Hsp & Hlsp).
  { intros [i x] Hin. cbn [fst snd].
    destruct (printable_width_ok i (Hidx r i x Hlen Hin)) as (w & ->).
    eexists. reflexivity. }
  rewrite Hsp. cbn [res_bind].
  assert (Hrows : Forall (fun row_items => len row_items = columns_len t)
                         (zip_longest_star [] sp)).
  { unfold zip_longest_star. apply Forall_forall. intros row_items Hin.
    apply in_map_iff in Hin. destruct Hin as (k & <- & _).
    unfold len, pystr in *. rewrite length_map, Hlsp. unfold enumerate.
    rewrite enumerate_length. exact Hlen. }
  destruct (map_res_ok
              (fun row_items =>
                 map_res (fun ix => pad_item t (fst ix) (snd ix))
                         (enumerate row_items))
              (zip_longest_star [] sp)) as (res & Hres & Hlres).
  { intros row_items Hin. rewrite Forall_forall in Hrows.
    destruct (map_res_ok (fun ix => pad_item t (fst ix) (snd ix))
                         (enumerate row_items)) as (p & Hp & _).
    - intros [i x] Hix. cbn [fst snd]. apply pad_item_ok.
      exact (Hidx row_items i x (Hrows _ Hin) Hix).
    - exists p. exact Hp. }
  rewrite Hres. cbn [res_bind].
  assert (Hall : Forall (fun line => len line = columns_len t) res).
  { eapply map_res_forall; [|exact Hres].
    intros row_items line Hin Hline. cbv beta in Hline.
    rewrite Forall_forall in Hrows. specialize (Hrows _ Hin).
    destruct (map_res_ok (fun ix => pad_item t (fst ix) (snd ix))
                         (enumerate row_items)) as (p & Hp & Hlp).
    - intros [i x] Hix. cbn [fst snd]. apply pad_item_ok.
      exact (Hidx row_items i x Hrows Hix).
    - rewrite Hp in Hline. injection Hline as <-.
      unfold len in *. rewrite Hlp. unfold enumerate.
      rewrite enumerate_length. exact Hrows. }
  eexists. split; [reflexivity|].
  destruct (Z.eqb_spec (len res) 0) as [E|E].
  + split; [discriminate|]. split; [|intros H; contradiction].
    constructor; [|constructor].
    apply len_repeat_list_single. rewrite <- Hlen. apply len_nonneg.
  + split; [intros ->; apply E; reflexivity|].
    split; [exact Hall|intros H; contradiction].
- (* strip *)
  destruct (Hone []) as (line & -> & Hll). cbn [res_bind].
  eexists. split; [reflexivity|]. change (len [line] =? 0) with false.
  cbv iota. split; [discriminate|].
  split; [constructor; [exact Hll|constructor]|].
  intros _. exists line. reflexivity.
- (* ellipsis *)
  destruct (Hone (str "...")) as (line & -> & Hll). cbn [res_bind].
  eexists. split; [reflexivity|]. change (len [line] =? 0) with false.
  cbv iota. split; [discriminate|].
  split; [constructor; [exact Hll|constructor]|].
  intros _. exists line. reflexivity.
Qed.

End ClampRow.

(** X15: [_clamp_row] always yields at least one line of cells, and every
    line has one cell per column, whatever the policy; under the strip and
    ellipsis policies it yields exactly one line.  The row has one string
    per column, each column has a width and two paddings, and the wrapper
    never returns an empty list of lines. *)
Theorem clamp_row_yields_full_lines (t : BeautifulTable) (r : list pystr) :
  len (Columns.width (columns t)) = columns_len t ->
  len (Columns.padding_left (columns t)) = columns_len t ->
  len (Columns.padding_right (columns t)) = columns_len t ->
  (forall s w, textwrap s w <> []) ->
  len r = columns_len t ->
  exists lines,
    _clamp_row t r = Ok lines
    /\ lines <> []
    /\ Forall (fun line => len line = columns_len t) lines
    /\ (Columns.width_exceed_policy (columns t) <> WEP_WRAP ->
        exists line, lines = [line]).
Proof.
  intros Hw Hl Hr Hwrap Hlen.
  exact (clamp_row_lines t Hw Hl Hr Hwrap r Hlen).
Qed.

Lemma repeat_list_nonpos {A} (l : list A) (n : Z) :
n <= 0 -> repeat_list l n = [].
Proof.
intros H. unfold repeat_list.
replace (Z.to_nat n) with 0%nat by lia. reflexivity.
Qed.

(** X16: the alignment of a cell only adds spaces: as many as the column
    is wider than the text, none when the text is too wide.  A left
    aligned cell gets them all on its right, a right aligned cell all on
    its left, and a centred cell half of them on its left and the other
    half, or one more, on its right. *)
Theorem align_item_adds_the_missing_spaces (t : BeautifulTable)
        (align : list Alignment) (row_ : list pystr) (i w : Z)
        (item : pystr) (a : Alignment) :
  get (Columns.width (columns t)) i = Ok w ->
  get row_ i = Ok item ->
  get align i = Ok a ->
  exists l r,
    align_item t align row_ i
    = Ok (repeat_list [PyStr.space] l ++ item ++ repeat_list [PyStr.space] r)
    /\ 0 <= l /\ 0 <= r
    /\ l + r = Z.max 0 (w - termwidth item)
    /\ match a with
       | ALIGN_LEFT => l = 0
       | ALIGN_RIGHT => r = 0
       | ALIGN_CENTER => l <= r <= l + 1
       end.
Proof.
  intros Hgw Hgi Hga. unfold align_item.
  rewrite Hgw, Hgi, Hga. cbn [res_bind].
  set (pad := w - termwidth item).
  destruct (Z.le_gt_cases 0 pad) as [Hp|Hp].
  - pose proof (Z.div_mod pad 2 ltac:(lia)) as Hdm.
    pose proof (Z.mod_pos_bound pad 2 ltac:(lia)) as Hmod.
    destruct a.
    + exists 0, pad. split; [reflexivity|]. lia.
    + exists (pad / 2), (pad - pad / 2). split; [reflexivity|]. lia.
    + exists pad, 0. split; [|lia].
      rewrite (repeat_list_nonpos [PyStr.space] 0) by lia.
      rewrite app_nil_r. reflexivity.
  - assert (pad / 2 < 0) by (apply Z.div_lt_upper_bound; lia).
    assert (pad - pad / 2 <= 0).
    { pose proof (Z.div_mod pad 2 ltac:(lia)) as Hdm.
      pose proof (Z.mod_pos_bound pad 2 ltac:(lia)) as Hmod. lia. }
    exists 0, 0. rewrite (repeat_list_nonpos [PyStr.space] 0) by lia.
    split; [|destruct a; lia].
    destruct a; rewrite ?(repeat_list_nonpos [PyStr.space] pad) by lia;
      rewrite ?(repeat_list_nonpos [PyStr.space] (pad / 2)) by lia;
      rewrite ?(repeat_list_nonpos [PyStr.space] (pad - pad / 2)) by lia;
      rewrite ?app_nil_r; reflexivity.
Qed.

(* ================================================================ *)
(** ** Edge cases and further compositions *)

Lemma zip_star_empty_rows {A} (rows : list (list A)) :
Forall (fun r => r = []) rows -> zip_star rows = [].
Proof.
induction rows as [|r rows IH]; intros H; [reflexivity|].
inversion H as [|? ? Hr Hrs]; subst.
destruct rows as [|r' rows']; reflexivity.
Qed.

(** X17: on a table without columns [_calculate_width] returns without
    dividing by the number of columns; it changes nothing but the stored
    maximal width, which it raises to 0 when it is negative. *)
Theorem calculate_width_without_columns (t : BeautifulTable) :
  well_formed t -> columns_len t = 0 ->
  _calculate_width t = Return tt (with_maxwidth (Z.max (_maxwidth t) 0) t).
Proof.
  intros (_ & Hh & _ & Hw & Hl & Hr & Hd & _) H0.
  unfold columns_len in H0. rewrite H0 in *.
  apply len_zero_nil in Hh, Hw, Hl, Hr.
  assert (Hz : zip_star (_data t) = []).
  { apply zip_star_empty_rows. eapply Forall_impl; [|exact Hd].
    intros r Hr'. apply len_zero_nil. exact Hr'. }
  assert (Hpw : pad_widths_of (Columns.padding_left (columns t))
                              (Columns.padding_right (columns t))
                              (range (columns_len t)) = Ok []).
  { unfold columns_len. rewrite H0. reflexivity. }
  assert (Hmw : res_bind (header_maxwidths t (repeat_list [0] (columns_len t)))
                         (data_maxwidths t) = Ok []).
  { unfold columns_len, header_maxwidths, data_maxwidths.
    rewrite H0, Hh, Hz. reflexivity. }
  rewrite (calculate_width_unfold t [] [] Hpw Hmw). cbv zeta.
  unfold width, columns_len. rewrite H0, Hw. reflexivity.
Qed.

(** X18: [columns.append] with a string header and enough items puts the
    item of every row at the end of the row and the metadata of the new
    column at the end of the metadata lists: the column becomes the last
    one. *)
Theorem columns_append_adds_the_last_column (t : BeautifulTable)
        (column : list value) (h : pystr) :
  well_formed t ->
  1 <= columns_len t ->
  rows_len t <= len column ->
  exists t',
    columns_append column (Some h) t = Return tt t'
    /\ columns_len t' = columns_len t + 1
    /\ _data t' = map (fun p => fst p ++ [snd p]) (combine (_data t) column)
    /\ Columns.header (columns t')
       = Columns.header (columns t) ++ [Some h]
    /\ Columns.width (columns t') = Columns.width (columns t) ++ [0]
    /\ Columns.alignment (columns t')
       = Columns.alignment (columns t)
         ++ [Columns.default_alignment (columns t)]
    /\ Columns.padding_left (columns t')
       = Columns.padding_left (columns t)
         ++ [Columns.default_padding (columns t)]
    /\ Columns.padding_right (columns t')
       = Columns.padding_right (columns t)
         ++ [Columns.default_padding (columns t)].
Proof.
  intros (Hn & Hh & Ha & Hw & Hl & Hr & Hd & _) H1 Hlen.
  unfold columns_len in *. unfold columns_append.
  unfold bind at 1, gets at 1, id.
  rewrite (columns_insert_run t (_ncol t) column h ltac:(lia) Hlen).
  eexists. split; [reflexivity|].
  cbn [_ncol _data columns with_ncol with_columns with_data
       columns_with_new Columns.header Columns.alignment Columns.width
       Columns.padding_left Columns.padding_right].
  rewrite !insert_at_end by assumption.
  split; [reflexivity|]. split; [|repeat split].
  apply map_ext_in. intros [r x] Hin. cbn [fst snd].
  apply insert_at_end. rewrite Forall_forall in Hd.
  exact (Hd r (in_combine_l _ _ _ _ Hin)).
Qed.

(** X19: [rows.pop(s)] for a string [s] removes and returns the first row
    headed [s], its cells together with its header; when no row is headed
    [s] the call raises [KeyError] and leaves the table as it was. *)
Theorem rows_pop_by_header (t : BeautifulTable) (s : pystr) :
  rows_len t <> 0 ->
  (header_index (rows_header t) s = Err KeyError ->
   rows_pop (KStr s) t = Raise KeyError t)
  /\ (forall pre r post hpre h hpost,
        header_index (rows_header t) s = Ok (len pre) ->
        _data t = pre ++ r :: post ->
        rows_header t = hpre ++ h :: hpost -> len hpre = len pre ->
        rows_pop (KStr s) t
        = Return r (with_rows_header (hpre ++ hpost)
                      (with_data (pre ++ post) t))).
Proof.
  intros Hne. unfold rows_len in Hne.
  assert (E0 : (len (_data t) =? 0) = false) by lia.
  split.
  - intros H. unfold rows_pop, bind, gets, id, lift, base_pop.
    rewrite E0. cbn [_canonical_key]. rewrite H. reflexivity.
  - intros pre r post hpre h hpost H Hd Hh Hp.
    unfold rows_pop, bind, gets, id, lift, modify, ret, base_pop.
    rewrite E0. cbn [_canonical_key]. rewrite H. cbn [res_bind].
    rewrite Hd at 1. rewrite pop_mid. cbn [fst snd].
    rewrite Hh at 1. rewrite <- Hp, pop_mid. reflexivity.
Qed.

(* ================================================================ *)
(** ** Item access: what is written is what is read *)

Lemma set_nonneg {A} (l : list A) (i : Z) (x : A) :
0 <= i < len l ->
set l i x = Ok (firstn (Z.to_nat i) l ++ x :: skipn (S (Z.to_nat i)) l).
Proof.
intros H. unfold set, norm_index.
destruct (Z.ltb_spec i 0); [lia|].
destruct (Z.leb_spec 0 i); [|lia].
destruct (Z.ltb_spec i (len l)); [|lia]. reflexivity.
Qed.

Lemma get_nonneg {A} (l : list A) (i : Z) (d : A) :
0 <= i < len l -> get l i = Ok (nth (Z.to_nat i) l d).
Proof.
intros H. destruct (get_in_range l i H) as (x & Hx). rewrite Hx.
rewrite (get_nth l i x d (proj1 H) Hx). reflexivity.
Qed.

Lemma len_replaced {A} (l : list A) (i : Z) (x : A) :
0 <= i < len l ->
len (firstn (Z.to_nat i) l ++ x :: skipn (S (Z.to_nat i)) l) = len l.
Proof.
intros H. unfold len in *. rewrite length_app, length_firstn.
cbn [List.length]. rewrite length_skipn. lia.
Qed.

Lemma nth_replaced {A} (l : list A) (i : Z) (x d : A) :
0 <= i < len l ->
nth (Z.to_nat i) (firstn (Z.to_nat i) l ++ x :: skipn (S (Z.to_nat i)) l) d
= x.
Proof.
intros H. rewrite app_nth2; rewrite length_firstn; unfold len in H;
  [|lia].
replace (Z.to_nat i - Nat.min (Z.to_nat i) (List.length l))%nat
  with 0%nat by lia.
reflexivity.
Qed.

Lemma map_res_map {A B} (f : A -> res B) (g : A -> B) (xs : list A) :
(forall x, In x xs -> f x = Ok (g x)) -> map_res f xs = Ok (map g xs).
Proof.
induction xs as [|x xs IH]; intros H; [reflexivity|].
cbn [map_res map]. rewrite (H x (or_introl eq_refl)). cbn [res_bind].
rewrite IH by (intros x' Hx'; apply H; right; exact Hx'). reflexivity.
Qed.

Lemma column_replaced_wf (i n : Z) (rows : list row) (items : list value) :
0 <= i < n ->
Forall (fun r => len r = n) rows ->
Forall (fun r => len r = n) (column_replaced i rows items)
/\ len (column_replaced i rows items) = len rows
/\ map (fun r => nth (Z.to_nat i) r VNone) (column_replaced i rows items)
   = firstn (List.length rows) items
     ++ skipn (List.length items)
              (map (fun r => nth (Z.to_nat i) r VNone) rows).
Proof.
intros Hi H. revert items.
induction H as [|r rows Hr Hrows IH]; intros items.
- destruct items; repeat split; constructor.
- destruct items as [|x xs].
  + split; [constructor; assumption|]. split; reflexivity.
  + destruct (IH xs) as (E1 & E2 & E3).
    cbn [column_replaced].
    split; [constructor; [rewrite len_replaced; lia|exact E1]|].
    split; [rewrite !len_cons, E2; reflexivity|].
    cbn [map]. rewrite nth_replaced by lia. rewrite E3.
    reflexivity.
Qed.

(** [columns[k] = items] on the rows from position [len done] on. *)
Lemma columns_setitem_from (k : item_key) (i : Z) (t0 : BeautifulTable) :
_canonical_key (Columns.header (columns t0)) (key_of k) = Ok (KInt i) ->
forall todo done items,
  Forall (fun r => 0 <= i < len r) todo ->
  for_each (fun jx : Z * value =>
              update_row (fst jx)
                (fun c r =>
                   res_bind (base_setitem (Columns.header c) r k (snd jx))
                            (fun r' => Ok (tt, r'))))
           (combine (map Z.of_nat (seq (List.length done)
                                       (List.length todo))) items)
           (with_data (done ++ todo) t0)
  = Return tt (with_data (done ++ column_replaced i todo items) t0).
Proof.
intros Hk. induction todo as [|r todo IH]; intros done items Hall.
- destruct items; reflexivity.
- destruct items as [|x xs].
  + cbn [combine]. rewrite combine_nil. reflexivity.
  + inversion Hall as [|? ? Hr Htodo]; subst.
    simpl List.length. rewrite seq_shift_cons.
    cbn [combine for_each fst snd].
    change (Z.of_nat (List.length done)) with (len done).
    unfold bind at 1. rewrite update_row_mid.
    unfold base_setitem. rewrite Hk. cbn [res_bind].
    rewrite (set_nonneg r i x Hr). cbn [res_bind fst snd].
    rewrite (app_snoc done _ todo).
    replace (S (List.length done))
      with (List.length
              (done ++ [firstn (Z.to_nat i) r
                        ++ x :: skipn (S (Z.to_nat i)) r]))
      by (rewrite length_app; simpl; lia).
    rewrite (IH _ xs Htodo). cbn [column_replaced].
    rewrite <- app_assoc. reflexivity.
Qed.

(** X20: [columns[k] = items] for a position or a header [k] replaces the
    cell of that column in the first rows, one item per row as far as the
    items go, and raises nothing when the items are fewer than the rows:
    the other rows, the other cells and the metadata stay as they were.
    Reading [columns[k]] afterwards gives the items written, followed by
    the old cells of the rows that got none. *)
Theorem columns_update_then_read (t : BeautifulTable) (k : item_key)
        (i : Z) (items : list value) :
  well_formed t ->
  _canonical_key (Columns.header (columns t)) (key_of k) = Ok (KInt i) ->
  0 <= i < columns_len t ->
  let t' := with_data (column_replaced i (_data t) items) t in
  columns_setitem k items t = Return tt t'
  /\ columns_getitem k t'
     = Return (firstn (Z.to_nat (rows_len t)) items
               ++ skipn (List.length items)
                    (map (fun r => nth (Z.to_nat i) r VNone) (_data t))) t'
  /\ well_formed t'.
Proof.
  intros Hwf Hk Hi t'. unfold columns_len in Hi.
  pose proof Hwf as (Hn & Hh & Ha & Hw & Hl & Hr & Hd & Hrh).
  destruct (column_replaced_wf i (_ncol t) (_data t) items Hi Hd)
    as (E1 & E2 & E3).
  split; [|split].
  - unfold columns_setitem. unfold bind at 1, gets at 1, id.
    unfold rows_len. rewrite range_len.
    pose proof (columns_setitem_from k i t Hk (_data t) [] items) as H.
    cbn [app List.length] in H.
    replace (with_data (_data t) t) with t in H by (destruct t; reflexivity).
    apply H. eapply Forall_impl; [|exact Hd]. intros r Hr'. cbv beta in Hr'.
    lia.
  - unfold columns_getitem. unfold bind at 1, gets at 1, id.
    assert (Hidx : match k with
                   | ByIndex i0 => ret i0
                   | ByHeader s =>
                       lift (header_index (Columns.header (columns t')) s)
                   end t' = Return i t').
    { destruct k as [j|s]; cbn [key_of _canonical_key] in Hk.
      - injection Hk as ->. reflexivity.
      - subst t'. cbn [columns with_data].
        destruct (header_index (Columns.header (columns t)) s) as [j|e];
          [|discriminate].
        injection Hk as ->. reflexivity. }
    rewrite (bind_seq _ _ _ _ _ Hidx).
    rewrite (map_res_map _ (fun r => nth (Z.to_nat i) r VNone)).
    + subst t'. cbn [_data with_data lift]. rewrite E3.
      unfold rows_len, len. rewrite Nat2Z.id. reflexivity.
    + intros r Hin. unfold base_getitem. cbn [_canonical_key res_bind].
      apply get_nonneg. subst t'. cbn [_data with_data] in Hin.
      rewrite Forall_forall in E1. rewrite (E1 r Hin). exact Hi.
  - subst t'. unfold well_formed. cbn [_ncol _data columns rows_header
                                       with_data].
    repeat (split; [assumption|]). rewrite E2. exact Hrh.
Qed.

Lemma pystr_eqb_refl (s : pystr) : pystr_eqb s s = true.
Proof.
unfold pystr_eqb. destruct (list_eq_dec N.eq_dec s s); [reflexivity|].
contradiction.
Qed.

Lemma pystr_eqb_neq (a b : pystr) : a <> b -> pystr_eqb a b = false.
Proof.
intros H. unfold pystr_eqb. destruct (list_eq_dec N.eq_dec a b);
  [contradiction|reflexivity].
Qed.

(** The first occurrence of a header. *)
Lemma header_index_first (s : pystr) (hpre hpost : list header_t) :
~ In (Some s) hpre ->
forall i0,
  header_index_from i0 (hpre ++ Some s :: hpost) s = Ok (i0 + len hpre).
Proof.
induction hpre as [|h hpre IH]; intros Hnot i0.
- cbn [app header_index_from]. rewrite pystr_eqb_refl.
  change (len (@nil header_t)) with 0. f_equal. lia.
- cbn [app header_index_from].
  assert (Hh : h <> Some s) by (intros ->; apply Hnot; left; reflexivity).
  assert (Hrest : ~ In (Some s) hpre)
    by (intros H; apply Hnot; right; exact H).
  rewrite len_cons.
  destruct h as [s'|].
  + rewrite pystr_eqb_neq by (intros ->; apply Hh; reflexivity).
    rewrite (IH Hrest). f_equal. lia.
  + rewrite (IH Hrest). f_equal. lia.
Qed.

Lemma firstn_length_app {A} (a b : list A) :
firstn (List.length a) (a ++ b) = a.
Proof. induction a as [|x a IH]; simpl; [|rewrite IH]; reflexivity. Qed.

(** X21: a row inserted with a header is found under that header.  After
    [rows.insert(index, r, s)] at a position of the table, [rows[index]]
    is the row stored, and [rows[s]] is that row as well, provided no row
    before the position is headed [s] (a header names the first row that
    carries it). *)
Theorem inserted_row_is_found_under_its_header (t : BeautifulTable)
        (index : Z) (r r' : row) (s : pystr) :
  _ncol t <> 0 ->
  len (rows_header t) = rows_len t ->
  0 <= index <= rows_len t ->
  BTRowData (with_rows_header (insert (rows_header t) index (Some s)) t) r
  = Ok r' ->
  exists t',
    rows_insert index r (Some s) t = Return tt t'
    /\ rows_getitem (ByIndex index) t' = Return r' t'
    /\ (~ In (Some s) (firstn (Z.to_nat index) (rows_header t)) ->
        rows_getitem (ByHeader s) t' = Return r' t').
Proof.
  intros Hn Hlen Hi Hr. unfold rows_len in *.
  eexists. split; [apply (rows_insert_run t index r r' (Some s) Hn Hr)|].
  destruct (insert_split (_data t) index r' Hi)
    as (pre & post & Hd & Hp & Hins).
  destruct (insert_split (rows_header t) index (Some s) ltac:(lia))
    as (hpre & hpost & Hh & Hhp & Hhins).
  assert (Hget : get (insert (_data t) index r') index = Ok r').
  { rewrite Hins, <- Hp. apply get_mid. }
  split.
  - unfold rows_getitem, bind, gets, id, lift, base_getitem.
    cbn [key_of _canonical_key res_bind _data with_data].
    rewrite Hget. reflexivity.
  - intros Hnot.
    unfold rows_getitem, bind, gets, id, lift, base_getitem.
    cbn [key_of _canonical_key rows_header with_data with_rows_header
         _data].
    assert (Hfirst : firstn (Z.to_nat index) (rows_header t) = hpre).
    { rewrite Hh. replace (Z.to_nat index) with (List.length hpre)
        by (unfold len in Hhp; lia).
      apply firstn_length_app. }
    rewrite Hfirst in Hnot.
    unfold header_index. rewrite Hhins.
    pose proof (header_index_first s hpre hpost Hnot 0) as Hx.
    rewrite Z.add_0_l, Hhp in Hx.
    unfold header_t, pystr in *. rewrite Hx.
    cbn [res_bind]. rewrite Hget. reflexivity.
Qed.

(* ================================================================ *)
(** ** Streaming rows *)

Lemma widths_only_ncol (t0 t : BeautifulTable) :
widths_only t0 t -> _ncol t = _ncol t0.
Proof. intros (ws & m & _ & ->). reflexivity. Qed.

Lemma widths_only_rows_header (t0 t : BeautifulTable) :
widths_only t0 t -> rows_header t = rows_header t0.
Proof. intros (ws & m & _ & ->). reflexivity. Qed.

Section KeepsOnReturn.
Variable t0 : BeautifulTable.

Lemma keeps_content_on_return {A} (m : M A) :
keeps_content t0 m -> keeps_on_return t0 m.
Proof.
intros H t a t' Hw Hrun. specialize (H t Hw). rewrite Hrun in H. exact H.
Qed.

Lemma kor_bind {A B} (m : M A) (f : A -> M B) :
keeps_on_return t0 m -> (forall a, keeps_on_return t0 (f a)) ->
keeps_on_return t0 (bind m f).
Proof.
intros Hm Hf t b t' Hw Hrun.
apply bind_inv in Hrun. destruct Hrun as (a & t1 & Hstep & Hrun).
exact (Hf a t1 b t' (Hm t a t1 Hw Hstep) Hrun).
Qed.

Lemma kor_bind_gets {B} (k : BeautifulTable -> M B) :
(forall t, widths_only t0 t -> keeps_on_return t0 (k t)) ->
keeps_on_return t0 (bind (gets id) k).
Proof.
intros Hk t b t' Hw Hrun. unfold bind, gets, id in Hrun.
exact (Hk t Hw t b t' Hw Hrun).
Qed.

Lemma kor_for_fold {A S} (body : S -> A -> M S) (xs : list A) :
(forall s a, keeps_on_return t0 (body s a)) ->
forall s, keeps_on_return t0 (for_fold body xs s).
Proof.
intros Hb. induction xs as [|x xs IH]; intros s; cbn [for_fold].
- apply keeps_content_on_return, keeps_ret.
- apply kor_bind; [apply Hb|]. intros s'. apply IH.
Qed.

End KeepsOnReturn.

(** [rows.append] followed by [rows.pop()], with steps in between that
    only read the table: when all of it returns, the table is the one it
    started from. *)
Lemma append_then_pop_restores (t t' : BeautifulTable) (r : row) {A B}
    (between : M A) (x : B) :
_ncol t <> 0 ->
len (rows_header t) = rows_len t ->
(forall t1 a t2, between t1 = Return a t2 -> t2 = t1) ->
(rows_append r None ;; between ;; rows_pop (KInt (-1)) ;; ret x) t
= Return x t' ->
t' = t.
Proof.
intros Hn Hlen Hbetween Hrun. unfold rows_len in Hlen.
apply bind_inv in Hrun. destruct Hrun as (u & ta & Hstep & Hrun).
cbv beta in Hrun.
unfold rows_append, rows_insert, bind, gets, id, modify, ret, lift in Hstep.
destruct (Z.eqb_spec (_ncol t) 0) as [|_]; [contradiction|].
unfold base_insert, rows_len in Hstep.
assert (Hh : insert (rows_header t) (len (_data t)) None
             = rows_header t ++ [None]).
{ rewrite <- Hlen. apply insert_at_len. }
rewrite Hh in Hstep.
match type of Hstep with
| context [BTRowData ?tx r] => destruct (BTRowData tx r) as [r'|e]
end; [|discriminate].
cbn [_data with_rows_header] in Hstep. rewrite insert_at_len in Hstep.
injection Hstep as _ <-.
apply bind_inv in Hrun. destruct Hrun as (a & tb & Hstep & Hrun).
cbv beta in Hrun. apply Hbetween in Hstep. subst tb.
apply bind_inv in Hrun. destruct Hrun as (p & tc & Hstep & Hrun).
cbv beta in Hrun.
rewrite (rows_pop_mid _ (_data t) [] r' (rows_header t) [] None (-1))
  in Hstep.
- injection Hstep as _ <-. unfold ret in Hrun. injection Hrun as <-.
  rewrite !app_nil_r. apply rows_restored.
- reflexivity.
- reflexivity.
- cbn [_data with_data]. rewrite app_nil_r. apply pop_last.
- cbn [rows_header with_data with_rows_header]. rewrite app_nil_r.
  apply pop_last.
Qed.

(** X22: [stream] without [append], run to its end on a table that has
    columns and no serial numbers, leaves the rows of the table as they
    were: every row streamed is appended, rendered and popped again.
    When the generator returns, the table differs from the one it started
    from in the column widths and the stored maximal width at most. *)
Theorem stream_without_append_keeps_the_rows (t t' : BeautifulTable)
        (rows : list row) (recalculate_width : bool) (lines : list pystr) :
  serialno t = false ->
  _ncol t <> 0 ->
  len (rows_header t) = rows_len t ->
  _get_string rows false recalculate_width t = Return lines t' ->
  exists ws m,
    len ws = len (Columns.width (columns t))
    /\ t' = with_maxwidth m (set_widths ws t).
Proof.
  intros Hs Hn Hlen Hrun.
  assert (H : keeps_on_return t (_get_string rows false recalculate_width)).
  { unfold _get_string.
    apply kor_bind_gets. intros t2 H2.
    rewrite (widths_only_serialno _ _ H2), Hs. cbn [andb].
    apply kor_bind; [apply keeps_content_on_return, keeps_ret|]. intros _.
    apply kor_bind_gets. intros t3 H3.
    apply kor_bind.
    { apply keeps_content_on_return.
      destruct (_ || _); [apply keeps_calculate_width|apply keeps_ret]. }
    intros _.
    apply kor_bind_gets. intros t4 H4.
    rewrite (widths_only_serialno _ _ H4), Hs. cbn [andb].
    apply kor_bind; [apply keeps_content_on_return, keeps_ret|]. intros _.
    apply kor_bind_gets. intros t5 H5.
    apply kor_bind; [apply keeps_content_on_return, keeps_yield_if|].
    intros top.
    apply kor_bind; [apply keeps_content_on_return; repeat keeps_step|].
    intros head.
    apply kor_bind; [apply keeps_content_on_return; repeat keeps_step|].
    intros st.
    apply kor_bind_gets. intros t6 H6.
    apply kor_bind.
    { apply kor_for_fold. intros st' [i r].
      apply kor_bind;
        [apply keeps_content_on_return, keeps_yield_row_separator|].
      intros sep.
      apply kor_bind_gets. intros t7 H7.
      rewrite (widths_only_serialno _ _ H7), Hs. cbn [snd].
      intros t8 a t9 H8 Hbody.
      assert (E : t9 = t8); [|rewrite E; exact H8].
      apply (append_then_pop_restores t8 t9 r
               (t <- gets id ;;
                last <- lift (base_getitem (rows_header t) (_data t)
                                           (KInt (-1))) ;;
                lift (data_row_str t last))
               a).
      - rewrite (widths_only_ncol _ _ H8). exact Hn.
      - unfold rows_len. rewrite (widths_only_rows_header _ _ H8),
          (widths_only_data _ _ H8). exact Hlen.
      - intros t1 a1 t2' Hb. unfold bind, gets, id, lift in Hb.
        destruct (base_getitem _ _ _); [|discriminate].
        destruct (data_row_str _ _); [|discriminate].
        injection Hb as _ <-. reflexivity.
      - revert Hbody. unfold bind, gets, id, lift, ret.
        destruct (rows_append r None t8) as [u ta|]; [|discriminate].
        destruct (base_getitem _ _ _) as [last|]; [|discriminate].
        destruct (data_row_str ta last) as [content|]; [|discriminate].
        destruct (rows_pop (KInt (-1)) ta) as [p tb|]; [|discriminate].
        intros Hb. injection Hb as <- <-. reflexivity. }
    intros st'.
    apply kor_bind_gets. intros t7 H7.
    apply kor_bind; [apply keeps_content_on_return, keeps_yield_if|].
    intros bottom.
    apply kor_bind_gets. intros t8 H8.
    rewrite (widths_only_serialno _ _ H8), Hs. cbn [andb].
    apply keeps_content_on_return. repeat keeps_step. }
  exact (H t lines t' (widths_only_refl t) Hrun).
Qed.

(** What [rows.append] leaves when it returns. *)
Lemma rows_append_returns (t t2 : BeautifulTable) (r : row)
    (header : header_t) (u : unit) :
_ncol t <> 0 ->
len (rows_header t) = len (_data t) ->
rows_append r header t = Return u t2 ->
exists r',
  BTRowData (with_rows_header (rows_header t ++ [None]) t) r = Ok r'
  /\ t2 = with_data (_data t ++ [r'])
            (with_rows_header (rows_header t ++ [None]) t).
Proof.
intros Hn Hlen Hstep.
unfold rows_append, rows_insert, bind, gets, id, modify, ret, lift in Hstep.
destruct (Z.eqb_spec (_ncol t) 0) as [|_]; [contradiction|].
unfold base_insert, rows_len in Hstep.
assert (Hh : insert (rows_header t) (len (_data t)) None
             = rows_header t ++ [None]).
{ rewrite <- Hlen. apply insert_at_len. }
rewrite Hh in Hstep.
destruct (BTRowData (with_rows_header (rows_header t ++ [None]) t) r)
  as [r'|e]; [|discriminate].
cbn [_data with_rows_header] in Hstep. rewrite insert_at_len in Hstep.
injection Hstep as _ <-. exists r'. split; reflexivity.
Qed.

Lemma with_rows_appended_nil (t : BeautifulTable) :
with_rows_appended [] t = t.
Proof.
unfold with_rows_appended. cbn [List.length repeat]. rewrite !app_nil_r.
destruct t. reflexivity.
Qed.

Lemma with_rows_appended_snoc (t0 t : BeautifulTable) (new : list row)
    (r' : row) :
widths_only (with_rows_appended new t0) t ->
widths_only (with_rows_appended (new ++ [r']) t0)
            (with_data (_data t ++ [r'])
               (with_rows_header (rows_header t ++ [None]) t)).
Proof.
intros (ws & m & Hl & ->). exists ws, m. split; [exact Hl|].
unfold with_rows_appended.
rewrite length_app, repeat_app. cbn [List.length repeat].
cbn [_data rows_header with_maxwidth set_widths with_columns
     with_rows_header with_data].
rewrite <- !app_assoc. destruct t0. reflexivity.
Qed.

Section StreamAppend.
Variable t0 : BeautifulTable.
Hypothesis Hs : serialno t0 = false.
Hypothesis Hn : _ncol t0 <> 0.
Hypothesis Hlen : len (rows_header t0) = rows_len t0.

Lemma appended_invariants (new : list row) (t : BeautifulTable) :
widths_only (with_rows_appended new t0) t ->
serialno t = false /\ _ncol t <> 0 /\ len (rows_header t) = len (_data t).
Proof.
intros (ws & m & _ & ->). unfold with_rows_appended.
cbn [serialno _ncol rows_header _data with_maxwidth set_widths with_columns
     with_rows_header with_data].
split; [exact Hs|]. split; [exact Hn|].
rewrite !len_app. unfold rows_len in Hlen. rewrite Hlen.
unfold len. rewrite repeat_length. reflexivity.
Qed.

(** The loop of [_get_string] over the rows streamed, when they are
    appended. *)
Lemma stream_append_loop (prev_length : Z) :
forall (rows : list row) (i : Z) (new : list row)
       (st st' : bool * list pystr) (t t' : BeautifulTable),
  widths_only (with_rows_appended new t0) t ->
  for_fold
    (fun (st : bool * list pystr) (ir : Z * row) =>
       sep <- yield_row_separator (fst st) ;;
       t <- gets id ;;
       let r := if serialno t
                then insert (snd ir) 0 (VInt (prev_length + fst ir))
                else snd ir in
       rows_append r None ;;
       t <- gets id ;;
       last <- lift (base_getitem (rows_header t) (_data t) (KInt (-1))) ;;
       content <- lift (data_row_str t last) ;;
       (if true then ret tt else rows_pop (KInt (-1)) ;; ret tt) ;;
       ret (true, snd st ++ sep ++ [content]))
    (enumerate_from i rows) st t
  = Return st' t' ->
  exists new',
    Forall2 (fun r r' => exists tx, BTRowData tx r = Ok r') rows new'
    /\ widths_only (with_rows_appended (new ++ new') t0) t'.
Proof.
induction rows as [|r rows IH]; intros i new st st' t t' Hw Hrun.
- cbn [enumerate_from for_fold] in Hrun. injection Hrun as _ <-.
  exists []. split; [constructor|]. rewrite app_nil_r. exact Hw.
- cbn [enumerate_from for_fold] in Hrun.
  apply bind_inv in Hrun. destruct Hrun as (s1 & t1 & Hbody & Hrun).
  cbv beta in Hrun.
  apply bind_inv in Hbody. destruct Hbody as (sep & ta & Hsep & Hbody).
  cbv beta in Hbody.
  assert (Hwa : widths_only (with_rows_appended new t0) ta).
  { pose proof (keeps_yield_row_separator (with_rows_appended new t0)
                  (fst st) t Hw) as H.
    rewrite Hsep in H. exact H. }
  destruct (appended_invariants new ta Hwa) as (Hsa & Hna & Hla).
  unfold bind at 1, gets at 1, id in Hbody. rewrite Hsa in Hbody.
  cbn [snd] in Hbody.
  apply bind_inv in Hbody. destruct Hbody as (u & tb & Happ & Hbody).
  cbv beta in Hbody.
  destruct (rows_append_returns ta tb r None u Hna Hla Happ)
    as (r' & Hr' & ->).
  assert (Et1 : t1 = with_data (_data ta ++ [r'])
                       (with_rows_header (rows_header ta ++ [None]) ta)).
  { revert Hbody. unfold bind, gets, id, lift, ret.
    destruct (base_getitem _ _ _) as [last|]; [|discriminate].
    destruct (data_row_str _ last) as [content|]; [|discriminate].
    intros Hb. injection Hb as _ <-. reflexivity. }
  pose proof (with_rows_appended_snoc t0 ta new r' Hwa) as Hw1.
  rewrite <- Et1 in Hw1.
  destruct (IH (i + 1) (new ++ [r']) s1 st' t1 t' Hw1 Hrun)
    as (new' & Hall & Hw').
  exists (r' :: new'). split.
  + constructor; [eexists; exact Hr'|exact Hall].
  + rewrite <- app_assoc in Hw'. exact Hw'.
Qed.

End StreamAppend.

(** X23: [stream] with [append], run to its end on a table that has
    columns and no serial numbers, appends every row streamed: when the
    generator returns, the table holds its old rows followed by one stored
    row per row streamed, in order, each under the header [None]; apart
    from that it differs in the column widths and the stored maximal width
    at most. *)
Theorem stream_with_append_adds_every_row (t t' : BeautifulTable)
        (rows : list row) (recalculate_width : bool) (lines : list pystr) :
  serialno t = false ->
  _ncol t <> 0 ->
  len (rows_header t) = rows_len t ->
  _get_string rows true recalculate_width t = Return lines t' ->
  exists new ws m,
    Forall2 (fun r r' => exists tx, BTRowData tx r = Ok r') rows new
    /\ len ws = len (Columns.width (columns t))
    /\ t' = with_maxwidth m (set_widths ws (with_rows_appended new t)).
Proof.
  intros Hs Hn Hlen Hrun.
  assert (Hk : forall {A} (m : M A) tb a ta,
            keeps_content t m -> widths_only t tb ->
            m tb = Return a ta -> widths_only t ta).
  { intros A m tb a ta Hm Hw Hr. apply (keeps_content_on_return t m Hm tb a ta Hw Hr). }
  unfold _get_string in Hrun.
  unfold bind at 1, gets at 1, id in Hrun.
  rewrite Hs in Hrun. cbn [andb] in Hrun.
  unfold bind at 1, ret at 1 in Hrun.
  unfold bind at 1, gets at 1, id in Hrun.
  apply bind_inv in Hrun. destruct Hrun as (u1 & t1 & H1 & Hrun).
  cbv beta in Hrun.
  assert (W1 : widths_only t t1).
  { refine (Hk _ _ t u1 t1 _ (widths_only_refl t) H1).
    destruct (_ || _); [apply keeps_calculate_width|apply keeps_ret]. }
  unfold bind at 1, gets at 1, id in Hrun.
  rewrite (widths_only_serialno _ _ W1), Hs in Hrun. cbn [andb] in Hrun.
  unfold bind at 1, ret at 1 in Hrun.
  unfold bind at 1, gets at 1, id in Hrun.
  apply bind_inv in Hrun. destruct Hrun as (top & t2 & H2 & Hrun).
  cbv beta in Hrun.
  assert (W2 : widths_only t t2)
    by (exact (Hk _ _ t1 top t2 (keeps_yield_if t _ _) W1 H2)).
  apply bind_inv in Hrun. destruct Hrun as (head & t3 & H3 & Hrun).
  cbv beta in Hrun.
  assert (W3 : widths_only t t3).
  { refine (Hk _ _ t2 head t3 _ W2 H3). repeat keeps_step. }
  apply bind_inv in Hrun. destruct Hrun as (st & t4 & H4 & Hrun).
  cbv beta in Hrun.
  assert (W4 : widths_only t t4).
  { refine (Hk _ _ t3 st t4 _ W3 H4). repeat keeps_step. }
  unfold bind at 1, gets at 1, id in Hrun.
  apply bind_inv in Hrun. destruct Hrun as (st' & t5 & H5 & Hrun).
  cbv beta in Hrun.
  rewrite <- (with_rows_appended_nil t) in W4.
  destruct (stream_append_loop t Hs Hn Hlen (rows_len t4) rows 1 [] st st'
              t4 t5 W4 H5) as (new & Hall & W5).
  cbn [app] in W5.
  unfold bind at 1, gets at 1, id in Hrun.
  apply bind_inv in Hrun. destruct Hrun as (bottom & t6 & H6 & Hrun).
  cbv beta in Hrun.
  assert (W6 : widths_only (with_rows_appended new t) t6).
  { pose proof (keeps_yield_if (with_rows_appended new t)
                  (truthy (bottom_border_char (style t5)))
                  _get_bottom_border t5 W5) as H.
    rewrite H6 in H. exact H. }
  unfold bind at 1, gets at 1, id in Hrun.
  destruct (appended_invariants t Hs Hn Hlen new t6 W6) as (Hs6 & _).
  rewrite Hs6 in Hrun. cbn [andb] in Hrun.
  unfold bind, ret in Hrun. injection Hrun as _ <-.
  destruct W6 as (ws & m & Hl & ->). exists new, ws, m.
  split; [exact Hall|]. split; [exact Hl|reflexivity].
Qed.

(* ================================================================ *)
(** ** Rows: assignment, and the index of an insertion *)

Lemma set_out_of_range {A} (l : list A) (i : Z) (x : A) :
len l <= i \/ i < - len l -> set l i x = Err IndexError.
Proof.
intros H. unfold set, norm_index. pose proof (len_nonneg l).
destruct (Z.ltb_spec i 0);
  [destruct (Z.leb_spec 0 (i + len l)); [lia|reflexivity]|].
destruct (Z.leb_spec 0 i); [|lia].
destruct (Z.ltb_spec i (len l)); [lia|reflexivity].
Qed.

(** X24: [rows[k] = value] for a position or a header [k] replaces the
    cells of that one row by the row the constructor makes of [value],
    and [rows[k]] reads that row back; for a position out of range the
    call raises [IndexError] and leaves the table as it was. *)
Theorem rows_update_then_read (t : BeautifulTable) (k : item_key) (i : Z)
        (value r' : row) :
  _canonical_key (rows_header t) (key_of k) = Ok (KInt i) ->
  BTRowData t value = Ok r' ->
  (0 <= i < rows_len t ->
   let t' := with_data (firstn (Z.to_nat i) (_data t)
                        ++ r' :: skipn (S (Z.to_nat i)) (_data t)) t in
   rows_setitem k value t = Return tt t'
   /\ rows_getitem k t' = Return r' t'
   /\ rows_len t' = rows_len t)
  /\ (rows_len t <= i \/ i < - rows_len t ->
      rows_setitem k value t = Raise IndexError t).
Proof.
  intros Hk Hr. unfold rows_len. split.
  - intros Hi. cbv zeta.
    set (t' := with_data (firstn (Z.to_nat i) (_data t)
                          ++ r' :: skipn (S (Z.to_nat i)) (_data t)) t).
    split; [|split].
    + unfold rows_setitem, bind, gets, id, lift, modify, base_setitem.
      rewrite Hr, Hk. cbn [res_bind]. rewrite (set_nonneg _ i r' Hi).
      reflexivity.
    + unfold rows_getitem, bind, gets, id, lift, base_getitem.
      subst t'. cbn [rows_header _data with_data]. rewrite Hk.
      cbn [res_bind].
      rewrite (get_nonneg _ i r') by (rewrite len_replaced; exact Hi).
      rewrite nth_replaced by exact Hi. reflexivity.
    + subst t'. cbn [_data with_data]. apply len_replaced. exact Hi.
  - intros Hout.
    unfold rows_setitem, bind, gets, id, lift, modify, base_setitem.
    rewrite Hr, Hk. cbn [res_bind]. rewrite (set_out_of_range _ i r' Hout).
    reflexivity.
Qed.

Lemma insert_beyond {A} (l : list A) (i : Z) (x : A) :
len l <= i -> insert l i x = l ++ [x].
Proof.
intros H. unfold insert. pose proof (len_nonneg l).
destruct (Z.ltb_spec i 0); [lia|].
replace (Z.min i (len l)) with (len l) by lia.
unfold len. rewrite Nat2Z.id, firstn_all, skipn_all. reflexivity.
Qed.

Lemma insert_before {A} (l : list A) (i : Z) (x : A) :
i <= - len l -> i < 0 -> insert l i x = x :: l.
Proof.
intros H H0. unfold insert.
destruct (Z.ltb_spec i 0); [|lia].
replace (Z.max 0 (i + len l)) with 0 by lia. reflexivity.
Qed.

(** X25: [rows.insert] never fails on its index: on a table that has
    columns it returns for every integer, the table has one row and one
    row header more, and the columns are untouched.  An index at or
    beyond the number of rows appends the row, a negative index that
    reaches before the first row puts it first. *)
Theorem rows_insert_accepts_every_index (t : BeautifulTable) (index : Z)
        (r r' : row) (header : header_t) :
  _ncol t <> 0 ->
  BTRowData (with_rows_header (insert (rows_header t) index header) t) r
  = Ok r' ->
  exists t',
    rows_insert index r header t = Return tt t'
    /\ rows_len t' = rows_len t + 1
    /\ len (rows_header t') = len (rows_header t) + 1
    /\ columns t' = columns t /\ columns_len t' = columns_len t
    /\ (rows_len t <= index -> _data t' = _data t ++ [r'])
    /\ (index <= - rows_len t -> index < 0 -> _data t' = r' :: _data t).
Proof.
  intros Hn Hr. eexists.
  split; [apply (rows_insert_run t index r r' header Hn Hr)|].
  unfold rows_len.
  cbn [_data rows_header columns columns_len _ncol with_data
       with_rows_header].
  rewrite !len_insert. repeat (split; [reflexivity|]). split.
  - apply insert_beyond.
  - apply insert_before.
Qed.

Lemma filter_by_index_length {A B} (keep : Z -> bool) :
forall (l1 : list A) (l2 : list B) (s : Z),
  List.length l1 = List.length l2 ->
  List.length (filter (fun p => keep (fst p)) (enumerate_from s l1))
  = List.length (filter (fun p => keep (fst p)) (enumerate_from s l2)).
Proof.
induction l1 as [|x l1 IH]; intros [|y l2] s H; try discriminate.
- reflexivity.
- cbn [enumerate_from filter fst]. injection H as H.
  destruct (keep s); cbn [List.length]; rewrite (IH l2 (s + 1) H);
    reflexivity.
Qed.

Lemma filter_enumerate_sub {A} (keep : Z * A -> bool) (l : list A) (s : Z) :
(List.length (filter keep (enumerate_from s l)) <= List.length l)%nat
/\ forall x, In x (map snd (filter keep (enumerate_from s l))) -> In x l.
Proof.
revert s. induction l as [|y l IH]; intros s.
- split; [reflexivity|intros x []].
- destruct (IH (s + 1)) as (Hl & Hin). cbn [enumerate_from filter].
  destruct (keep (s, y)); cbn [List.length map snd]; split; try lia.
  + intros x [->|H]; [left; reflexivity|right; exact (Hin x H)].
  + intros x H. right. exact (Hin x H).
Qed.

Lemma range3_up_mem (i j k : Z) :
existsb (Z.eqb k) (range3 i j 1) = (i <=? k) && (k <? j).
Proof.
unfold range3. change (0 <? 1) with true. cbv iota zeta.
destruct (existsb (Z.eqb k) _) eqn:E.
- apply existsb_exists in E. destruct E as (x & Hin & Hx).
  apply Z.eqb_eq in Hx. subst x.
  apply in_map_iff in Hin. destruct Hin as (n & Hn & Hin).
  apply in_seq in Hin. destruct (Z.ltb_spec i j).
  + rewrite Z.div_1_r in Hin. symmetry. apply andb_true_iff.
    split; [apply Z.leb_le|apply Z.ltb_lt]; lia.
  + simpl in Hin. lia.
- symmetry. apply not_true_is_false. intros H.
  apply andb_true_iff in H. destruct H as [H1 H2].
  apply Z.leb_le in H1. apply Z.ltb_lt in H2.
  assert (Hex : existsb (Z.eqb k)
            (map (fun n => i + Z.of_nat n * 1)
               (seq 0 (Z.to_nat (if i <? j then (j - i - 1) / 1 + 1 else 0))))
          = true).
  { apply existsb_exists. exists k. split; [|apply Z.eqb_refl].
    apply in_map_iff. exists (Z.to_nat (k - i)). split; [lia|].
    apply in_seq. destruct (Z.ltb_spec i j); [|lia].
    rewrite Z.div_1_r. lia. }
  rewrite Hex in E. discriminate.
Qed.

Lemma filter_enumerate_all {A} (keep : Z -> bool) (l : list A) (s : Z) :
(forall k, s <= k < s + len l -> keep k = true) ->
map snd (filter (fun p => keep (fst p)) (enumerate_from s l)) = l.
Proof.
revert s. induction l as [|x l IH]; intros s H; [reflexivity|].
rewrite len_cons in H. pose proof (len_nonneg l).
cbn [enumerate_from filter fst]. rewrite (H s) by lia.
cbn [map snd]. rewrite IH; [reflexivity|]. intros k Hk. apply H. lia.
Qed.

Lemma filter_enumerate_none {A} (keep : Z -> bool) (l : list A) (s : Z) :
(forall k, s <= k < s + len l -> keep k = false) ->
filter (fun p => keep (fst p)) (enumerate_from s l) = [].
Proof.
revert s. induction l as [|x l IH]; intros s H; [reflexivity|].
rewrite len_cons in H. pose proof (len_nonneg l).
cbn [enumerate_from filter fst]. rewrite (H s) by lia.
apply IH. intros k Hk. apply H. lia.
Qed.

Lemma enumerate_from_app {A} (l1 l2 : list A) (s : Z) :
enumerate_from s (l1 ++ l2)
= enumerate_from s l1 ++ enumerate_from (s + len l1) l2.
Proof.
revert s. induction l1 as [|x l1 IH]; intros s.
- rewrite len_nil, Z.add_0_r. reflexivity.
- cbn [app enumerate_from]. rewrite IH, len_cons. f_equal. f_equal. f_equal.
  lia.
Qed.

(** Taking out the positions [i .. j - 1] leaves what is before [i] and
    what is from [j] on. *)
Lemma without_positions_range {A} (l : list A) (i j : Z) :
0 <= i <= j -> j <= len l ->
without_positions (range3 i j 1) l
= firstn (Z.to_nat i) l ++ skipn (Z.to_nat j) l.
Proof.
intros Hi Hj. unfold without_positions, enumerate.
assert (Hl : l = firstn (Z.to_nat i) l
                 ++ firstn (Z.to_nat (j - i)) (skipn (Z.to_nat i) l)
                 ++ skipn (Z.to_nat j) l).
{ rewrite <- (firstn_skipn (Z.to_nat i) l) at 1. f_equal.
  rewrite <- (firstn_skipn (Z.to_nat (j - i)) (skipn (Z.to_nat i) l)) at 1.
  f_equal. rewrite skipn_skipn. f_equal. lia. }
set (l1 := firstn (Z.to_nat i) l) in *.
set (l2 := firstn (Z.to_nat (j - i)) (skipn (Z.to_nat i) l)) in *.
set (l3 := skipn (Z.to_nat j) l) in *.
assert (H1 : len l1 = i).
{ unfold l1, len in *. rewrite length_firstn. lia. }
assert (H2 : len l2 = j - i).
{ unfold l2, len in *. rewrite length_firstn, length_skipn. lia. }
rewrite Hl at 1. rewrite !enumerate_from_app, !filter_app, !map_app.
rewrite H1, H2, Z.add_0_l.
rewrite (filter_enumerate_all
           (fun k => negb (existsb (Z.eqb k) (range3 i j 1))) l1 0).
2:{ intros k Hk. rewrite range3_up_mem.
    destruct (Z.leb_spec i k); [lia|reflexivity]. }
rewrite (filter_enumerate_none
           (fun k => negb (existsb (Z.eqb k) (range3 i j 1))) l2 i).
2:{ intros k Hk. rewrite range3_up_mem.
    destruct (Z.leb_spec i k); [|lia].
    destruct (Z.ltb_spec k j); [reflexivity|lia]. }
rewrite (filter_enumerate_all
           (fun k => negb (existsb (Z.eqb k) (range3 i j 1))) l3 (i + (j - i))).
2:{ intros k Hk. rewrite range3_up_mem.
    destruct (Z.ltb_spec k j); [lia|]. rewrite andb_false_r. reflexivity. }
reflexivity.
Qed.

(** The indices of [l[i:j]] and [l[i:j:1]], open ends included, for
    [0 <= i <= j <= n]. *)
Lemma slice_indices_up (a b c : option Z) (n : Z) :
c = None \/ c = Some 1 ->
0 <= bound_or 0 a <= bound_or n b -> bound_or n b <= n ->
slice_indices a b c n = Ok (range3 (bound_or 0 a) (bound_or n b) 1).
Proof.
intros Hc Ha Hb. unfold slice_indices.
assert (Hst : match c with Some s => s | None => 1 end = 1)
  by (destruct Hc as [->| ->]; reflexivity).
rewrite Hst. change (1 =? 0) with false. change (1 <? 0) with false.
cbv iota zeta. f_equal. f_equal.
- destruct a as [v|]; [|reflexivity]. cbn [bound_or] in *.
  destruct (Z.ltb_spec v 0); lia.
- destruct b as [v|]; [|reflexivity]. cbn [bound_or] in *.
  destruct (Z.ltb_spec v 0); lia.
Qed.

(** X26: [del rows[a:b:c]] removes the same positions from the rows and
    from the row headers, namely the indices that the slice selects among
    the rows, and nothing else of the table changes; a table that had one
    header per row still has.  For a slice without a step (or with the
    step 1) whose bounds, an open one standing for its end of the table,
    satisfy [0 <= i <= j <= len(rows)], these are the positions [i] to
    [j - 1]: the rows and headers before [i] and from [j] on are left, in
    their order.  A slice with the step 0 raises [ValueError] and changes
    nothing. *)
Theorem rows_delitem_by_slice (t : BeautifulTable) (a b c : option Z) :
  len (rows_header t) = rows_len t ->
  (c = Some 0 -> rows_delitem (KSlice a b c) t = Raise ValueError t)
  /\ (c <> Some 0 ->
      exists idx,
        slice_indices a b c (rows_len t) = Ok idx
        /\ rows_delitem (KSlice a b c) t
           = Return tt
               (with_rows_header (without_positions idx (rows_header t))
                  (with_data (without_positions idx (_data t)) t))
        /\ len (without_positions idx (rows_header t))
           = len (without_positions idx (_data t)))
  /\ (c = None \/ c = Some 1 ->
      let i := bound_or 0 a in
      let j := bound_or (rows_len t) b in
      0 <= i <= j -> j <= rows_len t ->
      rows_delitem (KSlice a b c) t
      = Return tt
          (with_rows_header
             (firstn (Z.to_nat i) (rows_header t)
              ++ skipn (Z.to_nat j) (rows_header t))
             (with_data
                (firstn (Z.to_nat i) (_data t) ++ skipn (Z.to_nat j) (_data t))
                t))).
Proof.
  intros Hlen. unfold rows_len in *.
  assert (Hrun : forall idx,
            slice_indices a b c (len (_data t)) = Ok idx ->
            rows_delitem (KSlice a b c) t
            = Return tt
                (with_rows_header (without_positions idx (rows_header t))
                   (with_data (without_positions idx (_data t)) t))).
  { intros idx Hidx.
    unfold rows_delitem, bind, gets, id, lift, modify, base_delitem.
    cbn [_canonical_key res_bind list_delitem]. unfold del_slice.
    rewrite Hidx. cbn [rows_header with_data]. rewrite Hlen, Hidx.
    reflexivity. }
  split; [|split].
  - intros ->. unfold rows_delitem, bind, gets, id, lift, base_delitem.
    cbn [_canonical_key res_bind list_delitem]. unfold del_slice.
    cbn [slice_indices Z.eqb]. reflexivity.
  - intros Hc.
    assert (Hst : (match c with Some s => s | None => 1 end =? 0) = false).
    { destruct c as [s|]; [|reflexivity].
      destruct (Z.eqb_spec s 0) as [->|]; [contradiction|reflexivity]. }
    destruct (slice_indices a b c (len (_data t))) as [idx|e] eqn:Hidx.
    2:{ unfold slice_indices in Hidx. rewrite Hst in Hidx. discriminate. }
    exists idx. split; [reflexivity|]. split; [apply Hrun; reflexivity|].
    unfold without_positions, len. rewrite !length_map. f_equal.
    apply (filter_by_index_length
             (fun k => negb (existsb (Z.eqb k) idx))).
    unfold len in Hlen. lia.
  - intros Hc Hi Hj.
    rewrite (Hrun _ (slice_indices_up a b c _ Hc Hi Hj)).
    rewrite !without_positions_range by (rewrite ?Hlen; assumption).
    reflexivity.
Qed.

(* ================================================================ *)
(** ** Rendering with serial numbers *)

Section ReturnsInto.
Variable t0 : BeautifulTable.
Variable Q : BeautifulTable -> Prop.

Lemma ri_bind {A B} (m : M A) (f : A -> M B) :
keeps_on_return t0 m -> (forall a, returns_into t0 Q (f a)) ->
returns_into t0 Q (bind m f).
Proof.
intros Hm Hf t b t' Hw Hrun.
apply bind_inv in Hrun. destruct Hrun as (a & t1 & Hstep & Hrun).
exact (Hf a t1 b t' (Hm t a t1 Hw Hstep) Hrun).
Qed.

Lemma ri_bind_gets {B} (k : BeautifulTable -> M B) :
(forall t, widths_only t0 t -> returns_into t0 Q (k t)) ->
returns_into t0 Q (bind (gets id) k).
Proof.
intros Hk t b t' Hw Hrun. unfold bind, gets, id in Hrun.
exact (Hk t Hw t b t' Hw Hrun).
Qed.

End ReturnsInto.

Lemma well_formed_other_widths (t : BeautifulTable) (ws : list Z) (m : Z) :
well_formed t -> len ws = _ncol t ->
well_formed (with_maxwidth m (set_widths ws t)).
Proof.
intros (H0 & H1 & H2 & H3 & H4 & H5 & H6 & H7) Hws.
repeat split; assumption.
Qed.

Lemma len_range3_up (n : Z) : 0 <= n -> len (range3 1 (n + 1) 1) = n.
Proof.
intros Hn. unfold range3. change (0 <? 1) with true. cbv iota zeta.
unfold len. rewrite length_map, length_seq.
destruct (Z.ltb_spec 1 (n + 1)).
- rewrite Z.div_1_r. lia.
- simpl. lia.
Qed.

Lemma columns_without_with_width (i : Z) (ws : list Z) (c : Columns.t) :
columns_without i (Columns.with_width ws c)
= Columns.with_width (without i ws) (columns_without i c).
Proof. destruct c. reflexivity. Qed.

(** Popping the first column of a table that got a new first column and
    other widths since: the items come back and the table is the old one
    up to the widths. *)
Lemma serial_column_removed (t : BeautifulTable) (column : list value)
    (h : header_t) (ws : list Z) (m : Z) :
well_formed t -> 1 <= _ncol t -> rows_len t <= len column ->
len ws = _ncol t + 1 ->
columns_pop (KInt 0)
  (with_maxwidth m
     (set_widths ws
        (with_columns (columns_with_new 0 h (columns t))
           (with_ncol (_ncol t + 1)
              (with_data (map (fun p => insert (fst p) 0 (snd p))
                              (combine (_data t) column)) t)))))
= Return (firstn (Z.to_nat (rows_len t)) column)
         (with_maxwidth m (set_widths (without 0 ws) t)).
Proof.
intros Hwf H1 Hlen Hws.
destruct (columns_insert_wf t 0 column h Hwf Hlen) as (Hwf' & _).
match goal with |- columns_pop _ (with_maxwidth _ (set_widths _ ?x)) = _ =>
  set (tX := x) in * end.
pose proof (well_formed_other_widths tX ws m Hwf' Hws) as Hwf8.
match goal with |- columns_pop _ ?x = _ => set (t8 := x) in * end.
destruct (columns_remove_run t8 (KInt 0) 0 Hwf8 eq_refl) as (_ & Hpop).
{ subst t8 tX. cbn [_ncol with_columns with_ncol with_maxwidth set_widths].
  lia. }
rewrite Hpop. unfold bind. rewrite columns_sync_ncol_keeps.
- destruct Hwf as (Hn & Hh & Ha & Hw & Hl & Hr & Hd & Hrh).
  subst t8 tX.
  destruct (map_map_combine_insert 0 (_ncol t) (_data t) column
              ltac:(lia) Hd) as (E1 & E2).
  { unfold rows_len, len in Hlen. lia. }
  clear Hpop Hwf8 Hwf'.
  cbn [_data columns with_ncol with_columns with_data with_maxwidth
       set_widths].
  rewrite E1, E2, columns_without_with_width.
  rewrite (columns_without_with_new 0 (_ncol t)) by (assumption || lia).
  cbn [Columns.with_width Columns.header]. rewrite Hh.
  unfold ret, rows_len, len. rewrite Nat2Z.id.
  destruct t as [ncol data rh c mw st np sn snh dn sm].
  destruct c as [hd hal al wd pdl pdr wep pc dal dp]. reflexivity.
- subst t8 tX.
  cbn [columns with_ncol with_columns with_data columns_without
       columns_with_new Columns.header with_maxwidth set_widths
       Columns.with_width].
  destruct Hwf as (Hn & Hh & _).
  destruct (columns t). cbn [Columns.header Columns.with_width] in *.
  rewrite len_without by (rewrite len_insert; lia).
  rewrite len_insert. lia.
Qed.

(** X27: with serial numbers on, [get_string] puts the column of serial
    numbers in front for the time of the rendering only: when it returns,
    the table is the one it was given, with as many columns and the same
    cells, headers, alignments and paddings; the widths and the stored
    maximal width alone may differ. *)
Theorem get_string_takes_the_serial_column_out (t t' : BeautifulTable)
        (recalculate_width : bool) (s : pystr) :
  well_formed t ->
  serialno t = true ->
  get_string recalculate_width t = Return s t' ->
  exists ws m,
    len ws = len (Columns.width (columns t))
    /\ t' = with_maxwidth m (set_widths ws t).
Proof.
  intros Hwf Hs Hrun.
  unfold get_string, bind at 1, gets at 1, id in Hrun.
  destruct (rows_len t =? 0).
  { injection Hrun as _ <-. apply widths_only_refl. }
  apply bind_inv in Hrun. destruct Hrun as (lines & t1 & Hrun & Hret).
  injection Hret as _ <-.
  unfold _get_string in Hrun. cbn [enumerate_from for_fold] in Hrun.
  unfold bind at 1, gets at 1, id in Hrun.
  apply bind_inv in Hrun. destruct Hrun as (u & tX & Hins & Hrun).
  pose proof Hwf as (Hn & Hh & Ha & Hw & Hl & Hr & Hd & Hrh).
  match type of Hrun with
  | ?rest _ = _ =>
      assert (Hmid : forall t0,
                (serialno t0 && (0 <? columns_len t0) = true ->
                 returns_into t0 (widths_only t)
                   (columns_pop (KInt 0) ;; ret tt)) ->
                (serialno t0 && (0 <? columns_len t0) = false ->
                 widths_only t t0) ->
                returns_into t0 (widths_only t) rest)
  end.
  { intros t0 Hpop Hno.
    apply ri_bind_gets. intros t3 H3.
    apply ri_bind.
    { apply keeps_content_on_return.
      destruct (_ || _); [apply keeps_calculate_width|apply keeps_ret]. }
    intros _.
    apply ri_bind_gets. intros t4 H4.
    apply ri_bind; [apply keeps_content_on_return; repeat keeps_step|].
    intros _.
    apply ri_bind_gets. intros t5 H5.
    apply ri_bind; [apply keeps_content_on_return, keeps_yield_if|].
    intros top.
    apply ri_bind; [apply keeps_content_on_return; repeat keeps_step|].
    intros head.
    apply ri_bind; [apply keeps_content_on_return; repeat keeps_step|].
    intros st.
    apply ri_bind_gets. intros t6 H6.
    apply ri_bind; [apply keeps_content_on_return, keeps_ret|].
    intros st'.
    apply ri_bind_gets. intros t7 H7.
    apply ri_bind; [apply keeps_content_on_return, keeps_yield_if|].
    intros bottom.
    apply ri_bind_gets. intros t8 H8.
    unfold columns_len in *.
    rewrite (widths_only_serialno _ _ H8), (widths_only_ncol _ _ H8).
    destruct (serialno t0 && (0 <? _ncol t0)) eqn:Ec.
    - intros t9 a t10 W Hr9.
      apply bind_inv in Hr9. destruct Hr9 as (a' & tb & Hr9 & Hret).
      injection Hret as _ <-.
      exact (Hpop eq_refl t9 a' tb W Hr9).
    - intros t9 a t10 W Hr9.
      injection Hr9 as _ <-.
      eapply widths_only_trans; [exact (Hno eq_refl)|exact W]. }
  rewrite Hs in Hins. cbn [andb] in Hins. unfold columns_len in Hins.
  destruct (Z.ltb_spec 0 (_ncol t)) as [Hpos|Hzero].
  - rewrite columns_insert_run in Hins.
    + injection Hins as _ Hins. symmetry in Hins.
      refine (Hmid _ _ _ tX lines t1 (widths_only_refl tX) Hrun);
        rewrite Hins.
      * intros _ t8 a t9 (ws & m & Hws & ->) Hr8.
        apply bind_inv in Hr8. destruct Hr8 as (p & tb & Hr8 & Hret).
        injection Hret as _ <-.
        rewrite serial_column_removed in Hr8.
        -- injection Hr8 as _ <-. exists (without 0 ws), m.
           split; [|reflexivity].
           cbn [columns with_columns columns_with_new Columns.width] in Hws.
           rewrite len_without by (rewrite Hws, len_insert; lia).
           rewrite Hws, len_insert. lia.
        -- exact Hwf.
        -- lia.
        -- unfold len. rewrite length_map. apply Z.eq_le_incl. symmetry.
           apply len_range3_up. unfold rows_len, len. lia.
        -- cbn [columns with_columns columns_with_new Columns.width] in Hws.
           rewrite Hws, len_insert. lia.
      * cbn [serialno _ncol columns_len with_columns with_ncol with_data].
        rewrite Hs. cbn [andb]. intros Hc. apply Z.ltb_ge in Hc. lia.
    + lia.
    + unfold len. rewrite length_map. apply Z.eq_le_incl. symmetry.
      apply len_range3_up. unfold rows_len, len. lia.
  - injection Hins as _ Hins. symmetry in Hins.
    refine (Hmid _ _ _ tX lines t1 (widths_only_refl tX) Hrun);
      rewrite Hins.
    + rewrite Hs. cbn [andb]. unfold columns_len. intros Hc.
      apply Z.ltb_lt in Hc. lia.
    + intros _. apply widths_only_refl.
Qed.

Local Close Scope meth_scope.

End Program.

(* ================================================================== *)
(** ** The properties at concrete tables *)


Import Concrete Samples.

Lemma pop_from_empty_table_witness :
  rows_pop (KInt (-1)) empty = Raise IndexError empty
  /\ columns_pop (KInt (-1)) empty = Raise IndexError empty.
Proof.
  destruct (pop_from_empty_table empty (KInt (-1)) eq_refl) as [Hr Hc].
  split; [apply Hr|apply Hc]; reflexivity.
Defined.

Lemma rows_append_ignores_header_witness :
  rows_header
    (final_table
       (rows_append Example.BTRowData [VInt 3] (Some (str "third"))
                    one_column))
  = [None; None; None].
Proof.
  destruct (rows_append_ignores_header Example.BTRowData one_column [VInt 3]
              (Some (str "third")) eq_refl) as (_ & H & _).
  exact H.
Defined.

Lemma get_string_without_rows_witness :
  get_string Example.BTRowData Ansi.termwidth Ansi.wrap Example.format_value
             true empty
  = Return [] empty.
Proof.
  apply (get_string_without_rows Example.BTRowData Ansi.termwidth Ansi.wrap
           Example.format_value empty true).
  reflexivity.
Defined.

Lemma column_removal_clears_rows_witness :
  rows_len (final_table (columns_delitem (KInt 0) one_column)) = 0
  /\ rows_len (final_table (columns_pop (KInt 0) one_column)) = 0.
Proof.
  split.
  - apply (column_removal_clears_rows one_column _ (KInt 0)).
    + left. vm_compute. reflexivity.
    + reflexivity.
  - apply (column_removal_clears_rows one_column _ (KInt 0)).
    + right. exists [VInt 1; VInt 2]. vm_compute. reflexivity.
    + reflexivity.
Defined.

(** C1: inserting the one-cell column [[9]] headed "h" before the only
    column of the two-row table [one_column] raises [ValueError], and the
    rollback, which starts one row too far, takes the only cell of the
    second row: the table is not left as it was. *)
Theorem columns_insert_short_column_loses_cell
        (BTRowData : BeautifulTable -> row -> res row) :
  exists t',
    columns_insert BTRowData 0 [VInt 9] (Some (str "h")) one_column
    = Raise ValueError t'
    /\ _data one_column = [[VInt 1]; [VInt 2]]
    /\ _data t' = [[VInt 1]; []]
    /\ t' <> one_column.
Proof.
  eexists. split; [vm_compute; reflexivity|].
  split; [reflexivity|]. split; [reflexivity|].
  intros H. apply (f_equal _data) in H. discriminate H.
Qed.

(** C3: on [three_columns] the three columns are shrunk to 1, 3 and 2
    columns of text and 2 columns are left to hand out.  The share of the
    widest shrunk column (the second) is added to the third column, the one
    at its position in the sorted order: the widths with their padding end
    as 3, 6, 5, where the shares by column would give 3, 7, 4.  The widths
    still add up to the budget. *)
Theorem calculate_width_share_goes_to_position :
  exists t',
    _calculate_width Ansi.termwidth Example.format_value three_columns
    = Return tt t'
    /\ Columns.width (columns t') = [3; 6; 5]
    /\ Columns.width (columns t') <> [3; 7; 4]
    /\ width Ansi.termwidth t' = 18.
Proof.
  eexists. split; [vm_compute; reflexivity|].
  split; [reflexivity|]. split; [discriminate|reflexivity].
Qed.

(** C8: with the full-width dash as the top border, a fill that is not
    blank and takes two columns, the line is not as wide as the table.  The
    fill is repeated [width / 2 + 1] times and cut to [width] characters,
    and the intersections are written by character position.  On [narrow],
    5 columns wide, [get_string] draws a top border of 3 characters and 4
    columns over lines of 5 columns.  On [three_columns], 18 columns wide
    once the widths are computed, the line has 10 characters, and writing
    the intersection after the second column, at position 11, raises
    [IndexError], which [get_string] passes on. *)
Theorem horizontal_line_wide_fill_misses_the_width :
  Ansi.termwidth fullwidth_dash = 2
  /\ PyStr.isspace fullwidth_dash = false
  /\ (exists t',
        get_string Example.BTRowData Ansi.termwidth Ansi.wrap
                   Example.format_value true
                   (with_top_border fullwidth_dash narrow)
        = Return (PyStr.join [PyStr.newline]
                    [str "+" ++ fullwidth_dash ++ str "+";
                     str "| x |";
                     str "+---+"]) t'
        /\ width Ansi.termwidth t' = 5
        /\ _get_top_border Ansi.termwidth t'
           = Ok (str "+" ++ fullwidth_dash ++ str "+"))
  /\ Ansi.termwidth (str "+" ++ fullwidth_dash ++ str "+") = 4
  /\ (exists t',
        get_string Example.BTRowData Ansi.termwidth Ansi.wrap
                   Example.format_value true
                   (with_top_border fullwidth_dash three_columns)
        = Raise IndexError t'
        /\ width Ansi.termwidth t' = 18
        /\ _get_top_border Ansi.termwidth t' = Err IndexError).
Proof.
  split; [reflexivity|]. split; [reflexivity|]. split.
  { eexists. split; [vm_compute; reflexivity|].
    split; vm_compute; reflexivity. }
  split; [reflexivity|].
  eexists. split; [vm_compute; reflexivity|].
  split; vm_compute; reflexivity.
Qed.

(* ================================================================ *)
(** ** The measurer and the wrapper of the specification *)

Lemma visible_bounds (st : Ansi.scan) (c : N) : 0 <= Ansi.visible st c <= 2.
Proof.
unfold Ansi.visible, Ansi.wcwidth.
destruct st; try lia. destruct (c =? 27)%N; [lia|].
destruct (Ansi.wide c); lia.
Qed.

Lemma termwidth_from_nonneg (s : pystr) :
forall st, 0 <= Ansi.termwidth_from st s.
Proof.
induction s as [|c r IH]; intros st; cbn [Ansi.termwidth_from]; [lia|].
pose proof (visible_bounds st c). pose proof (IH (Ansi.scan_next st c)). lia.
Qed.

Lemma termwidth_nonneg (s : pystr) : 0 <= Ansi.termwidth s.
Proof. apply termwidth_from_nonneg. Qed.

Lemma termwidth_from_app (a b : pystr) :
forall st,
  Ansi.termwidth_from st (a ++ b)
  = Ansi.termwidth_from st a + Ansi.termwidth_from (Ansi.scan_end st a) b.
Proof.
induction a as [|c a IH]; intros st.
- cbn [app Ansi.termwidth_from Ansi.scan_end fold_left]. lia.
- cbn [app Ansi.termwidth_from]. rewrite IH.
  unfold Ansi.scan_end. cbn [fold_left]. lia.
Qed.

Lemma scan_end_app (a b : pystr) (st : Ansi.scan) :
Ansi.scan_end st (a ++ b) = Ansi.scan_end (Ansi.scan_end st a) b.
Proof. unfold Ansi.scan_end. apply fold_left_app. Qed.

(** The marker adds three columns at most, and three when it follows
    plain text. *)
Lemma termwidth_marker (a : pystr) :
Ansi.termwidth (a ++ str "...") <= Ansi.termwidth a + 3
/\ (Ansi.closed a ->
    Ansi.termwidth (a ++ str "...") = Ansi.termwidth a + 3).
Proof.
unfold Ansi.termwidth, Ansi.closed. rewrite termwidth_from_app. split.
- destruct (Ansi.scan_end Ansi.Text a); vm_compute Ansi.termwidth_from at 2;
    lia.
- intros ->. reflexivity.
Qed.

Lemma termwidth_closed_app (u rest : pystr) :
Ansi.closed u ->
Ansi.termwidth (u ++ rest) = Ansi.termwidth u + Ansi.termwidth rest.
Proof.
unfold Ansi.closed, Ansi.termwidth. intros H.
rewrite termwidth_from_app, H. reflexivity.
Qed.

(** Every unit but the last one of a string is closed. *)
Lemma units_from_closed (s : pystr) :
forall st cur,
  Ansi.scan_end Ansi.Text cur = st ->
  Forall Ansi.closed (removelast (Ansi.units_from st cur s)).
Proof.
induction s as [|c r IH]; intros st cur Hcur.
- cbn [Ansi.units_from]. destruct cur; constructor.
- cbn [Ansi.units_from].
  assert (Hnext : Ansi.scan_end Ansi.Text (cur ++ [c]) = Ansi.scan_next st c).
  { rewrite scan_end_app, Hcur. reflexivity. }
  assert (Hone : forall u rest,
            Ansi.closed u ->
            Forall Ansi.closed (removelast rest) ->
            Forall Ansi.closed (removelast (u :: rest))).
  { intros u rest Hu Hrest. cbn [removelast].
    destruct rest; [constructor|]. constructor; assumption. }
  destruct st; destruct (Ansi.scan_next _ c) eqn:En;
    try (apply Hone; [|apply IH; reflexivity]);
    try (apply IH; exact Hnext).
  all: unfold Ansi.closed; try exact Hnext.
  unfold Ansi.scan_end. cbn [fold_left]. exact En.
Qed.

Lemma units_closed (s : pystr) :
Forall Ansi.closed (removelast (Ansi.units s)).
Proof. apply units_from_closed. reflexivity. Qed.

Lemma removelast_prefix {A} (P : A -> Prop) (a b : list A) :
Forall P (removelast (a ++ b)) -> Forall P (removelast a).
Proof.
induction a as [|x a IH]; intros H; [constructor|].
destruct a as [|y a]; [constructor|].
change (Forall P (removelast ((x :: y :: a) ++ b)))
  with (Forall P (x :: removelast ((y :: a) ++ b))) in H.
inversion H as [|? ? Hx Hr]; subst.
change (Forall P (x :: removelast (y :: a))).
constructor; [exact Hx|apply IH, Hr].
Qed.

(** The width of a line is the sum of the widths of its units. *)
Lemma termwidth_concat (us : list pystr) :
Forall Ansi.closed (removelast us) ->
Ansi.termwidth (List.concat us) = zsum (map Ansi.termwidth us).
Proof.
induction us as [|u r IH]; intros H; [reflexivity|].
cbn [List.concat map zsum fold_right].
destruct r as [|v r].
- cbn [List.concat map fold_right]. rewrite app_nil_r. lia.
- change (removelast (u :: v :: r)) with (u :: removelast (v :: r)) in H.
  inversion H as [|? ? Hu Hr]; subst.
  rewrite termwidth_closed_app by exact Hu.
  rewrite (IH Hr). reflexivity.
Qed.

Lemma zsum_termwidth_nonneg (us : list pystr) :
0 <= zsum (map Ansi.termwidth us).
Proof.
induction us as [|u r IH]; cbn [map zsum fold_right]; [lia|].
pose proof (termwidth_nonneg u). unfold zsum in IH. lia.
Qed.

Lemma zsum_termwidth_app (a b : list pystr) :
zsum (map Ansi.termwidth (a ++ b))
= zsum (map Ansi.termwidth a) + zsum (map Ansi.termwidth b).
Proof. rewrite map_app. apply zsum_app. Qed.

(** [fit] splits the units, and what it takes fits the width. *)
Lemma fit_spec (us : list pystr) :
forall width a b,
  Ansi.fit width us = (a, b) ->
  us = a ++ b /\ (0 <= width -> zsum (map Ansi.termwidth a) <= width).
Proof.
induction us as [|u r IH]; intros width a b H; cbn [Ansi.fit] in H.
- injection H as <- <-. split; [reflexivity|]. cbn. lia.
- destruct (Z.leb_spec (Ansi.termwidth u) width) as [Hu|Hu].
  + destruct (Ansi.fit (width - Ansi.termwidth u) r) as [a' b'] eqn:E.
    injection H as <- <-. destruct (IH _ _ _ E) as (Hr & Hw).
    split; [rewrite Hr at 1; reflexivity|].
    intros _. cbn [map zsum fold_right].
    pose proof (Hw ltac:(lia)) as Hw'. unfold zsum in Hw'. lia.
  + injection H as <- <-. split; [reflexivity|]. cbn. lia.
Qed.

Lemma split_last_blank_spec (us : list pystr) :
forall a b,
  Ansi.split_last_blank us = Some (a, b) -> exists u, us = a ++ u :: b.
Proof.
induction us as [|u r IH]; intros a b H; cbn [Ansi.split_last_blank] in H;
  [discriminate|].
destruct (Ansi.split_last_blank r) as [[a' b']|] eqn:E.
- injection H as <- <-. destruct (IH _ _ eq_refl) as (v & ->).
  exists v. reflexivity.
- destruct (Ansi.is_blank u); [|discriminate].
  injection H as <- <-. exists u. reflexivity.
Qed.

(** A line that starts with a unit that fits is a prefix of the units and
    fits the width. *)
Lemma take_line_fits (width : Z) (u : pystr) (r : list pystr) :
Ansi.termwidth u <= width ->
exists rest,
  u :: r = fst (Ansi.take_line width (u :: r)) ++ rest
  /\ zsum (map Ansi.termwidth (fst (Ansi.take_line width (u :: r))))
     <= width.
Proof.
intros Hu. pose proof (termwidth_nonneg u) as H0.
unfold Ansi.take_line.
destruct (Ansi.fit width (u :: r)) as [a b] eqn:E.
destruct (fit_spec _ _ _ _ E) as (Hus & Hw). specialize (Hw ltac:(lia)).
destruct a as [|x a].
{ cbn [Ansi.fit] in E.
  destruct (Z.leb_spec (Ansi.termwidth u) width); [|lia].
  destruct (Ansi.fit (width - Ansi.termwidth u) r). discriminate. }
destruct b as [|v b].
{ exists []. split; [exact Hus|exact Hw]. }
destruct (Ansi.is_blank v).
{ exists (v :: b). split; [exact Hus|exact Hw]. }
destruct (Ansi.split_last_blank (x :: a)) as [[[|y ys] after]|] eqn:Es;
  try (exists (v :: b); split; [exact Hus|exact Hw]).
destruct (split_last_blank_spec _ _ _ Es) as (bl & Hsplit).
cbn [fst]. exists ((bl :: after) ++ v :: b). split.
- rewrite Hus, Hsplit, <- app_assoc. reflexivity.
- rewrite Hsplit, zsum_termwidth_app in Hw.
  pose proof (zsum_termwidth_nonneg (bl :: after)). lia.
Qed.

(** The first line the wrapper returns fits a width that is not
    negative. *)
Lemma wrap_first_line (s : pystr) (width : Z) :
0 <= width ->
exists line rest,
  Ansi.wrap s width = line :: rest /\ Ansi.termwidth line <= width.
Proof.
intros Hw. unfold Ansi.wrap.
pose proof (units_closed s) as Hc.
destruct (Ansi.units s) as [|u r]; [exists [], []; split; [reflexivity|exact Hw]|].
cbv zeta. destruct (Z.leb_spec (Ansi.termwidth u) width) as [Hu|Hu].
- cbn [List.length Ansi.wrap_units].
  destruct (take_line_fits width u r Hu) as (rest & Hus & Hfit).
  destruct (Ansi.take_line width (u :: r)) as [line rest'].
  cbn [fst] in *. eexists. eexists. split; [reflexivity|].
  rewrite termwidth_concat; [exact Hfit|].
  rewrite Hus in Hc. exact (removelast_prefix _ _ _ Hc).
- eexists. eexists. split; [reflexivity|exact Hw].
Qed.

Lemma get_first {A} (x : A) (l : list A) : get (x :: l) 0 = Ok x.
Proof. exact (get_mid [] l x). Qed.

(** Plain text: one unit and one column per character, no blank. *)
Lemma plain_cons (c : N) (s : pystr) :
Ansi.plain (c :: s) = true ->
(c =? 27)%N = false /\ Ansi.wide c = false
/\ PyStr.is_whitespace c = false /\ Ansi.plain s = true.
Proof.
unfold Ansi.plain. cbn [forallb]. intros H.
apply andb_true_iff in H. destruct H as [H Hs].
apply andb_true_iff in H. destruct H as [H H3].
apply andb_true_iff in H. destruct H as [H1 H2].
apply negb_true_iff in H1, H2, H3. repeat split; assumption.
Qed.

Lemma plain_units (s : pystr) :
Ansi.plain s = true -> Ansi.units s = map (fun c => [c]) s.
Proof.
unfold Ansi.units. induction s as [|c s IH]; intros H; [reflexivity|].
destruct (plain_cons c s H) as (Hesc & _ & _ & Hs).
cbn [Ansi.units_from Ansi.scan_next map]. rewrite Hesc.
rewrite (IH Hs). reflexivity.
Qed.

Lemma plain_termwidth (s : pystr) :
Ansi.plain s = true -> Ansi.termwidth s = len s.
Proof.
unfold Ansi.termwidth. induction s as [|c s IH]; intros H; [reflexivity|].
destruct (plain_cons c s H) as (Hesc & Hwide & _ & Hs).
cbn [Ansi.termwidth_from Ansi.visible Ansi.scan_next].
unfold Ansi.wcwidth. rewrite Hesc, Hwide, (IH Hs), len_cons. lia.
Qed.

Lemma plain_firstn (n : nat) (s : pystr) :
Ansi.plain s = true -> Ansi.plain (firstn n s) = true.
Proof. apply firstn_forallb. Qed.

Lemma plain_fit (s : pystr) :
Ansi.plain s = true ->
forall n : nat,
  Ansi.fit (Z.of_nat n) (map (fun c => [c]) s)
  = (map (fun c => [c]) (firstn n s), map (fun c => [c]) (skipn n s)).
Proof.
induction s as [|c s IH]; intros H n.
- destruct n; reflexivity.
- destruct (plain_cons c s H) as (Hesc & Hwide & _ & Hs).
  assert (H1 : Ansi.termwidth [c] = 1).
  { rewrite (plain_termwidth [c]); [reflexivity|].
    unfold Ansi.plain in *. cbn [forallb] in *.
    apply andb_true_iff in H. destruct H as [H _]. rewrite H. reflexivity. }
  cbn [map Ansi.fit]. rewrite H1. destruct n as [|n].
  + reflexivity.
  + destruct (Z.leb_spec 1 (Z.of_nat (S n))); [|lia].
    replace (Z.of_nat (S n) - 1) with (Z.of_nat n) by lia.
    rewrite (IH Hs n). reflexivity.
Qed.

Lemma plain_no_blank (s : pystr) :
Ansi.plain s = true ->
Ansi.split_last_blank (map (fun c => [c]) s) = None.
Proof.
induction s as [|c s IH]; intros H; [reflexivity|].
destruct (plain_cons c s H) as (_ & _ & Hb & Hs).
cbn [map Ansi.split_last_blank Ansi.is_blank]. rewrite (IH Hs), Hb.
reflexivity.
Qed.

Lemma concat_singletons {A} (l : list A) :
List.concat (map (fun c => [c]) l) = l.
Proof. induction l as [|x l IH]; [reflexivity|]. cbn. rewrite IH. reflexivity. Qed.

(** The first line of plain text that is too long is its first [width]
    characters. *)
Lemma plain_wrap_first_line (s : pystr) (width : Z) :
Ansi.plain s = true -> 0 <= width < len s ->
exists rest,
  Ansi.wrap s width = firstn (Z.to_nat width) s :: rest.
Proof.
intros Hp Hw. unfold Ansi.wrap. rewrite (plain_units s Hp).
destruct s as [|c s]; [unfold len in Hw; simpl in Hw; lia|].
cbn [map]. cbv zeta.
assert (H1 : Ansi.termwidth [c] = 1).
{ rewrite (plain_termwidth [c]); [reflexivity|].
  unfold Ansi.plain in *. cbn [forallb] in *.
  apply andb_true_iff in Hp. destruct Hp as [H _]. rewrite H. reflexivity. }
rewrite H1. destruct (Z.leb_spec 1 width) as [Hpos|Hzero].
- cbn [List.length Ansi.wrap_units].
  change ([c] :: map (fun c0 => [c0]) s) with (map (fun c0 => [c0]) (c :: s)).
  unfold Ansi.take_line.
  pose proof (plain_fit (c :: s) Hp (Z.to_nat width)) as Hf.
  rewrite Z2Nat.id in Hf by lia. rewrite Hf. clear Hf.
  set (n := Z.to_nat width).
  assert (Hn : (0 < n < List.length (c :: s))%nat).
  { unfold len in Hw. subst n. lia. }
  destruct (firstn n (c :: s)) as [|x xs] eqn:Ef.
  { apply (f_equal (@List.length N)) in Ef. rewrite length_firstn in Ef.
    cbn [List.length] in Ef, Hn. lia. }
  destruct (skipn n (c :: s)) as [|y ys] eqn:Es.
  { apply (f_equal (@List.length N)) in Es. rewrite length_skipn in Es.
    cbn [List.length] in Es, Hn. lia. }
  assert (Hy : Ansi.plain (y :: ys) = true).
  { rewrite <- Es. unfold Ansi.plain.
    rewrite <- (firstn_skipn n (c :: s)) in Hp. unfold Ansi.plain in Hp.
    rewrite forallb_app in Hp. apply andb_true_iff in Hp. apply Hp. }
  destruct (plain_cons y ys Hy) as (_ & _ & Hb & _).
  cbn [map Ansi.is_blank]. rewrite Hb.
  assert (Hx : Ansi.plain (x :: xs) = true).
  { rewrite <- Ef. apply plain_firstn, Hp. }
  pose proof (plain_no_blank (x :: xs) Hx) as Hnb. cbn [map] in Hnb.
  rewrite Hnb.
  change ([x] :: map (fun c0 => [c0]) xs) with (map (fun c0 => [c0]) (x :: xs)).
  rewrite concat_singletons. eexists. reflexivity.
- replace (Z.to_nat width) with 0%nat by lia. eexists. reflexivity.
Qed.

(** C5 (amended): under the ellipsis policy a cell wider than the
    printable width [w] is clamped as follows.  When [3 <= w] the result
    is the first line of the cell wrapped to [w - 3] columns, followed by
    "...": it ends in "..." and is at most [w] columns wide; for a cell of
    single-width characters without whitespace and escape sequences that
    line is the first [w - 3] characters of the cell and the result is
    exactly [w] columns wide.  When [w < 3] the result is ["..."[:w]],
    which has [w] characters and [w] columns for [0 <= w]. *)
Theorem clamp_string_ellipsis (t : BeautifulTable) (row_item : pystr)
        (index w : Z) :
  printable_width t index = Ok w ->
  w < Ansi.termwidth row_item ->
  (3 <= w ->
   exists line,
     get (Ansi.wrap row_item (w - 3)) 0 = Ok line
     /\ _clamp_string Ansi.termwidth Ansi.wrap t row_item index (str "...")
        = Ok (line ++ str "...")
     /\ Ansi.termwidth (line ++ str "...") <= w
     /\ (Ansi.plain row_item = true ->
         line = firstn (Z.to_nat (w - 3)) row_item
         /\ Ansi.termwidth (line ++ str "...") = w))
  /\ (w < 3 ->
      _clamp_string Ansi.termwidth Ansi.wrap t row_item index (str "...")
      = Ok (slice_to (str "...") w)
      /\ (0 <= w ->
          len (slice_to (str "...") w) = w
          /\ Ansi.termwidth (slice_to (str "...") w) = w)).
Proof.
  intros Hw Hwide.
  destruct (clamp_string_ellipsis_branches Ansi.termwidth Ansi.wrap t
              row_item index w Hw Hwide) as (Hlong & Hshort).
  split.
  - intros H3.
    destruct (wrap_first_line row_item (w - 3) ltac:(lia))
      as (line & rest & Hwrap & Hfit).
    assert (Hget : get (Ansi.wrap row_item (w - 3)) 0 = Ok line)
      by (rewrite Hwrap; apply get_first).
    exists line. split; [exact Hget|].
    split; [apply (Hlong H3 line Hget)|].
    destruct (termwidth_marker line) as (Hle & Heq).
    split; [lia|].
    intros Hp.
    destruct (plain_wrap_first_line row_item (w - 3) Hp) as (rest' & Hw').
    { rewrite <- (plain_termwidth row_item Hp). lia. }
    rewrite Hw' in Hwrap. injection Hwrap as <- _.
    split; [reflexivity|].
    assert (Hpl : Ansi.plain (firstn (Z.to_nat (w - 3)) row_item) = true)
      by (apply plain_firstn, Hp).
    unfold Ansi.termwidth. rewrite termwidth_from_app.
    fold (Ansi.termwidth (firstn (Z.to_nat (w - 3)) row_item)).
    rewrite (plain_termwidth _ Hpl).
    assert (Hcl : Ansi.scan_end Ansi.Text (firstn (Z.to_nat (w - 3)) row_item)
                  = Ansi.Text).
    { clear - Hpl. induction (firstn (Z.to_nat (w - 3)) row_item) as [|c l IH];
        [reflexivity|].
      destruct (plain_cons c l Hpl) as (Hesc & _ & _ & Hl).
      unfold Ansi.scan_end. cbn [fold_left Ansi.scan_next]. rewrite Hesc.
      apply IH, Hl. }
    rewrite Hcl.
    change (Ansi.termwidth_from Ansi.Text (str "...")) with 3.
    unfold len. rewrite length_firstn.
    rewrite (plain_termwidth row_item Hp) in Hwide. unfold len in Hwide. lia.
  - intros H3. destruct (Hshort H3) as (Hr & Hl).
    split; [exact Hr|]. intros H0. split; [apply Hl, H0|].
    assert (Hc : w = 0 \/ w = 1 \/ w = 2) by lia.
    destruct Hc as [->|[->| ->]]; reflexivity.
Qed.

Lemma clamp_string_ellipsis_witness :
  _clamp_string Ansi.termwidth Ansi.wrap ellipsis_5 (str "HelloWorld") 0
                (str "...")
  = Ok (str "He...")
  /\ Ansi.termwidth (str "He...") = 5.
Proof.
  destruct (clamp_string_ellipsis ellipsis_5 (str "HelloWorld") 0 5
              eq_refl eq_refl) as [H _].
  destruct (H ltac:(discriminate)) as (line & _ & Hr & _ & Hp).
  destruct (Hp eq_refl) as (-> & Hw).
  split; [exact Hr|exact Hw].
Defined.

(** C5, as stated, fails: a cell of four wide glyphs (8 columns) clamped to
    6 printable columns keeps one glyph before the "...", 5 columns in
    all, since a second glyph does not fit the 3 columns left. *)
Lemma clamp_string_ellipsis_not_exact :
  ~ (forall (t : BeautifulTable) (row_item : pystr) (index w : Z),
       printable_width t index = Ok w ->
       w < Ansi.termwidth row_item ->
       3 <= w ->
       exists r,
         _clamp_string Ansi.termwidth Ansi.wrap t row_item index (str "...")
         = Ok r
         /\ Ansi.termwidth r = w).
Proof.
  intros H.
  destruct (H ellipsis_6 wide_cell 0 6 eq_refl eq_refl ltac:(discriminate))
    as (r & Hr & Hw).
  vm_compute in Hr. injection Hr as <-. vm_compute in Hw. discriminate Hw.
Qed.

Lemma calculate_width_fits_witness :
  exists t',
    _calculate_width Ansi.termwidth Example.format_value three_columns
    = Return tt t'
    /\ width Ansi.termwidth t' <= 18.
Proof.
  destruct (calculate_width_fits Ansi.termwidth Example.format_value
              three_columns) as (t' & Hrun & _ & Hle & _).
  - repeat split; try reflexivity; try discriminate.
    repeat constructor.
  - split; repeat constructor; discriminate.
  - discriminate.
  - exists t'. split; [exact Hrun|exact Hle].
Defined.

Lemma calculate_width_idempotent_witness :
  exists t1,
    _calculate_width Ansi.termwidth Example.format_value three_columns
    = Return tt t1
    /\ _calculate_width Ansi.termwidth Example.format_value t1
       = Return tt t1.
Proof.
  apply (calculate_width_idempotent Ansi.termwidth Example.format_value
           three_columns).
  - repeat split; try reflexivity; try discriminate.
    repeat constructor.
  - split; repeat constructor; discriminate.
Defined.

(* ================================================================== *)
(** ** The further properties at concrete tables *)


Lemma one_column_well_formed : well_formed one_column.
Proof.
  repeat split; try reflexivity; try discriminate. repeat constructor.
Qed.

Lemma three_columns_well_formed : well_formed three_columns.
Proof.
  repeat split; try reflexivity; try discriminate. repeat constructor.
Qed.

Lemma one_column_paddings_ok : paddings_ok one_column.
Proof. split; repeat constructor; discriminate. Qed.

(** The wrapper of the model never returns an empty list of lines. *)
Lemma wrap_never_empty (s : pystr) (w : Z) : Ansi.wrap s w <> [].
Proof.
  unfold Ansi.wrap. destruct (Ansi.units s) as [|u us]; [discriminate|].
  cbv zeta. cbn [List.length Ansi.wrap_units].
  destruct (Ansi.take_line w (u :: us)).
  destruct (Ansi.termwidth u <=? w); discriminate.
Qed.

Lemma get_string_keeps_content_witness :
  exists ws m,
    len ws = 1
    /\ final_table
         (get_string Example.BTRowData Ansi.termwidth Ansi.wrap
                     Example.format_value true one_column)
       = with_maxwidth m (set_widths ws one_column).
Proof.
  apply (get_string_keeps_content Example.BTRowData Ansi.termwidth Ansi.wrap
           Example.format_value one_column true).
  reflexivity.
Defined.

Lemma rows_insert_pop_round_trip_witness :
  bind (rows_insert Example.BTRowData 1 [VInt 3] None)
       (fun _ => rows_pop (KInt 1)) one_column
  = Return [VInt 3] one_column
  /\ bind (rows_append Example.BTRowData [VInt 3] None)
          (fun _ => rows_pop (KInt (-1))) one_column
     = Return [VInt 3] one_column.
Proof.
  destruct (rows_insert_pop_round_trip Example.BTRowData one_column
              [VInt 3] [VInt 3] None ltac:(discriminate) eq_refl)
    as (Hi & Ha).
  split.
  - apply (Hi 1); [split; discriminate|reflexivity].
  - apply Ha. reflexivity.
Defined.

Lemma first_row_fixes_the_columns_witness :
  columns_len
    (final_table
       (rows_insert Example.BTRowData 0 [VInt 1; VInt 2] None empty)) = 2.
Proof.
  destruct (first_row_fixes_the_columns Example.BTRowData empty _ 0
              [VInt 1; VInt 2] None eq_refl eq_refl eq_refl eq_refl)
    as (H & _).
  exact H.
Defined.

Lemma rows_delitem_by_index_witness :
  rows_delitem (KInt 0) one_column
  = Return tt (with_rows_header [None] (with_data [[VInt 2]] one_column))
  /\ rows_delitem (KInt 2) one_column = Raise IndexError one_column.
Proof.
  split.
  - destruct (rows_delitem_by_index one_column 0 eq_refl) as (H & _).
    destruct (H [] [VInt 1] [[VInt 2]] [] None [None]
                eq_refl eq_refl eq_refl eq_refl) as (Hd & _).
    exact Hd.
  - destruct (rows_delitem_by_index one_column 2 eq_refl) as (_ & H).
    apply H. left. vm_compute. discriminate.
Defined.

Lemma rows_delitem_by_header_fails_witness :
  rows_delitem (KStr (str "y")) headed_rows
  = Raise TypeError (with_data [[VInt 1]] headed_rows)
  /\ rows_delitem (KStr (str "z")) headed_rows = Raise KeyError headed_rows.
Proof.
  split.
  - destruct (rows_delitem_by_header_fails headed_rows (str "y"))
      as (_ & H).
    destruct (H [[VInt 1]] [VInt 2] [] eq_refl eq_refl) as (Hd & _).
    exact Hd.
  - destruct (rows_delitem_by_header_fails headed_rows (str "z"))
      as (H & _).
    apply H. reflexivity.
Defined.

Lemma columns_removed_in_lockstep_witness :
  exists t',
    columns_delitem (KInt 1) three_columns = Return tt t'
    /\ columns_len t' = 2
    /\ _data t' = [[VStr (str "aaa"); VStr (str "cccc")]].
Proof.
  destruct (columns_removed_in_lockstep three_columns (KInt 1) 1
              three_columns_well_formed ltac:(discriminate) eq_refl
              ltac:(split; [discriminate|reflexivity]))
    as (H & _).
  eexists. split; [exact H|]. split; reflexivity.
Defined.

Lemma columns_insert_adds_a_cell_to_every_row_witness :
  exists t',
    columns_insert Example.BTRowData 0 [VInt 9; VInt 8; VInt 7]
                   (Some (str "h")) one_column
    = Return tt t'
    /\ _data t' = [[VInt 9; VInt 1]; [VInt 8; VInt 2]].
Proof.
  destruct (columns_insert_adds_a_cell_to_every_row Example.BTRowData
              one_column 0 [VInt 9; VInt 8; VInt 7] (str "h")
              one_column_well_formed ltac:(discriminate)
              ltac:(discriminate))
    as (t' & H & _ & Hd & _).
  exists t'. split; [exact H|exact Hd].
Defined.

Lemma columns_insert_pop_round_trip_witness :
  bind (columns_insert Example.BTRowData 1 [VInt 9; VInt 8]
                       (Some (str "h")))
       (fun _ => columns_pop (KInt 1)) one_column
  = Return [VInt 9; VInt 8] one_column.
Proof.
  apply (columns_insert_pop_round_trip Example.BTRowData one_column 1
           [VInt 9; VInt 8] (str "h") one_column_well_formed).
  - discriminate.
  - discriminate.
  - split; discriminate.
Defined.

Lemma calculate_width_keeps_natural_widths_witness :
  exists t',
    _calculate_width Ansi.termwidth Example.format_value one_column
    = Return tt t'
    /\ Columns.width (columns t') = [3].
Proof.
  destruct (calculate_width_keeps_natural_widths Ansi.termwidth
              Example.format_value one_column [1]
              one_column_well_formed one_column_paddings_ok
              ltac:(discriminate) eq_refl ltac:(discriminate))
    as (t' & H & Hw & _).
  exists t'. split; [exact H|exact Hw].
Defined.

Lemma natural_width_covers_every_line_witness :
  lines_fit Ansi.termwidth Example.format_value one_column 1 (VInt 2).
Proof.
  destruct (natural_width_covers_every_line Ansi.termwidth
              Example.format_value one_column [1] 0 1
              one_column_well_formed eq_refl ltac:(discriminate) eq_refl)
    as (_ & H).
  apply (H [VInt 2]); [right; left; reflexivity|reflexivity].
Defined.

Lemma fitting_table_is_not_clamped_witness :
  exists t',
    _calculate_width Ansi.termwidth Example.format_value one_column
    = Return tt t'
    /\ _clamp_string Ansi.termwidth Ansi.wrap t' (str "2") 0 (str "...")
       = Ok (str "2").
Proof.
  destruct (fitting_table_is_not_clamped Ansi.termwidth Ansi.wrap
              Example.format_value one_column [1]
              one_column_well_formed one_column_paddings_ok
              ltac:(discriminate) eq_refl ltac:(discriminate))
    as (t' & H & Hc).
  exists t'. split; [exact H|].
  apply (Hc 0 (VInt 2) (str "2") (str "...")).
  - left. exists [VInt 2]. vm_compute in H. injection H as <-.
    split; [right; left; reflexivity|reflexivity].
  - discriminate.
  - vm_compute in H. injection H as <-. left. reflexivity.
Defined.

Lemma plain_char_single_width (c : ascii) :
  Ansi.wide (N_of_ascii c) = false -> N_of_ascii c <> 27%N ->
  single_width Ansi.termwidth [N_of_ascii c].
Proof.
  intros Hw He. unfold single_width, Ansi.termwidth.
  cbn [Ansi.termwidth_from Ansi.visible].
  destruct (N.eqb_spec (N_of_ascii c) 27) as [E|_]; [contradiction|].
  unfold Ansi.wcwidth. rewrite Hw. split; discriminate.
Qed.

Lemma horizontal_line_spans_the_table_witness :
  exists line,
    _get_horizontal_line Ansi.termwidth narrow (str "-") (str "+")
                         (str "+") (str "+")
    = Ok line
    /\ len line = 5.
Proof.
  apply (horizontal_line_spans_the_table Ansi.termwidth narrow (str "-")
           (str "+") (str "+") (str "+")).
  - reflexivity.
  - repeat constructor. discriminate.
  - apply (plain_char_single_width "-"); [reflexivity|discriminate].
  - apply (plain_char_single_width "+"); [reflexivity|discriminate].
  - apply (plain_char_single_width "+"); [reflexivity|discriminate].
  - apply (plain_char_single_width "+"); [reflexivity|discriminate].
  - discriminate.
  - discriminate.
  - discriminate.
Defined.

Lemma clamp_row_yields_full_lines_witness :
  exists lines,
    _clamp_row Ansi.termwidth Ansi.wrap ellipsis_5 [str "HelloWorld"]
    = Ok lines
    /\ lines <> [].
Proof.
  destruct (clamp_row_yields_full_lines Ansi.termwidth Ansi.wrap ellipsis_5
              [str "HelloWorld"] eq_refl eq_refl eq_refl wrap_never_empty
              eq_refl)
    as (lines & H & Hne & _).
  exists lines. split; [exact H|exact Hne].
Defined.

Lemma align_item_adds_the_missing_spaces_witness :
  align_item Ansi.termwidth narrow [ALIGN_CENTER] [str "x"] 0
  = Ok (str " x ").
Proof.
  destruct (align_item_adds_the_missing_spaces Ansi.termwidth narrow
              [ALIGN_CENTER] [str "x"] 0 3 (str "x") ALIGN_CENTER
              eq_refl eq_refl eq_refl)
    as (l & r & H & Hl & Hr & Hsum & Hc).
  rewrite H. cbv iota in Hc.
  change (Z.max 0 (3 - Ansi.termwidth (str "x"))) with 2 in Hsum.
  assert (l = 1 /\ r = 1) as [-> ->] by lia. reflexivity.
Defined.

Lemma calculate_width_without_columns_witness :
  _calculate_width Ansi.termwidth Example.format_value empty
  = Return tt empty.
Proof.
  apply (calculate_width_without_columns Ansi.termwidth Example.format_value
           empty).
  - repeat split; try reflexivity; try discriminate. constructor.
  - reflexivity.
Defined.

Lemma columns_append_adds_the_last_column_witness :
  exists t',
    columns_append Example.BTRowData [VInt 9; VInt 8] (Some (str "h"))
                   one_column
    = Return tt t'
    /\ _data t' = [[VInt 1; VInt 9]; [VInt 2; VInt 8]].
Proof.
  destruct (columns_append_adds_the_last_column Example.BTRowData one_column
              [VInt 9; VInt 8] (str "h") one_column_well_formed
              ltac:(discriminate) ltac:(discriminate))
    as (t' & H & _ & Hd & _).
  exists t'. split; [exact H|exact Hd].
Defined.

Lemma rows_pop_by_header_witness :
  rows_pop (KStr (str "y")) headed_rows
  = Return [VInt 2]
      (with_rows_header [Some (str "x")] (with_data [[VInt 1]] headed_rows))
  /\ rows_pop (KStr (str "z")) headed_rows = Raise KeyError headed_rows.
Proof.
  split.
  - destruct (rows_pop_by_header headed_rows (str "y") ltac:(discriminate))
      as (_ & H).
    exact (H [[VInt 1]] [VInt 2] [] [Some (str "x")] (Some (str "y")) []
             eq_refl eq_refl eq_refl eq_refl).
  - destruct (rows_pop_by_header headed_rows (str "z") ltac:(discriminate))
      as (H & _).
    apply H. reflexivity.
Defined.

Lemma columns_update_then_read_witness :
  exists t',
    columns_setitem (ByHeader (str "a")) [VInt 7] one_column = Return tt t'
    /\ columns_getitem (ByHeader (str "a")) t' = Return [VInt 7; VInt 2] t'.
Proof.
  destruct (columns_update_then_read one_column (ByHeader (str "a")) 0
              [VInt 7] one_column_well_formed eq_refl
              ltac:(split; [discriminate|reflexivity]))
    as (Hs & Hg & _).
  eexists. split; [exact Hs|exact Hg].
Defined.

Lemma inserted_row_is_found_under_its_header_witness :
  exists t',
    rows_insert Example.BTRowData 1 [VInt 3] (Some (str "z")) one_column
    = Return tt t'
    /\ rows_getitem (ByHeader (str "z")) t' = Return [VInt 3] t'.
Proof.
  destruct (inserted_row_is_found_under_its_header Example.BTRowData
              one_column 1 [VInt 3] [VInt 3] (str "z")
              ltac:(discriminate) eq_refl ltac:(split; discriminate)
              eq_refl)
    as (t' & Hi & _ & Hh).
  exists t'. split; [exact Hi|]. apply Hh.
  intros [H|[]]. discriminate H.
Defined.

Lemma stream_without_append_keeps_the_rows_witness :
  exists ws m,
    len ws = 1
    /\ final_table
         (_get_string Example.BTRowData Ansi.termwidth Ansi.wrap
                      Example.format_value [[VInt 3]] false false one_column)
       = with_maxwidth m (set_widths ws one_column).
Proof.
  destruct (_get_string Example.BTRowData Ansi.termwidth Ansi.wrap
              Example.format_value [[VInt 3]] false false one_column)
    as [lines t'|e t'] eqn:E.
  - exact (stream_without_append_keeps_the_rows Example.BTRowData
             Ansi.termwidth Ansi.wrap Example.format_value one_column t'
             [[VInt 3]] false lines eq_refl ltac:(discriminate) eq_refl E).
  - vm_compute in E. discriminate E.
Defined.

Lemma stream_with_append_adds_every_row_witness :
  _data
    (final_table
       (_get_string Example.BTRowData Ansi.termwidth Ansi.wrap
                    Example.format_value [[VInt 3]] true false one_column))
  = [[VInt 1]; [VInt 2]; [VInt 3]].
Proof.
  destruct (_get_string Example.BTRowData Ansi.termwidth Ansi.wrap
              Example.format_value [[VInt 3]] true false one_column)
    as [lines t'|e t'] eqn:E.
  - destruct (stream_with_append_adds_every_row Example.BTRowData
                Ansi.termwidth Ansi.wrap Example.format_value one_column t'
                [[VInt 3]] false lines eq_refl ltac:(discriminate) eq_refl E)
      as (new & ws & m & Hall & _ & ->).
    inversion Hall as [|r0 r' rs new' (tx & Hr) Hrest]; subst.
    inversion Hrest; subst.
    unfold Example.BTRowData in Hr.
    destruct (len [VInt 3] =? _ncol tx); [|discriminate Hr].
    injection Hr as <-. reflexivity.
  - vm_compute in E. discriminate E.
Defined.

Lemma rows_update_then_read_witness :
  exists t',
    rows_setitem Example.BTRowData (ByIndex 1) [VInt 5] one_column
    = Return tt t'
    /\ rows_getitem (ByIndex 1) t' = Return [VInt 5] t'.
Proof.
  destruct (rows_update_then_read Example.BTRowData one_column (ByIndex 1) 1
              [VInt 5] [VInt 5] eq_refl eq_refl)
    as (H & _).
  destruct (H ltac:(split; [discriminate|reflexivity])) as (Hs & Hg & _).
  eexists. split; [exact Hs|exact Hg].
Defined.

Lemma rows_insert_accepts_every_index_witness :
  exists t',
    rows_insert Example.BTRowData 100 [VInt 3] None one_column
    = Return tt t'
    /\ _data t' = [[VInt 1]; [VInt 2]; [VInt 3]].
Proof.
  destruct (rows_insert_accepts_every_index Example.BTRowData one_column 100
              [VInt 3] [VInt 3] None ltac:(discriminate) eq_refl)
    as (t' & H & _ & _ & _ & _ & Hd & _).
  exists t'. split; [exact H|]. apply Hd. discriminate.
Defined.

Lemma rows_delitem_by_slice_witness :
  rows_delitem (KSlice None None (Some 0)) one_column
  = Raise ValueError one_column
  /\ rows_delitem (KSlice (Some 1) None None) one_column
     = Return tt (with_rows_header [None] (with_data [[VInt 1]] one_column)).
Proof.
  split.
  - destruct (rows_delitem_by_slice one_column None None (Some 0) eq_refl)
      as (H & _).
    apply H. reflexivity.
  - destruct (rows_delitem_by_slice one_column (Some 1) None None eq_refl)
      as (_ & _ & H).
    apply H; [left; reflexivity|split; discriminate|discriminate].
Defined.

Lemma numbered_well_formed : well_formed numbered.
Proof.
  repeat split; try reflexivity; try discriminate. repeat constructor.
Qed.

Lemma get_string_takes_the_serial_column_out_witness :
  exists s ws m,
    len ws = 1
    /\ get_string Example.BTRowData Ansi.termwidth Ansi.wrap
                  Example.format_value true numbered
       = Return s (with_maxwidth m (set_widths ws numbered)).
Proof.
  destruct (get_string Example.BTRowData Ansi.termwidth Ansi.wrap
                       Example.format_value true numbered)
    as [s t'|e t'] eqn:E.
  - destruct (get_string_takes_the_serial_column_out Example.BTRowData
                Ansi.termwidth Ansi.wrap Example.format_value numbered t'
                true s numbered_well_formed eq_refl E)
      as (ws & m & Hl & ->).
    exists s, ws, m. split; [exact Hl|reflexivity].
  - vm_compute in E. discriminate E.
Defined.
